(** * Backtester: a shallow embedding of [Core/Backtester.py]

    The development follows the Python class [Backtester]: the composition
    matrix built from a strategy, the lagged / normalised / cost-adjusted
    returns of [calculate_returns], and the trade scan of [evaluate_trade].

    Number model.  The source computes on pandas [float64] cells.  Finite
    values are taken as exact rationals ([Q], compared with [Qeq]); the
    special values the code explicitly deals with ([NaN], and the infinities
    that a division by a zero price produces) are kept, with their IEEE
    rules.  Rounding, overflow and the sign of zero are not modelled by
    [float].  Where they decide a question, the lines concerned are evaluated
    on IEEE binary64 numbers themselves, the primitive floats of
    [PrimFloat] (section Binary64 below).

    Table model.  A [DataFrame] is a number of columns and a list of rows,
    each row carrying its index label (the position of its date in the price
    table).  A [Series] is a list of labelled cells.  The trading dates of the
    calendar are taken to be the dates of the price table.  An operation on
    two tables pairs their rows by position, which is what the alignment on
    labels of pandas does for two tables over one index. *)

From Stdlib Require Import PrimFloat.
From Stdlib Require Import QArith Qabs List Bool Arith Lia Lqa.
Import ListNotations.

(** ** Cells *)

Inductive float : Type :=
| Fin (q : Q)
| PInf
| NInf
| NaN.

Definition fzero : float := Fin 0.
Definition fone : float := Fin 1.

(** An infinity of the sign given by a comparison with zero; [0 * inf] and
    [0 / 0] are [NaN]. *)
Definition finf (c : comparison) : float :=
  match c with Gt => PInf | Lt => NInf | Eq => NaN end.

Definition is_nan (x : float) : bool :=
  match x with NaN => true | _ => false end.

Definition is_finite (x : float) : bool :=
  match x with Fin _ => true | _ => false end.

Definition fneg (x : float) : float :=
  match x with
  | Fin q => Fin (- q)
  | PInf => NInf
  | NInf => PInf
  | NaN => NaN
  end.

Definition fabs (x : float) : float :=
  match x with
  | Fin q => Fin (Qabs q)
  | PInf | NInf => PInf
  | NaN => NaN
  end.

Definition fadd (x y : float) : float :=
  match x, y with
  | NaN, _ | _, NaN => NaN
  | Fin a, Fin b => Fin (a + b)
  | PInf, NInf | NInf, PInf => NaN
  | PInf, _ | _, PInf => PInf
  | NInf, _ | _, NInf => NInf
  end.

Definition fsub (x y : float) : float := fadd x (fneg y).

Definition fmul (x y : float) : float :=
  match x, y with
  | NaN, _ | _, NaN => NaN
  | Fin a, Fin b => Fin (a * b)
  | Fin a, PInf | PInf, Fin a => finf (a ?= 0)
  | Fin a, NInf | NInf, Fin a => finf (0 ?= a)
  | PInf, PInf | NInf, NInf => PInf
  | PInf, NInf | NInf, PInf => NInf
  end.

Definition fdiv (x y : float) : float :=
  match x, y with
  | NaN, _ | _, NaN => NaN
  | Fin a, Fin b => if Qeq_bool b 0 then finf (a ?= 0) else Fin (a / b)
  | Fin _, (PInf | NInf) => Fin 0
  | PInf, Fin b => match b ?= 0 with Lt => NInf | _ => PInf end
  | NInf, Fin b => match b ?= 0 with Lt => PInf | _ => NInf end
  | (PInf | NInf), (PInf | NInf) => NaN
  end.

(** Python's [x != y], [x > y] and [x < y] on floats: every ordered
    comparison with [NaN] is false, and [NaN != y] is true. *)
Definition feqb (x y : float) : bool :=
  match x, y with
  | Fin a, Fin b => Qeq_bool a b
  | PInf, PInf | NInf, NInf => true
  | _, _ => false
  end.

Definition fneb (x y : float) : bool := negb (feqb x y).

Definition fltb (x y : float) : bool :=
  match x, y with
  | NaN, _ | _, NaN => false
  | Fin a, Fin b => match a ?= b with Lt => true | _ => false end
  | NInf, (Fin _ | PInf) => true
  | Fin _, PInf => true
  | _, _ => false
  end.

Definition fgtb (x y : float) : bool := fltb y x.

(** [fillna(0)] on one cell. *)
Definition fillna0 (x : float) : float :=
  match x with NaN => fzero | _ => x end.

(** Two cells hold the same value: the same special value, or equal
    rationals. *)
Definition same (x y : float) : Prop :=
  match x, y with
  | Fin a, Fin b => a == b
  | PInf, PInf | NInf, NInf | NaN, NaN => True
  | _, _ => False
  end.

Definition sameb (x y : float) : bool :=
  match x, y with
  | Fin a, Fin b => Qeq_bool a b
  | PInf, PInf | NInf, NInf | NaN, NaN => true
  | _, _ => false
  end.

(** ** Errors *)

Inductive exn : Type :=
| IndexError
| KeyError
| ValueError.

Inductive result (A : Type) : Type :=
| Ok (a : A)
| Raise (e : exn).

Arguments Ok {A} a.
Arguments Raise {A} e.

Definition bind {A B : Type} (m : result A) (k : A -> result B) : result B :=
  match m with
  | Ok a => k a
  | Raise e => Raise e
  end.

Notation "x <- m ;; k" := (bind m (fun x => k))
  (at level 61, m at next level, right associativity).

(** A [for] loop whose body may raise. *)
Fixpoint foldM {A S : Type} (body : S -> A -> result S) (l : list A) (s : S)
  : result S :=
  match l with
  | [] => Ok s
  | a :: l' => s' <- body s a ;; foldM body l' s'
  end.

(** ** Tables *)

Abbreviation Row := (nat * list float)%type (only parsing).
Abbreviation Series := (list (nat * float)) (only parsing).

Record DataFrame : Type := mkDF {
  columns : nat;
  rows : list Row
}.

Definition index (df : DataFrame) : list nat := map fst (rows df).
Definition values (df : DataFrame) : list (list float) := map snd (rows df).
Definition s_index (s : Series) : list nat := map fst s.
Definition s_values (s : Series) : list float := map snd s.

(** Cell-wise operations keep the index. *)
Definition map_cells (f : float -> float) (df : DataFrame) : DataFrame :=
  mkDF (columns df) (map (fun r : Row => (fst r, map f (snd r))) (rows df)).

Definition df_fillna0 : DataFrame -> DataFrame := map_cells fillna0.
Definition df_abs : DataFrame -> DataFrame := map_cells fabs.

Fixpoint map2 {A B C : Type} (f : A -> B -> C) (l : list A) (m : list B)
  : list C :=
  match l, m with
  | a :: l', b :: m' => f a b :: map2 f l' m'
  | _, _ => []
  end.

(** [df.shift(1)]: the index stays, every row receives the cells of the row
    before it, and the first row is all [NaN]. *)
Fixpoint shift_from (prev : list float) (rs : list Row) : list Row :=
  match rs with
  | [] => []
  | (d, cells) :: rs' => (d, prev) :: shift_from cells rs'
  end.

Definition df_shift1 (df : DataFrame) : DataFrame :=
  mkDF (columns df) (shift_from (repeat NaN (columns df)) (rows df)).

(** [df.sum(axis=1)], which skips [NaN] cells (an all-[NaN] row sums to 0). *)
Definition nan_step (acc x : float) : float :=
  if is_nan x then acc else fadd acc x.

Definition nansum (cells : list float) : float :=
  fold_left nan_step cells fzero.

Definition df_sum_rows (df : DataFrame) : Series :=
  map (fun r : Row => (fst r, nansum (snd r))) (rows df).

(** [df.div(s, axis=0)] and [df.multiply(other)] on tables over one index. *)
Definition df_div_rows (df : DataFrame) (s : Series) : DataFrame :=
  mkDF (columns df)
       (map2 (fun (r : Row) (c : nat * float) =>
                (fst r, map (fun x => fdiv x (snd c)) (snd r)))
             (rows df) s).

Definition df_multiply (a b : DataFrame) : DataFrame :=
  mkDF (columns a)
       (map2 (fun (r r' : Row) => (fst r, map2 fmul (snd r) (snd r')))
             (rows a) (rows b)).

(** [df.diff()]: each row minus the row before; the first row is [NaN]. *)
Definition df_diff (df : DataFrame) : DataFrame :=
  mkDF (columns df)
       (map2 (fun (r r' : Row) => (fst r, map2 fsub (snd r) (snd r')))
             (rows df) (rows (df_shift1 df))).

Definition s_scale (s : Series) (k : Q) : Series :=
  map (fun c : nat * float => (fst c, fmul (snd c) (Fin k))) s.

Definition s_sub (a b : Series) : Series :=
  map2 (fun (c c' : nat * float) => (fst c, fsub (snd c) (snd c'))) a b.

(** [df.ffill()]: a missing cell takes the last value above it. *)
Fixpoint ffill_row (prev cur : list float) : list float :=
  match cur with
  | [] => []
  | c :: cur' => (if is_nan c then hd NaN prev else c) :: ffill_row (tl prev) cur'
  end.

Fixpoint ffill_from (prev : list float) (rs : list Row) : list Row :=
  match rs with
  | [] => []
  | (d, cells) :: rs' =>
      let cur := ffill_row prev cells in (d, cur) :: ffill_from cur rs'
  end.

Definition df_ffill (df : DataFrame) : DataFrame :=
  mkDF (columns df) (ffill_from (repeat NaN (columns df)) (rows df)).

(** [df.pct_change()].  Its default [fill_method] depends on the pandas
    release: ['pad'] forward-fills the prices first, [None] does not. *)
Inductive fill_method : Type := Pad | NoFill.

Definition pct_change (fm : fill_method) (df : DataFrame) : DataFrame :=
  let d := match fm with Pad => df_ffill df | NoFill => df end in
  mkDF (columns df)
       (map2 (fun (r r' : Row) =>
                (fst r, map2 (fun x p => fsub (fdiv x p) fone) (snd r) (snd r')))
             (rows d) (rows (df_shift1 d))).

(** [cumprod()], which skips [NaN]: the cell stays [NaN] and the running
    product is carried over it. *)
Definition cum_step (acc x : float) : float := if is_nan x then acc else fmul acc x.
Definition cum_out (acc x : float) : float := if is_nan x then NaN else acc.

Fixpoint cumprod_from (acc : list float) (rs : list Row) : list Row :=
  match rs with
  | [] => []
  | (d, cells) :: rs' =>
      let acc' := map2 cum_step acc cells in
      (d, map2 cum_out acc' cells) :: cumprod_from acc' rs'
  end.

Definition df_cumprod (df : DataFrame) : DataFrame :=
  mkDF (columns df) (cumprod_from (repeat fone (columns df)) (rows df)).

Fixpoint s_cumprod_from (acc : float) (s : Series) : Series :=
  match s with
  | [] => []
  | (d, x) :: s' =>
      let acc' := cum_step acc x in (d, cum_out acc' x) :: s_cumprod_from acc' s'
  end.

Definition s_cumprod (s : Series) : Series := s_cumprod_from fone s.

Definition s_map (f : float -> float) (s : Series) : Series :=
  map (fun c : nat * float => (fst c, f (snd c))) s.

(** [df.iloc[k:]] and [s.iloc[k:]]. *)
Definition df_iloc_from (k : nat) (df : DataFrame) : DataFrame :=
  mkDF (columns df) (skipn k (rows df)).

Definition s_iloc_from (k : nat) (s : Series) : Series := skipn k s.

(** Label and position look-ups. *)
Definition iloc0 (df : DataFrame) : result Row :=
  match rows df with
  | [] => Raise IndexError
  | r :: _ => Ok r
  end.

Definition cell (r : Row) (asset : nat) : result float :=
  match nth_error (snd r) asset with
  | Some x => Ok x
  | None => Raise KeyError
  end.

Definition loc (df : DataFrame) (date : nat) : result Row :=
  match find (fun r : Row => fst r =? date) (rows df) with
  | Some r => Ok r
  | None => Raise KeyError
  end.

Definition at_ (df : DataFrame) (date asset : nat) : result float :=
  r <- loc df date ;; cell r asset.

(** ** The backtester *)

(** Modelled from the spec: the [Calendar] collaborator is not part of the
    source at hand.  Its [rebalancing_dates] are kept as a membership test on
    index labels, and its [all_dates] are taken to cover the dates of the
    price table, so that the trading dates are the table's own dates. *)
Record Backtester : Type := mkBacktester {
  data : DataFrame;
  multi_assets : bool;
  special_start : nat;
  transaction_cost : Q;
  slippage : Q;
  rebalancing_dates : nat -> bool
}.

(** [__init__] reads [data.index[0]] and [data.index[-1]], which raise on a
    table without rows. *)
Definition init (data_source : DataFrame) (multi : bool) (start : nat)
    (cost slip : Q) (calendar : nat -> bool) : result Backtester :=
  match rows data_source with
  | [] => Raise IndexError
  | _ :: _ => Ok (mkBacktester data_source multi start cost slip calendar)
  end.

(** *** Strategy *)

(** Modelled from the spec: the [Strategy] collaborator exposes one pure
    operation, [get_position(history, previous_position)].  The history is
    one asset's prices or the whole table up to the current date, according
    to the mode; a position is a scalar or one weight per asset. *)

Inductive position : Type :=
| Scalar (x : float)
| Vector (xs : list float).

Inductive history : Type :=
| AssetHistory (prices : list float)
| TableHistory (prices : list Row).

Record Strategy : Type := mkStrategy {
  get_position : history -> position -> position
}.

(** *** calculate_composition_matrix *)

Definition empty_frame (cols : nat) (dates : list nat) : DataFrame :=
  mkDF cols (map (fun d => (d, repeat NaN cols)) dates).

Fixpoint set_nth (xs : list float) (i : nat) (x : float) : list float :=
  match xs, i with
  | [], _ => []
  | _ :: xs', O => x :: xs'
  | y :: xs', S i' => y :: set_nth xs' i' x
  end.

(** [df.at[date, asset] = position]: a cell takes a scalar only. *)
Definition set_at (df : DataFrame) (date asset : nat) (p : position)
  : result DataFrame :=
  match p with
  | Scalar x =>
      Ok (mkDF (columns df)
               (map (fun r : Row =>
                       if fst r =? date then (fst r, set_nth (snd r) asset x) else r)
                    (rows df)))
  | Vector _ => Raise ValueError
  end.

(** [df.loc[date] = position]: a scalar is broadcast over the row, a vector
    must have one entry per column. *)
Definition set_loc (df : DataFrame) (date : nat) (p : position)
  : result DataFrame :=
  match p with
  | Scalar x =>
      Ok (mkDF (columns df)
               (map (fun r : Row =>
                       if fst r =? date then (fst r, repeat x (columns df)) else r)
                    (rows df)))
  | Vector xs =>
      if length xs =? columns df
      then Ok (mkDF (columns df)
                    (map (fun r : Row => if fst r =? date then (fst r, xs) else r)
                         (rows df)))
      else Raise ValueError
  end.

Definition column (df : DataFrame) (asset : nat) : list float :=
  map (fun r : Row => nth asset (snd r) NaN) (rows df).

(** [range(special_start, len(trading_dates))]. *)
Definition date_range (bt : Backtester) : list nat :=
  seq (special_start bt) (length (rows (data bt)) - special_start bt).

Definition trading_date (bt : Backtester) (date_index : nat) : nat :=
  nth date_index (index (data bt)) 0%nat.

Definition multi_step (bt : Backtester) (strategy : Strategy)
    (st : position * DataFrame) (date_index : nat)
  : result (position * DataFrame) :=
  let '(current_position, composition_matrix) := st in
  let current_date := trading_date bt date_index in
  let current_df := TableHistory (firstn (S date_index) (rows (data bt))) in
  let current_position :=
    if rebalancing_dates bt current_date
    then get_position strategy current_df current_position
    else current_position in
  m <- set_loc composition_matrix current_date current_position ;;
  Ok (current_position, m).

Definition asset_step (bt : Backtester) (strategy : Strategy) (asset : nat)
    (st : position * DataFrame) (date_index : nat)
  : result (position * DataFrame) :=
  let '(current_position, composition_matrix) := st in
  let current_date := trading_date bt date_index in
  let current_df :=
    AssetHistory (column (mkDF (columns (data bt))
                               (firstn (S date_index) (rows (data bt)))) asset) in
  let current_position :=
    if rebalancing_dates bt current_date
    then get_position strategy current_df current_position
    else current_position in
  m <- set_at composition_matrix current_date asset current_position ;;
  Ok (current_position, m).

Definition calculate_composition_matrix (bt : Backtester) (strategy : Strategy)
  : result DataFrame :=
  let assets := seq 0 (columns (data bt)) in
  let composition_matrix := empty_frame (columns (data bt)) (index (data bt)) in
  if multi_assets bt then
    st <- foldM (multi_step bt strategy) (date_range bt)
                (Scalar fzero, composition_matrix) ;;
    Ok (snd st)
  else
    foldM (fun m asset =>
             st <- foldM (asset_step bt strategy asset) (date_range bt)
                         (Scalar fzero, m) ;;
             Ok (snd st))
          assets composition_matrix.

(** *** Costs *)

Definition turnover (shifted_positions : DataFrame) : Series :=
  df_sum_rows (df_abs (df_diff shifted_positions)).

Definition calculate_transaction_costs (bt : Backtester)
    (shifted_positions : DataFrame) : Series :=
  s_scale (turnover shifted_positions) (transaction_cost bt).

Definition calculate_slippage_costs (bt : Backtester)
    (shifted_positions : DataFrame) : Series :=
  s_scale (turnover shifted_positions) (slippage bt).

(** *** evaluate_trade *)

Record trade_state : Type := mkTS {
  trade_count : nat;
  win_trade_count : nat;
  last_position : float;
  last_trade_value : float
}.

Definition is_win (last_pos current_value last_value : float) : bool :=
  (fgtb last_pos fzero && fgtb current_value last_value)
  || (fltb last_pos fzero && fltb current_value last_value).

(** The body of the loop over dates. *)
Definition trade_step (bt : Backtester) (shifted_positions : DataFrame)
    (asset : nat) (st : trade_state) (date : nat) : result trade_state :=
  current_position <- at_ shifted_positions date asset ;;
  if fneb (last_position st) current_position then
    current_value <- at_ (data bt) date asset ;;
    Ok (mkTS (S (trade_count st))
             (if is_win (last_position st) current_value (last_trade_value st)
              then S (win_trade_count st) else win_trade_count st)
             current_position
             current_value)
  else Ok st.

(** The body of the loop over assets; the two counters go on from one asset
    to the next. *)
Definition trade_asset (bt : Backtester) (shifted_positions : DataFrame)
    (counts : nat * nat) (asset : nat) : result (nat * nat) :=
  r0 <- iloc0 shifted_positions ;;
  p0 <- cell r0 asset ;;
  d0 <- iloc0 (data bt) ;;
  v0 <- cell d0 asset ;;
  st <- foldM (trade_step bt shifted_positions asset) (index shifted_positions)
              (mkTS (fst counts) (snd counts) p0 v0) ;;
  Ok (trade_count st, win_trade_count st).

Definition evaluate_trade (bt : Backtester) (shifted_positions : DataFrame)
  : result (nat * nat) :=
  foldM (trade_asset bt shifted_positions)
        (seq 0 (columns shifted_positions)) (0%nat, 0%nat).

(** *** calculate_returns *)

Definition asset_returns (fm : fill_method) (bt : Backtester) : DataFrame :=
  df_fillna0 (pct_change fm (data bt)).

(** Line 158: the lag. *)
Definition lagged_positions (composition_matrix : DataFrame) : DataFrame :=
  df_fillna0 (df_shift1 composition_matrix).

(** Line 161: the row normalisation. *)
Definition normalize (shifted_positions : DataFrame) : DataFrame :=
  df_fillna0 (df_div_rows shifted_positions
                          (df_sum_rows (df_abs shifted_positions))).

Definition shifted_positions (composition_matrix : DataFrame) : DataFrame :=
  normalize (lagged_positions composition_matrix).

Definition asset_contributions (fm : fill_method) (bt : Backtester)
    (composition_matrix : DataFrame) : DataFrame :=
  df_multiply (shifted_positions composition_matrix) (asset_returns fm bt).

Definition portfolio_returns (fm : fill_method) (bt : Backtester)
    (composition_matrix : DataFrame) : Series :=
  let sp := shifted_positions composition_matrix in
  s_sub (s_sub (df_sum_rows (asset_contributions fm bt composition_matrix))
               (calculate_transaction_costs bt sp))
        (calculate_slippage_costs bt sp).

Definition cumulative_asset_returns (fm : fill_method) (bt : Backtester)
    (composition_matrix : DataFrame) : DataFrame :=
  map_cells (fun x => fsub x fone)
    (df_cumprod (map_cells (fadd fone)
                   (asset_contributions fm bt composition_matrix))).

Definition cumulative_returns (fm : fill_method) (bt : Backtester)
    (composition_matrix : DataFrame) : Series :=
  s_map (fun x => fsub x fone)
    (s_cumprod (s_map (fadd fone) (portfolio_returns fm bt composition_matrix))).

Record Returns : Type := mkReturns {
  r_asset_contributions : DataFrame;
  r_portfolio_returns : Series;
  r_cumulative_asset_returns : DataFrame;
  r_cumulative_returns : Series;
  r_result_trade : nat * nat
}.

(** The warm-up trim of lines 177-182. *)
Definition trim_df (bt : Backtester) (df : DataFrame) : DataFrame :=
  if special_start bt =? 1 then df else df_iloc_from (special_start bt + 1) df.

Definition trim_s (bt : Backtester) (s : Series) : Series :=
  if special_start bt =? 1 then s else s_iloc_from (special_start bt + 1) s.

Definition calculate_returns (fm : fill_method) (bt : Backtester)
    (composition_matrix : DataFrame) : result Returns :=
  let sp := shifted_positions composition_matrix in
  let ac := asset_contributions fm bt composition_matrix in
  let pr := portfolio_returns fm bt composition_matrix in
  let car := cumulative_asset_returns fm bt composition_matrix in
  let cr := cumulative_returns fm bt composition_matrix in
  let sp := trim_df bt sp in
  let ac := trim_df bt ac in
  let pr := trim_s bt pr in
  let car := trim_df bt car in
  let cr := trim_s bt cr in
  result_trade <- evaluate_trade bt sp ;;
  Ok (mkReturns ac pr car cr result_trade).

(** *** run *)

(** Modelled from the spec: the [Result] record bundles the portfolio
    returns, the cumulative returns, a risk-free rate fixed at 0 and the
    trade statistics. *)

Record Result : Type := mkResult {
  res_portfolio_returns : Series;
  res_cumulative_returns : Series;
  risk_free_rate : Q;
  trade_stats : nat * nat
}.

Definition run (fm : fill_method) (bt : Backtester) (strategy : Strategy)
  : result Result :=
  composition_matrix <- calculate_composition_matrix bt strategy ;;
  r <- calculate_returns fm bt composition_matrix ;;
  Ok (mkResult (r_portfolio_returns r) (r_cumulative_returns r) 0
               (r_result_trade r)).

(** ** Notions used by the statements *)

(** Predicates on cells. *)
Definition is_inf (x : float) : bool :=
  match x with PInf | NInf => true | _ => false end.

Definition is_zero (x : float) : bool := feqb x fzero.

Definition finite (x : float) : Prop := is_finite x = true.

(** Missing or finite. *)
Definition no_inf (x : float) : Prop := is_inf x = false.

(** A price that is missing or strictly positive. *)
Definition price_ok (x : float) : Prop :=
  match x with
  | Fin q => (0 < q)%Q
  | NaN => True
  | PInf | NInf => False
  end.

Definition all_cells (P : float -> Prop) (df : DataFrame) : Prop :=
  Forall (fun r : Row => Forall P (snd r)) (rows df).

Definition all_values (P : float -> Prop) (s : Series) : Prop :=
  Forall (fun c : nat * float => P (snd c)) s.

(** Lists of cells holding the same values. *)
Definition same_cells (l m : list float) : bool :=
  (length l =? length m)%nat
  && forallb (fun p : float * float => sameb (fst p) (snd p)) (combine l m).

(** One row of [normalize]: each cell divided by the row's sum of absolute
    values, then [fillna(0)]. *)
Definition abs_sum (cells : list float) : float := nansum (map fabs cells).

Definition normalize_row (cells : list float) : list float :=
  map (fun x => fillna0 (fdiv x (abs_sum cells))) cells.

Definition qsum (l : list Q) : Q := fold_right Qplus 0 l.

(** The price table as the model keeps it: row [i] carries the label [i],
    and every row has one cell per column. *)
Definition wf_data (df : DataFrame) : Prop :=
  index df = seq 0 (length (rows df)) /\
  Forall (fun r : Row => length (snd r) = columns df) (rows df).

Definition price_at (bt : Backtester) (date asset : nat) : float :=
  nth asset (snd (nth date (rows (data bt)) (0%nat, []))) NaN.

(** What the scan of one asset reads: a window with distinct dates, all of
    them dates of the price table, and a cell for the asset in every row. *)
Definition scan_ready (bt : Backtester) (sp : DataFrame) (asset : nat) : Prop :=
  wf_data (data bt) /\
  (asset < columns (data bt))%nat /\
  NoDup (index sp) /\
  Forall (fun r : Row => (fst r < length (rows (data bt)))%nat /\
                         (asset < length (snd r))%nat) (rows sp).

(** The loop body of [evaluate_trade] on the values it looks up. *)
Definition pure_step (st : trade_state) (pv : float * float) : trade_state :=
  if fneb (last_position st) (fst pv) then
    mkTS (S (trade_count st))
         (if is_win (last_position st) (snd pv) (last_trade_value st)
          then S (win_trade_count st) else win_trade_count st)
         (fst pv) (snd pv)
  else st.

(** The (position, price) pairs met by the scan of one asset. *)
Definition trade_pairs (bt : Backtester) (sp : DataFrame) (asset : nat)
  : list (float * float) :=
  map (fun r : Row => (nth asset (snd r) NaN, price_at bt (fst r) asset)) (rows sp).

(** Trades and wins counted from a last position and a last trade value. *)
Fixpoint scan (lastp lastv : float) (l : list (float * float)) : nat * nat :=
  match l with
  | [] => (0%nat, 0%nat)
  | (p, v) :: l' =>
      if fneb lastp p
      then let r := scan p v l' in
           (S (fst r), ((if is_win lastp v lastv then 1 else 0) + snd r)%nat)
      else scan lastp lastv l'
  end.

(** The number of rows whose position differs from the row before. *)
Fixpoint changes (prev : float) (l : list float) : nat :=
  match l with
  | [] => 0%nat
  | p :: l' => ((if fneb prev p then 1 else 0) + changes p l')%nat
  end.

(** The number of rows removed by the warm-up trim. *)
Definition dropped (bt : Backtester) : nat :=
  if (special_start bt =? 1)%nat then 0%nat else (special_start bt + 1)%nat.

(** The backtester with another transaction cost rate. *)
Definition with_cost (bt : Backtester) (cost : Q) : Backtester :=
  mkBacktester (data bt) (multi_assets bt) (special_start bt) cost
               (slippage bt) (rebalancing_dates bt).

(** The sum of the asset contributions of each date, before costs. *)
Definition gross_returns (fm : fill_method) (bt : Backtester)
    (composition_matrix : DataFrame) : Series :=
  df_sum_rows (asset_contributions fm bt composition_matrix).

(** A gross return net of the two costs charged on a turnover. *)
Definition net (g tau : float) (cost slip : Q) : float :=
  fsub (fsub g (fmul tau (Fin cost))) (fmul tau (Fin slip)).

(** ** Sample inputs *)

Definition frame (cols : nat) (cells : list (list Q)) : DataFrame :=
  mkDF cols (combine (seq 0 (length cells)) (map (map Fin) cells)).

Definition always_one : Strategy := mkStrategy (fun _ _ => Scalar fone).

(** Two assets over four dates, every date a rebalancing date. *)
Definition sample_prices : DataFrame :=
  frame 2 [[100; 50]; [90; 45]; [95; 40]; [120; 60]]%Q.

Definition sample_composition : DataFrame :=
  frame 2 [[1; 0]; [1; -1]; [0; -1]; [1; 1]]%Q.

Definition sample_backtester (start : nat) (cost : Q) : Backtester :=
  mkBacktester sample_prices false start cost 0 (fun _ => true).

(** What [calculate_returns] gives on them. *)
Definition sample_returns : Returns :=
  let bt := sample_backtester 1 0 in
  mkReturns (trim_df bt (asset_contributions NoFill bt sample_composition))
            (trim_s bt (portfolio_returns NoFill bt sample_composition))
            (trim_df bt (cumulative_asset_returns NoFill bt sample_composition))
            (trim_s bt (cumulative_returns NoFill bt sample_composition))
            (5%nat, 2%nat).

(** Both assets start from no position; the first is entered once. *)
Definition entry_composition : DataFrame :=
  frame 2 [[0; 0]; [1; 0]; [1; 0]; [1; 1]]%Q.

(** Two dates, and a start index beyond them. *)
Definition short_prices : DataFrame := frame 1 [[100]; [110]]%Q.

Definition late_start : Backtester :=
  mkBacktester short_prices false 3 0 0 (fun _ => true).

(** The same two dates in a table without asset columns. *)
Definition no_asset_prices : DataFrame := mkDF 0 [(0%nat, []); (1%nat, [])].

Definition late_start_no_asset : Backtester :=
  mkBacktester no_asset_prices false 3 0 0 (fun _ => true).

(** Scenario 1 of the specification: one asset, five dates, date 0 the only
    rebalancing date, no costs. *)
Definition scenario_prices : DataFrame :=
  frame 1 [[100]; [110]; [99]; [99]; [120]]%Q.

Definition scenario (start : nat) : Backtester :=
  mkBacktester scenario_prices false start 0 0 (fun d => d =? 0)%nat.

(** The same table with the default start and date 1 as the rebalancing
    date. *)
Definition scenario_rebalanced_at_1 : Backtester :=
  mkBacktester scenario_prices false 1 0 0 (fun d => d =? 1)%nat.

(** A price of zero followed by a positive price. *)
Definition zero_price : DataFrame := frame 1 [[0]; [1]; [1]]%Q.

Definition zero_price_backtester (cost : Q) : Backtester :=
  mkBacktester zero_price false 0 cost 0 (fun _ => true).

Definition held_position : DataFrame := frame 1 [[1]; [1]; [1]]%Q.

Definition no_position : DataFrame := frame 1 [[0]; [0]; [0]]%Q.

(** ** Closed forms of the composition matrix *)

(** The cells written by [df.loc[date] = position] and the positions it
    accepts. *)
Definition expand (cols : nat) (p : position) : list float :=
  match p with
  | Scalar x => repeat x cols
  | Vector xs => xs
  end.

Definition valid_row (cols : nat) (p : position) : bool :=
  match p with
  | Scalar _ => true
  | Vector xs => length xs =? cols
  end.

(** The value written by [df.at[date, asset] = position] and the positions
    it accepts. *)
Definition scalar_of (p : position) : float :=
  match p with
  | Scalar x => x
  | Vector _ => NaN
  end.

Definition valid_cell (p : position) : bool :=
  match p with
  | Scalar _ => true
  | Vector _ => false
  end.

(** What the strategy is shown at a date: the rows of the table up to and
    including that date, or the prices of one asset over these rows. *)
Definition table_history (bt : Backtester) (date_index : nat) : history :=
  TableHistory (firstn (S date_index) (rows (data bt))).

Definition asset_history (bt : Backtester) (asset date_index : nat) : history :=
  AssetHistory (column (mkDF (columns (data bt))
                             (firstn (S date_index) (rows (data bt)))) asset).

(** The running position after the first [j] dates of the range, in the
    aggregate mode and, for one asset, in the per-asset mode. *)
Fixpoint multi_position (bt : Backtester) (strategy : Strategy) (j : nat)
  : position :=
  match j with
  | O => Scalar fzero
  | S j' =>
      let cur := multi_position bt strategy j' in
      let date_index := (special_start bt + j')%nat in
      if rebalancing_dates bt (trading_date bt date_index)
      then get_position strategy (table_history bt date_index) cur
      else cur
  end.

Fixpoint asset_position (bt : Backtester) (strategy : Strategy) (asset j : nat)
  : position :=
  match j with
  | O => Scalar fzero
  | S j' =>
      let cur := asset_position bt strategy asset j' in
      let date_index := (special_start bt + j')%nat in
      if rebalancing_dates bt (trading_date bt date_index)
      then get_position strategy (asset_history bt asset date_index) cur
      else cur
  end.

(** The number of dates of the range. *)
Definition range_length (bt : Backtester) : nat :=
  (length (rows (data bt)) - special_start bt)%nat.

(** The aggregate matrix once [j] dates are written. *)
Definition multi_rows (bt : Backtester) (strategy : Strategy) (j : nat)
  : list Row :=
  map (fun i =>
         (i, if (special_start bt <=? i)%nat && (i <? special_start bt + j)%nat
             then expand (columns (data bt))
                         (multi_position bt strategy (S (i - special_start bt)))
             else repeat NaN (columns (data bt))))
      (seq 0 (length (rows (data bt)))).

(** The per-asset matrix once the assets before [asset] are written over the
    whole range and [asset] over its first [j] dates. *)
Definition asset_rows (bt : Backtester) (strategy : Strategy) (asset j : nat)
  : list Row :=
  map (fun i =>
         (i, map (fun a =>
                    if (special_start bt <=? i)%nat
                       && ((a <? asset)%nat
                           || ((a =? asset)%nat && (i <? special_start bt + j)%nat))
                    then scalar_of (asset_position bt strategy a
                                                   (S (i - special_start bt)))
                    else NaN)
                 (seq 0 (columns (data bt)))))
      (seq 0 (length (rows (data bt)))).

(** Every position met is one that can be written. *)
Definition multi_valid (bt : Backtester) (strategy : Strategy) : bool :=
  forallb (fun j => valid_row (columns (data bt))
                              (multi_position bt strategy (S j)))
          (seq 0 (range_length bt)).

Definition asset_valid (bt : Backtester) (strategy : Strategy) (asset : nat)
  : bool :=
  forallb (fun j => valid_cell (asset_position bt strategy asset (S j)))
          (seq 0 (range_length bt)).

Definition assets_valid (bt : Backtester) (strategy : Strategy) : bool :=
  forallb (asset_valid bt strategy) (seq 0 (columns (data bt))).

(** The composition matrix in closed form. *)
Definition composition_closed (bt : Backtester) (strategy : Strategy)
  : result DataFrame :=
  if multi_assets bt then
    if multi_valid bt strategy
    then Ok (mkDF (columns (data bt)) (multi_rows bt strategy (range_length bt)))
    else Raise ValueError
  else
    if assets_valid bt strategy
    then Ok (mkDF (columns (data bt))
                  (asset_rows bt strategy (columns (data bt)) 0))
    else Raise ValueError.

(** The index labels are the positions of the rows. *)
Definition labelled (df : DataFrame) : Prop :=
  index df = seq 0 (length (rows df)).

(** The rows of the finished matrix: missing before [special_start], then the
    running position of each date. *)
Definition composition_row (bt : Backtester) (strategy : Strategy) (i : nat)
  : list float :=
  if (special_start bt <=? i)%nat then
    if multi_assets bt
    then expand (columns (data bt))
                (multi_position bt strategy (S (i - special_start bt)))
    else map (fun a => scalar_of (asset_position bt strategy a
                                                 (S (i - special_start bt))))
             (seq 0 (columns (data bt)))
  else repeat NaN (columns (data bt)).

Definition composition_rows (bt : Backtester) (strategy : Strategy) : list Row :=
  map (fun i => (i, composition_row bt strategy i))
      (seq 0 (length (rows (data bt)))).

Definition composition_valid (bt : Backtester) (strategy : Strategy) : bool :=
  if multi_assets bt then multi_valid bt strategy else assets_valid bt strategy.

(** The same backtester on another price table. *)
Definition with_data (bt : Backtester) (prices : DataFrame) : Backtester :=
  mkBacktester prices (multi_assets bt) (special_start bt) (transaction_cost bt)
               (slippage bt) (rebalancing_dates bt).

(** A strategy that looks at the last price it is shown: it goes long above
    97 and flat otherwise. *)
Definition last_price (h : history) : float :=
  match h with
  | AssetHistory prices => last prices NaN
  | TableHistory rs => hd NaN (snd (last rs (0%nat, [])))
  end.

Definition above_97 : Strategy :=
  mkStrategy (fun h _ => if fltb (Fin 97) (last_price h)
                         then Scalar fone else Scalar fzero).

(** A calendar that rebalances on even dates only. *)
Definition even_dates (d : nat) : bool := Nat.even d.

Definition sample_even (multi : bool) (start : nat) : Backtester :=
  mkBacktester sample_prices multi start 0 0 even_dates.

(** The sample prices with other prices on the last two dates. *)
Definition sample_prices_later : DataFrame :=
  frame 2 [[100; 50]; [90; 45]; [130; 10]; [70; 20]]%Q.

(** No cell of the table is missing. *)
Definition no_missing (df : DataFrame) : Prop :=
  all_cells (fun x => is_nan x = false) df.

(** One cell of [pct_change().fillna(0)] from a price and the price of the
    date before. *)
Definition pct_cell (x p : float) : float := fillna0 (fsub (fdiv x p) fone).

(** [df.head(k)]: the first [k] rows. *)
Definition df_head (k : nat) (df : DataFrame) : DataFrame :=
  mkDF (columns df) (firstn k (rows df)).

(** A cell that is missing or a zero. *)
Definition zeroish (x : float) : Prop :=
  x = NaN \/ exists a : Q, x = Fin a /\ (a == 0)%Q.

(** A cell that is a zero. *)
Definition zero_value (x : float) : Prop :=
  exists a : Q, x = Fin a /\ (a == 0)%Q.

(** The composition matrices that [above_97] builds on the sample prices with
    rebalancing on even dates, from date 0 and from date 1, and the one it
    builds from date 0 on the later prices. *)
Definition even_composition : DataFrame :=
  frame 2 [[1; 0]; [1; 0]; [0; 0]; [0; 0]]%Q.

Definition even_composition_from_1 : DataFrame :=
  mkDF 2 [(0, [NaN; NaN]); (1, [fzero; fzero]); (2, [fzero; fzero]);
          (3, [fzero; fzero])]%nat.

Definition even_composition_later : DataFrame :=
  frame 2 [[1; 0]; [1; 0]; [1; 0]; [1; 0]]%Q.

(** The results of the two runs from date 0. *)
Definition even_result : Result :=
  let bt := sample_even false 0 in
  mkResult (trim_s bt (portfolio_returns NoFill bt even_composition))
           (trim_s bt (cumulative_returns NoFill bt even_composition))
           0 (1%nat, 1%nat).

Definition even_result_later : Result :=
  let bt := with_data (sample_even false 0) sample_prices_later in
  mkResult (trim_s bt (portfolio_returns NoFill bt even_composition_later))
           (trim_s bt (cumulative_returns NoFill bt even_composition_later))
           0 (0%nat, 0%nat).

(** ** Binary64 *)

(** Single lines of [calculate_returns] on IEEE binary64 numbers, with the
    rounding and the overflow that the pandas cells have. *)

(** [fillna(0)] on one cell. *)
Definition b64_fillna0 (x : PrimFloat.float) : PrimFloat.float :=
  if PrimFloat.is_nan x then 0%float else x.

(** [sum(axis=1)] on one row: the cells are added from left to right, [NaN]
    cells skipped. *)
Definition b64_nansum (cells : list PrimFloat.float) : PrimFloat.float :=
  fold_left (fun acc x => if PrimFloat.is_nan x then acc else PrimFloat.add acc x)
            cells 0%float.

Definition b64_abs_sum (cells : list PrimFloat.float) : PrimFloat.float :=
  b64_nansum (map PrimFloat.abs cells).

(** Line 161 on one row. *)
Definition b64_normalize_row (cells : list PrimFloat.float)
  : list PrimFloat.float :=
  map (fun x => b64_fillna0 (PrimFloat.div x (b64_abs_sum cells))) cells.

(** Line 155 on one cell: the price of the date and the price before it. *)
Definition b64_pct_cell (x p : PrimFloat.float) : PrimFloat.float :=
  b64_fillna0 (PrimFloat.sub (PrimFloat.div x p) 1%float).

(** Line 168 on one cell. *)
Definition b64_contribution (weight ret : PrimFloat.float) : PrimFloat.float :=
  PrimFloat.mul weight ret.

(** Lines 109 and 118 on one date: the turnover between two rows of
    normalised positions. *)
Definition b64_turnover (cur prev : list PrimFloat.float) : PrimFloat.float :=
  b64_abs_sum (map2 PrimFloat.sub cur prev).

(** Line 171 on one date: the gross return less the two costs. *)
Definition b64_net (g tau cost slip : PrimFloat.float) : PrimFloat.float :=
  PrimFloat.sub (PrimFloat.sub g (PrimFloat.mul tau cost))
                (PrimFloat.mul tau slip).

(** Six assets held with equal weights. *)
Definition b64_equal_weights : list PrimFloat.float :=
  [1; 1; 1; 1; 1; 1]%float.

(** Two weights whose sum overflows. *)
Definition b64_large_weights : list PrimFloat.float :=
  [0x1p1023; 0x1p1023]%float.

(** One asset entered at a price of 12 that goes to 13: the position goes
    from 0 to 1, and the gross return of the date is the asset's return. *)
Definition b64_entry_return : PrimFloat.float :=
  b64_nansum [b64_contribution 1%float (b64_pct_cell 13%float 12%float)].

Definition b64_entry_turnover : PrimFloat.float :=
  b64_turnover [1%float] [0%float].

(** A cost rate of 10^-20. *)
Definition b64_small_rate : PrimFloat.float :=
  PrimFloat.div 1%float 1e20%float.

(** A price that goes from 2^-600 to 2^600. *)
Definition b64_steep_return : PrimFloat.float :=
  b64_pct_cell 0x1p600%float 0x1p-600%float.

(** A composition matrix with an infinite weight at date 0. *)
Definition infinite_weight : DataFrame :=
  mkDF 2 [(0%nat, [PInf; Fin 1]); (1%nat, [Fin 1; Fin 1])].

(** Two assets whose prices go from 0 to 1, one held long and one short. *)
Definition zero_price_pair : DataFrame := frame 2 [[0; 0]; [1; 1]; [1; 1]]%Q.

Definition zero_price_pair_backtester : Backtester :=
  mkBacktester zero_price_pair true 0 0 0 (fun _ => true).

Definition long_short : DataFrame := frame 2 [[1; -1]; [1; -1]; [1; -1]]%Q.

(** * Properties *)

Local Open Scope nat_scope.

(** ** Lists and tables *)

Lemma map2_length {A B C : Type} (f : A -> B -> C) (l : list A) (m : list B) :
  length (map2 f l m) = Nat.min (length l) (length m).
Proof.
  revert m; induction l as [|a l IH]; intros [|b m]; simpl; auto.
Qed.

Lemma map2_Forall {A B C : Type} (f : A -> B -> C) (P : A -> Prop)
    (Q : B -> Prop) (R : C -> Prop) :
  (forall a b, P a -> Q b -> R (f a b)) ->
  forall l m, Forall P l -> Forall Q m -> Forall R (map2 f l m).
Proof.
  intros H l; induction l as [|a l IH]; intros [|b m] Hl Hm; simpl;
    try constructor.
  - inversion Hl; inversion Hm; subst; auto.
  - inversion Hl; inversion Hm; subst; auto.
Qed.

Lemma shift_from_index (rs : list Row) :
  forall prev, map fst (shift_from prev rs) = map fst rs.
Proof.
  induction rs as [|[d c] rs IH]; intros prev; simpl; [reflexivity|].
  now rewrite IH.
Qed.

Lemma shift_from_length (rs : list Row) :
  forall prev, length (shift_from prev rs) = length rs.
Proof.
  induction rs as [|[d c] rs IH]; intros prev; simpl; auto.
Qed.

Lemma shift_from_nth (rs : list Row) :
  forall prev t, t < length rs ->
    nth t (map snd (shift_from prev rs)) [] =
    match t with
    | O => prev
    | S t' => nth t' (map snd rs) []
    end.
Proof.
  induction rs as [|[d c] rs IH]; intros prev t Ht; simpl in *; [lia|].
  destruct t as [|t]; [reflexivity|].
  rewrite IH by lia. destruct t; reflexivity.
Qed.

Lemma map_cells_values (f : float -> float) (df : DataFrame) :
  values (map_cells f df) = map (map f) (values df).
Proof.
  unfold values, map_cells; simpl. rewrite !map_map. reflexivity.
Qed.

Lemma map_cells_index (f : float -> float) (df : DataFrame) :
  index (map_cells f df) = index df.
Proof.
  unfold index, map_cells; simpl. rewrite map_map. reflexivity.
Qed.

Lemma map_cells_length (f : float -> float) (df : DataFrame) :
  length (rows (map_cells f df)) = length (rows df).
Proof. unfold map_cells; simpl. apply length_map. Qed.

Lemma nth_map_rows (f : list float -> list float) (l : list (list float)) t :
  t < length l -> nth t (map f l) [] = f (nth t l []).
Proof.
  intros Ht. rewrite (nth_indep _ [] (f [])) by (rewrite length_map; exact Ht).
  apply map_nth.
Qed.

Lemma nth_firstn_succ (t : nat) :
  forall l : list (list float), nth t l [] = nth t (firstn (S t) l) [].
Proof.
  induction t as [|k IH]; intros [|x l]; simpl; auto.
Qed.

Lemma fillna0_repeat_nan n : map fillna0 (repeat NaN n) = repeat fzero n.
Proof. induction n; simpl; congruence. Qed.

Lemma lagged_index (comp : DataFrame) :
  index (lagged_positions comp) = index comp.
Proof.
  unfold lagged_positions, df_fillna0. rewrite map_cells_index.
  unfold index, df_shift1; simpl. apply shift_from_index.
Qed.

Lemma lagged_length (comp : DataFrame) :
  length (rows (lagged_positions comp)) = length (rows comp).
Proof.
  unfold lagged_positions, df_fillna0. rewrite map_cells_length.
  unfold df_shift1; simpl. apply shift_from_length.
Qed.

Lemma lagged_nth (comp : DataFrame) t :
  t < length (rows comp) ->
  nth t (values (lagged_positions comp)) [] =
  match t with
  | O => repeat fzero (columns comp)
  | S t' => map fillna0 (nth t' (values comp) [])
  end.
Proof.
  intros Ht. unfold lagged_positions, df_fillna0.
  rewrite map_cells_values.
  rewrite nth_map_rows
    by (unfold values, df_shift1; simpl;
        rewrite length_map, shift_from_length; exact Ht).
  unfold values at 1, df_shift1; simpl.
  rewrite shift_from_nth by exact Ht.
  destruct t; [apply fillna0_repeat_nan | reflexivity].
Qed.

(** [normalize] works row by row. *)
Lemma div_rows_values (rs : list Row) :
  map snd
    (map2 (fun (r : Row) (c : nat * float) =>
             (fst r, map (fun x => fdiv x (snd c)) (snd r)))
          rs
          (map (fun r : Row => (fst r, nansum (snd r)))
               (map (fun r : Row => (fst r, map fabs (snd r))) rs)))
  = map (fun cells => map (fun x => fdiv x (abs_sum cells)) cells) (map snd rs).
Proof.
  induction rs as [|[d c] rs IH]; simpl; [reflexivity|].
  now rewrite IH.
Qed.

Lemma div_rows_index (rs : list Row) :
  map fst
    (map2 (fun (r : Row) (c : nat * float) =>
             (fst r, map (fun x => fdiv x (snd c)) (snd r)))
          rs
          (map (fun r : Row => (fst r, nansum (snd r)))
               (map (fun r : Row => (fst r, map fabs (snd r))) rs)))
  = map fst rs.
Proof.
  induction rs as [|[d c] rs IH]; simpl; [reflexivity|].
  now rewrite IH.
Qed.

Lemma normalize_values (df : DataFrame) :
  values (normalize df) = map normalize_row (values df).
Proof.
  unfold normalize, df_fillna0. rewrite map_cells_values.
  unfold values at 1, df_div_rows, df_sum_rows, df_abs, map_cells; simpl.
  rewrite div_rows_values. unfold values. rewrite !map_map.
  apply map_ext. intros r. unfold normalize_row. now rewrite map_map.
Qed.

Lemma normalize_index (df : DataFrame) : index (normalize df) = index df.
Proof.
  unfold normalize, df_fillna0. rewrite map_cells_index.
  unfold index, df_div_rows, df_sum_rows, df_abs, map_cells; simpl.
  apply div_rows_index.
Qed.

Lemma normalize_length (df : DataFrame) :
  length (rows (normalize df)) = length (rows df).
Proof.
  generalize (f_equal (@length _) (normalize_index df)).
  unfold index. now rewrite !length_map.
Qed.

Lemma normalize_columns (df : DataFrame) : columns (normalize df) = columns df.
Proof. reflexivity. Qed.

Lemma shifted_index (comp : DataFrame) :
  index (shifted_positions comp) = index comp.
Proof.
  unfold shifted_positions. now rewrite normalize_index, lagged_index.
Qed.

Lemma shifted_length (comp : DataFrame) :
  length (rows (shifted_positions comp)) = length (rows comp).
Proof.
  unfold shifted_positions. now rewrite normalize_length, lagged_length.
Qed.

Lemma shifted_nth (comp : DataFrame) t :
  t < length (rows comp) ->
  nth t (values (shifted_positions comp)) [] =
  normalize_row (nth t (values (lagged_positions comp)) []).
Proof.
  intros Ht. unfold shifted_positions. rewrite normalize_values.
  apply nth_map_rows. unfold values. rewrite length_map, lagged_length.
  exact Ht.
Qed.

(** C1.  The lag of [calculate_returns] (line 158): the index is kept, the
    first row of the lagged matrix is zero for every asset, and row [t > 0]
    holds the cells of row [t - 1] of the composition matrix, a missing cell
    becoming 0.  The matrix that enters the return computation is the row-wise
    normalisation of this one, so its row [t] is decided by row [t - 1] of the
    composition matrix alone: two composition matrices that agree before [t]
    give the same row [t]. *)
Theorem C1_positions_are_lagged :
  forall (comp : DataFrame) (t : nat),
    t < length (rows comp) ->
    index (lagged_positions comp) = index comp /\
    nth t (values (lagged_positions comp)) [] =
      match t with
      | O => repeat fzero (columns comp)
      | S t' => map fillna0 (nth t' (values comp) [])
      end /\
    nth t (values (shifted_positions comp)) [] =
      normalize_row (nth t (values (lagged_positions comp)) []) /\
    (forall comp' : DataFrame,
        t < length (rows comp') ->
        columns comp' = columns comp ->
        firstn t (values comp') = firstn t (values comp) ->
        nth t (values (lagged_positions comp')) [] =
          nth t (values (lagged_positions comp)) [] /\
        nth t (values (shifted_positions comp')) [] =
          nth t (values (shifted_positions comp)) []).
Proof.
  intros comp t Ht.
  split; [apply lagged_index|].
  split; [apply lagged_nth; exact Ht|].
  split; [apply shifted_nth; exact Ht|].
  intros comp' Ht' Hc Hpre.
  assert (E : nth t (values (lagged_positions comp')) [] =
              nth t (values (lagged_positions comp)) []).
  { rewrite !lagged_nth by assumption. rewrite Hc.
    destruct t as [|t']; [reflexivity|].
    f_equal.
    rewrite (nth_firstn_succ t' (values comp')),
            (nth_firstn_succ t' (values comp)).
    now rewrite Hpre. }
  split; [exact E|].
  rewrite !shifted_nth by assumption. now rewrite E.
Qed.

(** ** Sums of absolute values *)

Lemma nansum_fin (qs : list Q) :
  forall acc : Q,
    fold_left nan_step (map Fin qs) (Fin acc) = Fin (fold_left Qplus qs acc).
Proof.
  induction qs as [|a qs IH]; intros acc; simpl; [reflexivity|].
  apply IH.
Qed.

Lemma fold_left_qsum (l : list Q) :
  forall acc : Q, (fold_left Qplus l acc == acc + qsum l)%Q.
Proof.
  induction l as [|a l IH]; intros acc; simpl.
  - ring.
  - rewrite IH. ring.
Qed.

Lemma abs_sum_fin (qs : list Q) :
  exists s : Q, abs_sum (map Fin qs) = Fin s /\ (s == qsum (map Qabs qs))%Q.
Proof.
  exists (fold_left Qplus (map Qabs qs) 0%Q). split.
  - unfold abs_sum, nansum. rewrite map_map.
    change (fun x => fabs (Fin x)) with (fun x => Fin (Qabs x)).
    rewrite <- (map_map Qabs Fin). apply (nansum_fin (map Qabs qs) 0%Q).
  - rewrite fold_left_qsum. ring.
Qed.

Lemma qsum_abs_nonneg (qs : list Q) : (0 <= qsum (map Qabs qs))%Q.
Proof.
  induction qs as [|a qs IH]; simpl; [lra|].
  pose proof (Qabs_nonneg a). lra.
Qed.

Lemma Qabs_zero (a : Q) : (Qabs a == 0)%Q -> (a == 0)%Q.
Proof.
  apply (Qabs_case a (fun x => x == 0 -> a == 0)%Q); intros; lra.
Qed.

Lemma qsum_abs_zero (qs : list Q) :
  (qsum (map Qabs qs) == 0)%Q -> Forall (fun a => a == 0)%Q qs.
Proof.
  induction qs as [|a qs IH]; simpl; intros H; constructor.
  - pose proof (Qabs_nonneg a). pose proof (qsum_abs_nonneg qs).
    apply Qabs_zero. lra.
  - apply IH. pose proof (Qabs_nonneg a). pose proof (qsum_abs_nonneg qs). lra.
Qed.

Lemma qsum_zero (qs : list Q) :
  Forall (fun a => a == 0)%Q qs -> (qsum (map Qabs qs) == 0)%Q.
Proof.
  induction 1 as [|a qs Ha _ IH]; simpl; [reflexivity|].
  rewrite IH, Ha. reflexivity.
Qed.

Lemma qsum_abs_scaled (s : Q) (qs : list Q) :
  (0 < s)%Q ->
  (qsum (map Qabs (map (fun a => a / s) qs)) == qsum (map Qabs qs) / s)%Q.
Proof.
  intros Hs. induction qs as [|a qs IH]; cbn [map qsum fold_right].
  - field. lra.
  - assert (E : (Qabs (a / s) == Qabs a / s)%Q).
    { unfold Qdiv. rewrite Qabs_Qmult.
      assert (Hi : (0 <= / s)%Q) by (apply Qinv_le_0_compat; lra).
      now rewrite (Qabs_pos (/ s)) by exact Hi. }
    fold (qsum (map Qabs (map (fun a => a / s)%Q qs))).
    fold (qsum (map Qabs qs)).
    rewrite IH, E. field. lra.
Qed.

Lemma finite_cells (l : list float) :
  Forall (fun x => is_finite x = true) l -> exists qs, l = map Fin qs.
Proof.
  induction 1 as [|x l Hx _ [qs IH]].
  - now exists [].
  - destruct x as [q| | |]; try discriminate. exists (q :: qs).
    simpl. now rewrite IH.
Qed.

(** A finite row whose absolute sum is zero is normalised to zeros. *)
Lemma normalize_row_zero (qs : list Q) (s : Q) :
  abs_sum (map Fin qs) = Fin s -> (s == 0)%Q ->
  normalize_row (map Fin qs) = map (fun _ => fzero) qs.
Proof.
  intros Hs H0. unfold normalize_row. rewrite Hs, map_map.
  destruct (abs_sum_fin qs) as [s' [Hs' Hq]].
  rewrite Hs in Hs'. injection Hs' as <-.
  assert (Hz : Forall (fun a => a == 0)%Q qs)
    by (apply qsum_abs_zero; rewrite <- Hq; exact H0).
  apply map_ext_in. intros a Ha.
  rewrite Forall_forall in Hz. specialize (Hz a Ha).
  simpl. apply Qeq_bool_iff in H0. rewrite H0.
  apply Qeq_alt in Hz. rewrite Hz. reflexivity.
Qed.

(** A finite row whose absolute sum is not zero is divided by it. *)
Lemma normalize_row_pos (qs : list Q) (s : Q) :
  abs_sum (map Fin qs) = Fin s -> ~ (s == 0)%Q ->
  normalize_row (map Fin qs) = map Fin (map (fun a => a / s)%Q qs).
Proof.
  intros Hs H0. unfold normalize_row. rewrite Hs, !map_map.
  apply map_ext. intros a. simpl.
  destruct (Qeq_bool s 0) eqn:E.
  - apply Qeq_bool_iff in E. contradiction.
  - reflexivity.
Qed.

Lemma all_zero_cells (qs : list Q) :
  Forall (fun x => is_zero x = true) (map Fin qs) <->
  Forall (fun a => a == 0)%Q qs.
Proof.
  rewrite Forall_map. rewrite !Forall_forall.
  split; intros H a Ha; specialize (H a Ha); unfold is_zero in *; simpl in *;
    now apply Qeq_bool_iff.
Qed.

Lemma abs_sum_zeros {A : Type} (l : list A) :
  abs_sum (map (fun _ => fzero) l) = Fin (fold_left Qplus (map (fun _ => 0%Q) l) 0%Q)
  /\ (fold_left Qplus (map (fun _ => 0%Q) l) 0 == 0)%Q.
Proof.
  split.
  - unfold abs_sum, nansum. rewrite map_map.
    change (fun _ : A => fabs fzero) with (fun _ : A => Fin (Qabs 0)).
    rewrite <- (map_map (fun _ => Qabs 0) Fin).
    change (Qabs 0) with 0%Q. apply (nansum_fin _ 0%Q).
  - rewrite fold_left_qsum. induction l; simpl; [ring|]. rewrite Qplus_0_l in IHl |- *.
    rewrite Qplus_0_l. exact IHl.
Qed.


(** ** Look-ups *)

Lemma loc_in (df : DataFrame) (r : Row) :
  NoDup (index df) -> In r (rows df) -> loc df (fst r) = Ok r.
Proof.
  unfold loc, index. induction (rows df) as [|r' rs IH]; simpl; intros Hnd Hin;
    [contradiction|].
  inversion Hnd as [|? ? Hnotin Hnd']; subst.
  destruct Hin as [->|Hin].
  - now rewrite Nat.eqb_refl.
  - destruct (fst r' =? fst r) eqn:E.
    + apply Nat.eqb_eq in E. exfalso. apply Hnotin. rewrite E.
      now apply in_map.
    + now apply IH.
Qed.

Lemma cell_nth (r : Row) (a : nat) :
  a < length (snd r) -> cell r a = Ok (nth a (snd r) NaN).
Proof.
  intros Ha. unfold cell.
  now rewrite (nth_error_nth' (snd r) NaN Ha).
Qed.

Lemma at_row (df : DataFrame) (r : Row) (a : nat) :
  NoDup (index df) -> In r (rows df) -> a < length (snd r) ->
  at_ df (fst r) a = Ok (nth a (snd r) NaN).
Proof.
  intros Hnd Hin Ha. unfold at_. rewrite (loc_in df r Hnd Hin). simpl.
  now apply cell_nth.
Qed.

Lemma wf_data_label (df : DataFrame) (d : nat) :
  wf_data df -> d < length (rows df) -> fst (nth d (rows df) (0, [])) = d.
Proof.
  intros [Hidx _] Hd.
  change (fst (nth d (rows df) (0, []))) with (fst (nth d (rows df) (0, @nil float))).
  rewrite <- (map_nth fst). fold (index df). rewrite Hidx.
  now rewrite seq_nth.
Qed.

Lemma at_data (bt : Backtester) (d a : nat) :
  wf_data (data bt) -> d < length (rows (data bt)) -> a < columns (data bt) ->
  at_ (data bt) d a = Ok (price_at bt d a).
Proof.
  intros Hwf Hd Ha. unfold price_at.
  pose proof (wf_data_label _ _ Hwf Hd) as Hl.
  set (r := nth d (rows (data bt)) (0, [])) in *.
  assert (Hin : In r (rows (data bt))) by (apply nth_In; exact Hd).
  destruct Hwf as [Hidx Hw].
  rewrite <- Hl at 1. apply at_row.
  - rewrite Hidx. apply seq_NoDup.
  - exact Hin.
  - rewrite Forall_forall in Hw. rewrite (Hw r Hin). exact Ha.
Qed.

Lemma iloc0_hd (df : DataFrame) :
  rows df <> [] -> iloc0 df = Ok (hd (0, []) (rows df)).
Proof.
  unfold iloc0. destruct (rows df); [contradiction | reflexivity].
Qed.

Lemma hd_nth_0 (l : list (nat * list float)) :
  nth 0 l (0, []) = hd (0, []) l.
Proof. destruct l; reflexivity. Qed.

(** ** The scan of one asset *)

Lemma trade_step_pure (bt : Backtester) (sp : DataFrame) (a : nat)
    (st : trade_state) (r : Row) :
  scan_ready bt sp a -> In r (rows sp) ->
  trade_step bt sp a st (fst r) =
  Ok (pure_step st (nth a (snd r) NaN, price_at bt (fst r) a)).
Proof.
  intros (Hwf & Ha & Hnd & Hrows) Hin.
  rewrite Forall_forall in Hrows. destruct (Hrows r Hin) as [Hd Hc].
  unfold trade_step, pure_step. rewrite (at_row sp r a Hnd Hin Hc). simpl.
  destruct (fneb (last_position st) (nth a (snd r) NaN)); [|reflexivity].
  now rewrite (at_data bt _ _ Hwf Hd Ha).
Qed.

Lemma trade_loop_pure (bt : Backtester) (sp : DataFrame) (a : nat) :
  scan_ready bt sp a ->
  forall (rs : list Row) (st : trade_state),
    incl rs (rows sp) ->
    foldM (trade_step bt sp a) (map fst rs) st =
    Ok (fold_left pure_step
          (map (fun r : Row => (nth a (snd r) NaN, price_at bt (fst r) a)) rs) st).
Proof.
  intros Hready rs. induction rs as [|r rs IH]; intros st Hincl; simpl;
    [reflexivity|].
  rewrite (trade_step_pure bt sp a st r Hready (Hincl r (or_introl eq_refl))). simpl.
  apply IH. intros x Hx. apply Hincl. now right.
Qed.

Lemma pure_scan (l : list (float * float)) :
  forall st : trade_state,
    let r := scan (last_position st) (last_trade_value st) l in
    trade_count (fold_left pure_step l st) = trade_count st + fst r /\
    win_trade_count (fold_left pure_step l st) = win_trade_count st + snd r.
Proof.
  induction l as [|[p v] l IH]; intros st; simpl.
  - split; lia.
  - unfold pure_step at 2 4. simpl.
    destruct (fneb (last_position st) p).
    + destruct (IH (mkTS (S (trade_count st))
                         (if is_win (last_position st) v (last_trade_value st)
                          then S (win_trade_count st) else win_trade_count st)
                         p v)) as [H1 H2].
      simpl in *. rewrite H1, H2.
      destruct (is_win (last_position st) v (last_trade_value st)); split; lia.
    + apply IH.
Qed.

(** The scan of one asset, as a function of the values it reads: it starts
    from the position of the first row of the window and from the price of the
    first row of the price table. *)
Lemma trade_asset_scan (bt : Backtester) (sp : DataFrame) (a : nat)
    (counts : nat * nat) :
  scan_ready bt sp a -> rows sp <> [] ->
  trade_asset bt sp counts a =
  let r := scan (nth a (snd (hd (0, []) (rows sp))) NaN) (price_at bt 0 a)
                (trade_pairs bt sp a) in
  Ok (fst counts + fst r, snd counts + snd r).
Proof.
  intros Hready Hne.
  pose proof Hready as (Hwf & Ha & Hnd & Hrows).
  unfold trade_asset.
  rewrite (iloc0_hd sp Hne). cbn [bind].
  assert (Hin0 : In (hd (0, []) (rows sp)) (rows sp))
    by (destruct (rows sp); [contradiction | now left]).
  rewrite Forall_forall in Hrows. destruct (Hrows _ Hin0) as [Hd0 Hc0].
  rewrite (cell_nth _ _ Hc0). cbn [bind].
  assert (Hdne : rows (data bt) <> [])
    by (destruct (rows (data bt)); [simpl in Hd0; lia | discriminate]).
  rewrite (iloc0_hd (data bt) Hdne). cbn [bind].
  assert (Hp0 : cell (hd (0, []) (rows (data bt))) a = Ok (price_at bt 0 a)).
  { unfold price_at. rewrite hd_nth_0. apply cell_nth.
    destruct Hwf as [_ Hw]. rewrite Forall_forall in Hw.
    rewrite (Hw (hd (0, []) (rows (data bt)))); [exact Ha|].
    destruct (rows (data bt)); [contradiction | now left]. }
  rewrite Hp0. cbn [bind].
  unfold index.
  rewrite (trade_loop_pure bt sp a Hready) by apply incl_refl.
  cbn [bind].
  match goal with |- context [fold_left pure_step ?l ?s] =>
    destruct (pure_scan l s) as [H1 H2] end.
  cbn [last_position last_trade_value trade_count win_trade_count] in H1, H2.
  rewrite H1, H2. reflexivity.
Qed.

(** ** Comparisons *)

Lemma feqb_trans (x y z : float) :
  feqb x y = true -> feqb y z = true -> feqb x z = true.
Proof.
  destruct x, y, z; simpl; try discriminate; auto.
  rewrite !Qeq_bool_iff. intros H1 H2. now rewrite H1.
Qed.

Lemma feqb_sym (x y : float) : feqb x y = feqb y x.
Proof.
  destruct x, y; simpl; auto.
  destruct (Qeq_bool q q0) eqn:E, (Qeq_bool q0 q) eqn:E'; auto.
  - apply Qeq_bool_iff in E. apply Qeq_bool_neq in E'. symmetry in E. contradiction.
  - apply Qeq_bool_iff in E'. apply Qeq_bool_neq in E. symmetry in E'. contradiction.
Qed.

Lemma fneb_congr (x y z : float) :
  feqb x y = true -> fneb x z = fneb y z.
Proof.
  intros H. unfold fneb. f_equal.
  destruct (feqb x z) eqn:E1, (feqb y z) eqn:E2; auto.
  - rewrite feqb_sym in H. now rewrite (feqb_trans _ _ _ H E1) in E2.
  - now rewrite (feqb_trans _ _ _ H E2) in E1.
Qed.

Lemma changes_congr (l : list float) (x y : float) :
  feqb x y = true -> changes x l = changes y l.
Proof.
  intros H. destruct l as [|p l]; simpl; [reflexivity|].
  now rewrite (fneb_congr x y p H).
Qed.

(** The trades counted are the rows whose position differs from the row
    before. *)
Lemma scan_changes (l : list (float * float)) :
  forall lastp lastv, fst (scan lastp lastv l) = changes lastp (map fst l).
Proof.
  induction l as [|[p v] l IH]; intros lastp lastv; simpl; [reflexivity|].
  destruct (fneb lastp p) eqn:E; simpl.
  - now rewrite IH.
  - rewrite IH. apply changes_congr.
    unfold fneb in E. now destruct (feqb lastp p).
Qed.

Lemma scan_constant (l : list (float * float)) (c : float) :
  forall lastp lastv,
    feqb lastp c = true ->
    Forall (fun pv => feqb (fst pv) c = true) l ->
    scan lastp lastv l = (0, 0).
Proof.
  induction l as [|[p v] l IH]; intros lastp lastv Hc Hall; simpl;
    [reflexivity|].
  inversion Hall as [|? ? Hp Hl]; subst. simpl in Hp.
  assert (E : fneb lastp p = false).
  { unfold fneb. rewrite feqb_sym in Hp. now rewrite (feqb_trans _ _ _ Hc Hp). }
  rewrite E. now apply IH.
Qed.

Lemma scan_wins_le (l : list (float * float)) :
  forall lastp lastv, snd (scan lastp lastv l) <= fst (scan lastp lastv l).
Proof.
  induction l as [|[p v] l IH]; intros lastp lastv; simpl; [lia|].
  destruct (fneb lastp p); simpl; [|apply IH].
  specialize (IH p v). destruct (is_win lastp v lastv); lia.
Qed.

Lemma column_pairs (bt : Backtester) (sp : DataFrame) (a : nat) :
  map fst (trade_pairs bt sp a) = column sp a.
Proof.
  unfold trade_pairs, column. rewrite map_map. reflexivity.
Qed.

Lemma column_hd (sp : DataFrame) (a : nat) :
  nth a (snd (hd (0, []) (rows sp))) NaN = hd NaN (column sp a).
Proof.
  unfold column. destruct (rows sp) as [|r rs]; simpl; [|reflexivity].
  now destruct a.
Qed.

(** C5.  [evaluate_trade] scans each asset on its own, in date order.  At a
    date where the position read is [cur] and the price is [v]: a trade is
    counted exactly when [cur] differs from the last recorded position; the
    trade is a win exactly when the outgoing position was above zero and [v]
    is above the last trade value, or the outgoing position was below zero and
    [v] is below it; on a counted trade both the last position and the last
    trade value are reset, win or not; otherwise nothing changes.  Over a
    window, the trades counted for an asset are the rows whose position
    differs from the row before, and an asset whose position is the same in
    every row adds no trade and no win. *)
Theorem C5_trade_counting :
  forall (bt : Backtester) (sp : DataFrame) (a : nat) (counts : nat * nat),
    scan_ready bt sp a ->
    rows sp <> [] ->
    (forall (st : trade_state) (d : nat) (cur v : float),
        at_ sp d a = Ok cur ->
        at_ (data bt) d a = Ok v ->
        trade_step bt sp a st d =
        Ok (if fneb (last_position st) cur
            then mkTS (S (trade_count st))
                      (if (fltb fzero (last_position st)
                           && fltb (last_trade_value st) v)
                          || (fltb (last_position st) fzero
                              && fltb v (last_trade_value st))
                       then S (win_trade_count st)
                       else win_trade_count st)
                      cur v
            else st)) /\
    (exists wins : nat,
        wins <= changes (hd NaN (column sp a)) (column sp a) /\
        trade_asset bt sp counts a =
        Ok (fst counts + changes (hd NaN (column sp a)) (column sp a),
            snd counts + wins)) /\
    (forall c : float,
        Forall (fun x => feqb x c = true) (column sp a) ->
        trade_asset bt sp counts a = Ok counts).
Proof.
  intros bt sp a counts Hready Hne. split; [|split].
  - intros st d cur v Hcur Hv. unfold trade_step. rewrite Hcur. cbn [bind].
    destruct (fneb (last_position st) cur); [|reflexivity].
    rewrite Hv. reflexivity.
  - rewrite (trade_asset_scan bt sp a counts Hready Hne). cbv zeta.
    rewrite column_hd.
    set (r := scan _ _ _).
    exists (snd r).
    assert (E : fst r = changes (hd NaN (column sp a)) (column sp a))
      by (subst r; rewrite scan_changes; now rewrite column_pairs).
    rewrite <- E. split; [|reflexivity].
    subst r. apply scan_wins_le.
  - intros c Hc. rewrite (trade_asset_scan bt sp a counts Hready Hne). cbv zeta.
    rewrite column_hd.
    rewrite (scan_constant (trade_pairs bt sp a) c).
    + destruct counts; simpl. now rewrite !Nat.add_0_r.
    + rewrite Forall_forall in Hc. apply Hc.
      destruct (column sp a) eqn:E; [|now left].
      unfold column in E. destruct (rows sp); [contradiction|discriminate].
    + rewrite <- (column_pairs bt) in Hc. now rewrite Forall_map in Hc.
Qed.

(** ** Trades that leave a zero position *)

Lemma zero_never_wins (lastp v lastv : float) :
  is_zero lastp = true -> is_win lastp v lastv = false.
Proof.
  unfold is_zero, is_win, fgtb. destruct lastp as [q| | |]; simpl;
    try discriminate.
  intros H. apply Qeq_bool_iff in H.
  assert (E1 : (0 ?= q)%Q = Eq) by (apply Qeq_alt; now symmetry).
  assert (E2 : (q ?= 0)%Q = Eq) by (now apply Qeq_alt).
  rewrite E1, E2. reflexivity.
Qed.

Lemma scan_constant_from_zero (cs : list (float * float)) (c : float) :
  forall lastp lastv,
    is_zero lastp = true ->
    Forall (fun pv => feqb (fst pv) c = true) cs ->
    snd (scan lastp lastv cs) = 0.
Proof.
  intros lastp lastv Hz Hc. destruct cs as [|[p v] cs]; simpl; [reflexivity|].
  inversion Hc as [|? ? Hp Hcs]; subst. simpl in Hp.
  destruct (fneb lastp p) eqn:E.
  - rewrite (zero_never_wins lastp v lastv Hz).
    rewrite (scan_constant cs c p v Hp Hcs). reflexivity.
  - assert (Hl : feqb lastp c = true).
    { unfold fneb in E. destruct (feqb lastp p) eqn:E'; [|discriminate].
      exact (feqb_trans _ _ _ E' Hp). }
    now rewrite (scan_constant cs c lastp lastv Hl Hcs).
Qed.

Lemma scan_zero_then_constant (zs cs : list (float * float)) (c : float) :
  forall lastp lastv,
    is_zero lastp = true ->
    Forall (fun pv => is_zero (fst pv) = true) zs ->
    Forall (fun pv => feqb (fst pv) c = true) cs ->
    snd (scan lastp lastv (zs ++ cs)) = 0.
Proof.
  induction zs as [|[z v] zs IH]; intros lastp lastv Hz Hzs Hcs; simpl.
  - now apply scan_constant_from_zero with (c := c).
  - inversion Hzs as [|? ? Hz0 Hzs']; subst. simpl in Hz0.
    assert (E : fneb lastp z = false).
    { unfold fneb, is_zero in *. rewrite (feqb_sym z fzero) in Hz0.
      now rewrite (feqb_trans _ _ _ Hz Hz0). }
    rewrite E. now apply IH.
Qed.

(** The loop over the assets, when every asset adds its trades and no win. *)
Lemma assets_loop_no_win (bt : Backtester) (sp : DataFrame) (l : list nat) :
  (forall a counts, In a l ->
     exists t, trade_asset bt sp counts a = Ok (fst counts + t, snd counts)) ->
  forall counts, exists n,
    foldM (trade_asset bt sp) l counts = Ok (n, snd counts).
Proof.
  induction l as [|a l IH]; intros H counts; simpl.
  - exists (fst counts). now destruct counts.
  - destruct (H a counts (or_introl eq_refl)) as [t Ht]. rewrite Ht. simpl.
    destruct (IH (fun a' c' Hin => H a' c' (or_intror Hin))
                 (fst counts + t, snd counts)) as [n Hn].
    exists n. exact Hn.
Qed.

(** C9.  A trade whose outgoing position is zero is never a win: when
    [evaluate_trade] meets a position change and the last position is 0, the
    trade count goes up by one and the win count stays, whatever the prices.
    Hence, when the position of every asset starts from zero and changes at
    most once over the window, the reported win count is 0. *)
Theorem C9_entry_from_zero_is_never_a_win :
  forall (bt : Backtester) (sp : DataFrame),
    (forall a, a < columns sp -> scan_ready bt sp a) ->
    rows sp <> [] ->
    (forall (a : nat) (st : trade_state) (d : nat) (cur v : float),
        at_ sp d a = Ok cur ->
        at_ (data bt) d a = Ok v ->
        is_zero (last_position st) = true ->
        fneb (last_position st) cur = true ->
        trade_step bt sp a st d =
        Ok (mkTS (S (trade_count st)) (win_trade_count st) cur v)) /\
    ((forall a, a < columns sp ->
        exists (zs cs : list float) (c : float),
          column sp a = zs ++ cs /\
          zs <> [] /\
          Forall (fun x => is_zero x = true) zs /\
          Forall (fun x => feqb x c = true) cs) ->
     exists n : nat, evaluate_trade bt sp = Ok (n, 0)).
Proof.
  intros bt sp Hready Hne. split.
  - intros a st d cur v Hcur Hv Hz Hch. unfold trade_step.
    rewrite Hcur. cbn [bind]. rewrite Hch, Hv. cbn [bind].
    now rewrite (zero_never_wins _ v (last_trade_value st) Hz).
  - intros Hshape. unfold evaluate_trade.
    apply (assets_loop_no_win bt sp (seq 0 (columns sp))).
    intros a counts Hin. apply in_seq in Hin.
    assert (Ha : a < columns sp) by lia.
    rewrite (trade_asset_scan bt sp a counts (Hready a Ha) Hne). cbv zeta.
    destruct (Hshape a Ha) as (zs & cs & c & Hcol & Hzne & Hzs & Hcs).
    rewrite <- (column_pairs bt) in Hcol.
    apply map_eq_app in Hcol. destruct Hcol as (pz & pc & Hp & Hpz & Hpc).
    rewrite Hp. subst zs cs.
    rewrite Forall_map in Hzs, Hcs.
    assert (H0 : is_zero (nth a (snd (hd (0, []) (rows sp))) NaN) = true).
    { rewrite column_hd, <- (column_pairs bt), Hp.
      destruct pz as [|pv pz]; [now contradiction Hzne|].
      simpl. now inversion Hzs. }
    rewrite (scan_zero_then_constant pz pc c _ _ H0 Hzs Hcs).
    rewrite Nat.add_0_r. eexists. reflexivity.
Qed.

(** ** The trimmed window *)

Lemma hd_skipn {A : Type} (d : A) (k : nat) :
  forall l : list A, hd d (skipn k l) = nth k l d.
Proof.
  induction k as [|k IH]; intros [|x l]; simpl; auto.
Qed.

Lemma trim_df_rows (bt : Backtester) (df : DataFrame) :
  special_start bt <> 1 ->
  trim_df bt df = df_iloc_from (special_start bt + 1) df.
Proof.
  intros H. unfold trim_df.
  destruct (special_start bt =? 1) eqn:E; [|reflexivity].
  apply Nat.eqb_eq in E. contradiction.
Qed.

Lemma iloc_index (k : nat) (df : DataFrame) :
  index (df_iloc_from k df) = skipn k (index df).
Proof.
  unfold index, df_iloc_from; simpl. symmetry. apply skipn_map.
Qed.

Lemma skipn_seq_lower (k n : nat) :
  Forall (fun d => k <= d) (skipn k (seq 0 n)).
Proof.
  rewrite skipn_seq. apply Forall_forall. intros d Hd.
  apply in_seq in Hd. lia.
Qed.

Lemma scan_first_change (pre rest : list (float * float)) (p v : float) :
  forall lastp lastv,
    Forall (fun pv => feqb (fst pv) lastp = true) pre ->
    fneb lastp p = true ->
    scan lastp lastv (pre ++ (p, v) :: rest) =
    (S (fst (scan p v rest)),
     (if is_win lastp v lastv then 1 else 0) + snd (scan p v rest)).
Proof.
  induction pre as [|[p' v'] pre IH]; intros lastp lastv Hpre Hch; simpl.
  - now rewrite Hch.
  - inversion Hpre as [|? ? Hp Hpre']; subst. simpl in Hp.
    assert (E : fneb lastp p' = false)
      by (unfold fneb; rewrite feqb_sym; now rewrite Hp).
    rewrite E. now apply IH.
Qed.

(** C10.  When the warm-up prefix is trimmed ([special_start] is not 1),
    [evaluate_trade] scans a window whose dates all come after date
    [special_start]; for each asset the last position starts as that asset's
    position in the first row of the window, while the last trade value starts
    as the asset's price in the first row of the whole price table (date 0,
    before the window), and prices are read from the whole table.  So the
    first counted trade of the asset is judged against the price of date 0. *)
Theorem C10_first_trade_value_is_first_table_price :
  forall (bt : Backtester) (comp : DataFrame) (a : nat) (counts : nat * nat),
    special_start bt <> 1 ->
    index comp = index (data bt) ->
    scan_ready bt (trim_df bt (shifted_positions comp)) a ->
    rows (trim_df bt (shifted_positions comp)) <> [] ->
    let w := trim_df bt (shifted_positions comp) in
    let p0 :=
      nth a (nth (special_start bt + 1) (values (shifted_positions comp)) []) NaN in
    let v0 := price_at bt 0 a in
    Forall (fun d => special_start bt < d) (index w) /\
    trade_asset bt w counts a =
      Ok (fst counts + fst (scan p0 v0 (trade_pairs bt w a)),
          snd counts + snd (scan p0 v0 (trade_pairs bt w a))) /\
    (forall (pre rest : list (float * float)) (p v : float),
        trade_pairs bt w a = pre ++ (p, v) :: rest ->
        Forall (fun pv => feqb (fst pv) p0 = true) pre ->
        fneb p0 p = true ->
        scan p0 v0 (trade_pairs bt w a) =
        (S (fst (scan p v rest)),
         (if is_win p0 v v0 then 1 else 0) + snd (scan p v rest))).
Proof.
  intros bt comp a counts Hs Hidx Hready Hne w p0 v0.
  assert (Hw : w = df_iloc_from (special_start bt + 1) (shifted_positions comp))
    by (apply trim_df_rows; exact Hs).
  split; [|split].
  - rewrite Hw, iloc_index, shifted_index, Hidx.
    destruct Hready as ([Hseq _] & _). rewrite Hseq.
    eapply Forall_impl; [|apply skipn_seq_lower].
    intros d Hd. simpl in Hd. lia.
  - rewrite (trade_asset_scan bt w a counts Hready Hne). cbv zeta.
    assert (E : nth a (snd (hd (0, []) (rows w))) NaN = p0).
    { subst p0. rewrite Hw. unfold df_iloc_from; simpl.
      rewrite hd_skipn. unfold values.
      change (@nil float) with (snd (0, @nil float)) at 2.
      now rewrite map_nth. }
    rewrite E. reflexivity.
  - intros pre rest p v Hsplit Hpre Hch. rewrite Hsplit.
    now apply scan_first_change.
Qed.

(** ** Lengths of the series *)

Lemma s_cumprod_from_length (s : list (nat * float)) :
  forall acc, length (s_cumprod_from acc s) = length s.
Proof.
  induction s as [|[d x] s IH]; intros acc; simpl; auto.
Qed.

Lemma portfolio_returns_length (fm : fill_method) (bt : Backtester)
    (comp : DataFrame) :
  length (portfolio_returns fm bt comp) <= length (rows comp).
Proof.
  unfold portfolio_returns, s_sub. rewrite !map2_length.
  unfold df_sum_rows. rewrite length_map.
  unfold asset_contributions, df_multiply; cbn [rows]. rewrite map2_length.
  rewrite shifted_length. lia.
Qed.

Lemma cumulative_returns_length (fm : fill_method) (bt : Backtester)
    (comp : DataFrame) :
  length (cumulative_returns fm bt comp) = length (portfolio_returns fm bt comp).
Proof.
  unfold cumulative_returns, s_map, s_cumprod.
  now rewrite length_map, s_cumprod_from_length, length_map.
Qed.

Lemma calculate_returns_trimmed (fm : fill_method) (bt : Backtester)
    (comp : DataFrame) :
  special_start bt <> 1 ->
  calculate_returns fm bt comp =
  (stats <- evaluate_trade bt
              (df_iloc_from (special_start bt + 1) (shifted_positions comp)) ;;
   Ok (mkReturns
         (df_iloc_from (special_start bt + 1) (asset_contributions fm bt comp))
         (s_iloc_from (special_start bt + 1) (portfolio_returns fm bt comp))
         (df_iloc_from (special_start bt + 1)
                       (cumulative_asset_returns fm bt comp))
         (s_iloc_from (special_start bt + 1) (cumulative_returns fm bt comp))
         stats)).
Proof.
  intros Hs. unfold calculate_returns, trim_s.
  rewrite !(trim_df_rows bt _ Hs).
  destruct (special_start bt =? 1) eqn:E; [|reflexivity].
  apply Nat.eqb_eq in E. contradiction.
Qed.

(** C4.  The warm-up trim of [calculate_returns].  When [special_start] is
    not 1, each returned series is the computed series without its first
    [special_start + 1] rows, and the trade statistics are those of
    [evaluate_trade] run on the normalised shifted positions without these
    rows, so the trim comes first; when [special_start] is 1 nothing is
    dropped.  Dropping the first [k] rows leaves row [k + i] at place [i]. *)
Theorem C4_warm_up_trim :
  forall (fm : fill_method) (bt : Backtester) (comp : DataFrame),
    let k := special_start bt + 1 in
    (special_start bt <> 1 ->
     calculate_returns fm bt comp =
     (stats <- evaluate_trade bt (df_iloc_from k (shifted_positions comp)) ;;
      Ok (mkReturns (df_iloc_from k (asset_contributions fm bt comp))
                    (s_iloc_from k (portfolio_returns fm bt comp))
                    (df_iloc_from k (cumulative_asset_returns fm bt comp))
                    (s_iloc_from k (cumulative_returns fm bt comp))
                    stats))) /\
    (special_start bt = 1 ->
     calculate_returns fm bt comp =
     (stats <- evaluate_trade bt (shifted_positions comp) ;;
      Ok (mkReturns (asset_contributions fm bt comp)
                    (portfolio_returns fm bt comp)
                    (cumulative_asset_returns fm bt comp)
                    (cumulative_returns fm bt comp)
                    stats))) /\
    (forall (df : DataFrame) (i : nat),
        nth_error (rows (df_iloc_from k df)) i = nth_error (rows df) (k + i) /\
        length (rows (df_iloc_from k df)) = length (rows df) - k) /\
    (forall (s : list (nat * float)) (i : nat),
        nth_error (s_iloc_from k s) i = nth_error s (k + i) /\
        length (s_iloc_from k s) = length s - k).
Proof.
  intros fm bt comp k. split; [|split; [|split]].
  - intros Hs. now apply calculate_returns_trimmed.
  - intros Hs. unfold calculate_returns, trim_s, trim_df.
    rewrite Hs. reflexivity.
  - intros df i. unfold df_iloc_from; simpl. split.
    + apply nth_error_skipn.
    + apply length_skipn.
  - intros s i. unfold s_iloc_from. split.
    + apply nth_error_skipn.
    + apply length_skipn.
Qed.

(** ** A start index beyond the table *)

Lemma assets_loop_idle (bt : Backtester) (strategy : Strategy) (assets : list nat) :
  date_range bt = [] ->
  forall m : DataFrame,
    foldM (fun m asset =>
             st <- foldM (asset_step bt strategy asset) (date_range bt)
                         (Scalar fzero, m) ;;
             Ok (snd st))
          assets m = Ok m.
Proof.
  intros Hr. rewrite Hr.
  induction assets as [|a l IH]; intros m; simpl; [reflexivity|].
  apply IH.
Qed.

Lemma late_start_composition (bt : Backtester) (strategy : Strategy) :
  length (rows (data bt)) < special_start bt ->
  calculate_composition_matrix bt strategy =
  Ok (empty_frame (columns (data bt)) (index (data bt))).
Proof.
  intros H.
  assert (Hr : date_range bt = []).
  { unfold date_range.
    replace (length (rows (data bt)) - special_start bt) with 0 by lia.
    reflexivity. }
  unfold calculate_composition_matrix. destruct (multi_assets bt).
  - rewrite Hr. reflexivity.
  - now apply assets_loop_idle.
Qed.

Lemma evaluate_trade_empty (bt : Backtester) (cols : nat) :
  evaluate_trade bt (mkDF cols []) =
  if cols =? 0 then Ok (0, 0) else Raise IndexError.
Proof.
  unfold evaluate_trade; simpl. destruct cols as [|c]; reflexivity.
Qed.

Lemma late_start_run (fm : fill_method) (bt : Backtester) (strategy : Strategy) :
  rows (data bt) <> [] ->
  length (rows (data bt)) < special_start bt ->
  run fm bt strategy =
  if columns (data bt) =? 0
  then Ok (mkResult [] [] 0 (0, 0))
  else Raise IndexError.
Proof.
  intros Hne Hlate. unfold run.
  rewrite (late_start_composition bt strategy Hlate). cbn [bind].
  set (comp := empty_frame (columns (data bt)) (index (data bt))).
  assert (Hlen : length (rows comp) = length (rows (data bt))).
  { unfold comp, empty_frame, index; simpl. now rewrite !length_map. }
  assert (Hs : special_start bt <> 1).
  { destruct (rows (data bt)); [contradiction | simpl in Hlate; lia]. }
  rewrite (calculate_returns_trimmed fm bt comp Hs).
  assert (Hw : df_iloc_from (special_start bt + 1) (shifted_positions comp)
               = mkDF (columns (data bt)) []).
  { unfold df_iloc_from. f_equal. apply skipn_all2.
    rewrite shifted_length, Hlen. lia. }
  rewrite Hw, evaluate_trade_empty.
  destruct (columns (data bt) =? 0); [|reflexivity].
  cbn [bind r_portfolio_returns r_cumulative_returns r_result_trade].
  unfold s_iloc_from. rewrite !skipn_all2; [reflexivity| |].
  - rewrite cumulative_returns_length.
    pose proof (portfolio_returns_length fm bt comp). lia.
  - pose proof (portfolio_returns_length fm bt comp). lia.
Qed.

(** C3 (as the code behaves).  No shape check precedes the composition
    building.  A price table without rows is refused by [__init__] with an
    [IndexError].  With a start index beyond the number of dates, [__init__]
    succeeds, the composition matrix is built (every cell left missing), the
    returns are computed and trimmed to nothing, and only then, when the table
    has at least one asset, the trade scan raises [IndexError] on the empty
    window; with no asset column [run] returns a result made of empty
    series. *)
Theorem C3_late_start :
  forall (fm : fill_method) (data_source : DataFrame) (multi : bool)
         (start : nat) (cost slip : Q) (calendar : nat -> bool)
         (strategy : Strategy),
    rows data_source = [] \/ length (rows data_source) < start ->
    match init data_source multi start cost slip calendar with
    | Raise e => rows data_source = [] /\ e = IndexError
    | Ok bt =>
        rows data_source <> [] /\
        calculate_composition_matrix bt strategy =
          Ok (empty_frame (columns data_source) (index data_source)) /\
        run fm bt strategy =
          if columns data_source =? 0
          then Ok (mkResult [] [] 0 (0, 0))
          else Raise IndexError
    end.
Proof.
  intros fm data_source multi start cost slip calendar strategy H.
  unfold init. destruct (rows data_source) as [|r rs] eqn:E.
  - split; reflexivity.
  - destruct H as [H|H]; [discriminate|].
    set (bt := mkBacktester data_source multi start cost slip calendar).
    assert (Hne : rows (data bt) <> []) by (simpl; rewrite E; discriminate).
    assert (Hlate : length (rows (data bt)) < special_start bt)
      by (simpl; rewrite E; exact H).
    split; [discriminate|]. split.
    + apply (late_start_composition bt strategy Hlate).
    + apply (late_start_run fm bt strategy Hne Hlate).
Qed.

(** C3, refuted as stated: on a one-asset table of two dates with
    [special_start = 3], [__init__] accepts the input and the composition
    matrix is built; [run] then fails with the [IndexError] of the trade scan;
    on the same dates without asset columns [run] returns a result built from
    empty series. *)
Lemma C3_counterexample :
  init short_prices false 3 0 0 (fun _ => true) = Ok late_start /\
  calculate_composition_matrix late_start always_one =
    Ok (mkDF 1 [(0, [NaN]); (1, [NaN])]) /\
  run NoFill late_start always_one = Raise IndexError /\
  run Pad late_start always_one = Raise IndexError /\
  run NoFill late_start_no_asset always_one = Ok (mkResult [] [] 0 (0, 0)).
Proof.
  repeat split; vm_compute; reflexivity.
Qed.

(** C6 (as the code behaves).  In Scenario 1 the strategy is consulted only
    when the date range starts at date 0, that is with [special_start = 0].
    Then the position is 1 from date 0 on, the first row is trimmed, the
    reported portfolio returns are the asset's percent changes of dates 1 to
    4, that is 1/10, -1/10, 0 and 7/33, and the trade statistics are (0, 0): the
    window holds one constant position.  With the default
    [special_start = 1] date 0 is never visited, the position stays 0, all
    five returns are 0 and the trade statistics are (0, 0) as well.  Were the
    rebalancing date the date 1, the default start would report the returns
    0, 0, -1/10, 0 and 7/33 and the trade statistics (1, 0): one entry trade,
    which leaves a zero position and is no win. *)
Theorem C6_scenario_1 :
  forall fm : fill_method,
    (exists r : Result,
        run fm (scenario 0) always_one = Ok r /\
        s_index (res_portfolio_returns r) = [1; 2; 3; 4] /\
        same_cells (s_values (res_portfolio_returns r))
                   (column (df_iloc_from 1 (asset_returns fm (scenario 0))) 0)
          = true /\
        same_cells (s_values (res_portfolio_returns r))
                   [Fin (1 # 10); Fin (- 1 # 10); Fin 0; Fin (7 # 33)] = true /\
        trade_stats r = (0, 0)) /\
    (exists r : Result,
        run fm (scenario 1) always_one = Ok r /\
        s_index (res_portfolio_returns r) = [0; 1; 2; 3; 4] /\
        same_cells (s_values (res_portfolio_returns r))
                   [Fin 0; Fin 0; Fin 0; Fin 0; Fin 0] = true /\
        trade_stats r = (0, 0)) /\
    (exists r : Result,
        run fm scenario_rebalanced_at_1 always_one = Ok r /\
        s_index (res_portfolio_returns r) = [0; 1; 2; 3; 4] /\
        same_cells (s_values (res_portfolio_returns r))
                   [Fin 0; Fin 0; Fin (- 1 # 10); Fin 0; Fin (7 # 33)] = true /\
        trade_stats r = (1, 0)).
Proof.
  intros fm. split; [|split]; eexists; (split; [reflexivity|]);
    destruct fm; vm_compute; repeat split.
Qed.

(** C6, refuted as stated: whether the run starts at date 0 or at the
    default date 1, Scenario 1 reports no trade at all. *)
Lemma C6_counterexample :
  (exists r : Result,
      run NoFill (scenario 0) always_one = Ok r /\ fst (trade_stats r) <> 1) /\
  (exists r : Result,
      run NoFill (scenario 1) always_one = Ok r /\ fst (trade_stats r) <> 1).
Proof.
  split; eexists; (split; [vm_compute; reflexivity|]); simpl; discriminate.
Qed.

(** ** Finite cells *)

Lemma fold_from_pinf (cells : list float) :
  fold_left nan_step (map fabs cells) PInf = PInf.
Proof.
  induction cells as [|x l IH]; simpl; [reflexivity|].
  destruct x; simpl; exact IH.
Qed.

(** The absolute sum of a row is [+inf], or a rational at least as large as
    the absolute value of every cell, all of them finite or missing. *)
Lemma abs_fold_cases (cells : list float) :
  forall q : Q,
    fold_left nan_step (map fabs cells) (Fin q) = PInf \/
    exists q' : Q,
      fold_left nan_step (map fabs cells) (Fin q) = Fin q' /\
      (q <= q')%Q /\
      Forall (fun x => match x with
                       | Fin a => (Qabs a <= q' - q)%Q
                       | NaN => True
                       | _ => False
                       end) cells.
Proof.
  induction cells as [|x l IH]; intros q; simpl.
  - right. exists q. repeat split; [lra | constructor].
  - destruct x as [a| | |]; simpl.
    + destruct (IH (q + Qabs a)%Q) as [H|(q' & H & Hle & Hall)]; [now left|].
      right. exists q'. pose proof (Qabs_nonneg a).
      split; [exact H|]. split; [lra|].
      constructor; [lra|].
      eapply Forall_impl; [|exact Hall].
      intros [b| | |]; auto. intros Hb. lra.
    + left. apply fold_from_pinf.
    + left. apply fold_from_pinf.
    + destruct (IH q) as [H|(q' & H & Hle & Hall)]; [now left|].
      right. exists q'. split; [exact H|]. split; [exact Hle|].
      constructor; [exact I | exact Hall].
Qed.

Lemma normalize_row_finite (cells : list float) :
  Forall finite (normalize_row cells).
Proof.
  unfold normalize_row, abs_sum, nansum.
  fold nan_step.
  destruct (abs_fold_cases cells 0) as [H|(q' & H & Hle & Hall)];
    unfold fzero; rewrite H; apply Forall_map.
  - apply Forall_forall. intros [a| | |] _; reflexivity.
  - eapply Forall_impl; [|exact Hall].
    intros [a| | |] Ha; try contradiction; try reflexivity.
    simpl. destruct (Qeq_bool q' 0) eqn:E; [|reflexivity].
    apply Qeq_bool_iff in E.
    assert (Hz : (a == 0)%Q) by (apply Qabs_zero; pose proof (Qabs_nonneg a); lra).
    apply Qeq_alt in Hz. rewrite Hz. reflexivity.
Qed.

Lemma all_cells_values (P : float -> Prop) (df : DataFrame) :
  all_cells P df <-> Forall (Forall P) (values df).
Proof.
  unfold all_cells, values. now rewrite Forall_map.
Qed.

Lemma normalize_finite (df : DataFrame) : all_cells finite (normalize df).
Proof.
  apply all_cells_values. rewrite normalize_values. apply Forall_map.
  apply Forall_forall. intros cells _. apply normalize_row_finite.
Qed.

Lemma shifted_finite (comp : DataFrame) :
  all_cells finite (shifted_positions comp).
Proof. apply normalize_finite. Qed.

Lemma map_cells_all (f : float -> float) (P Q : float -> Prop) (df : DataFrame) :
  (forall x, P x -> Q (f x)) -> all_cells P df -> all_cells Q (map_cells f df).
Proof.
  intros Hf H. unfold all_cells, map_cells in *; simpl.
  apply Forall_map. eapply Forall_impl; [|exact H].
  intros r Hr; simpl. apply Forall_map. eapply Forall_impl; [|exact Hr].
  exact Hf.
Qed.

Lemma repeat_all (P : float -> Prop) (x : float) (n : nat) :
  P x -> Forall P (repeat x n).
Proof. intros H. induction n; simpl; constructor; auto. Qed.

Lemma shift_from_rows (R : list float -> Prop) (rs : list (nat * list float)) :
  forall prev,
    R prev ->
    Forall (fun r => R (snd r)) rs ->
    Forall (fun r => R (snd r)) (shift_from prev rs).
Proof.
  induction rs as [|[d c] rs IH]; intros prev Hp Hrs; simpl; constructor.
  - exact Hp.
  - inversion Hrs; subst. now apply IH.
Qed.

Lemma shift_from_all (P : float -> Prop) (rs : list (nat * list float)) :
  forall prev,
    Forall P prev ->
    Forall (fun r => Forall P (snd r)) rs ->
    Forall (fun r => Forall P (snd r)) (shift_from prev rs).
Proof. exact (shift_from_rows (Forall P) rs). Qed.

Lemma shift1_all (P : float -> Prop) (df : DataFrame) :
  P NaN -> all_cells P df -> all_cells P (df_shift1 df).
Proof.
  intros Hn H. unfold all_cells, df_shift1; simpl.
  apply shift_from_all; [now apply repeat_all | exact H].
Qed.

Lemma map2_rows_all (f : float -> float -> float) (P Q R : float -> Prop)
    (a b : list (nat * list float)) :
  (forall x y, P x -> Q y -> R (f x y)) ->
  Forall (fun r => Forall P (snd r)) a ->
  Forall (fun r => Forall Q (snd r)) b ->
  Forall (fun r => Forall R (snd r))
         (map2 (fun r r' : nat * list float => (fst r, map2 f (snd r) (snd r'))) a b).
Proof.
  intros Hf Ha Hb.
  apply (map2_Forall _ (fun r => Forall P (snd r)) (fun r => Forall Q (snd r)));
    [|exact Ha|exact Hb].
  intros r r' Hr Hr'; simpl. now apply (map2_Forall f P Q R).
Qed.

(** The sum of a row of finite or missing cells is finite; it is not
    negative when the cells are not. *)
Lemma nansum_no_inf (cells : list float) :
  forall q : Q,
    Forall no_inf cells ->
    exists q', fold_left nan_step cells (Fin q) = Fin q'.
Proof.
  induction cells as [|x l IH]; intros q H; simpl; [now exists q|].
  inversion H as [|? ? Hx Hl]; subst.
  destruct x as [a| | |]; simpl; try discriminate; now apply IH.
Qed.

Lemma nansum_abs_nonneg (cells : list float) :
  forall q : Q,
    (0 <= q)%Q ->
    Forall no_inf cells ->
    exists q', fold_left nan_step (map fabs cells) (Fin q) = Fin q' /\ (0 <= q')%Q.
Proof.
  induction cells as [|x l IH]; intros q Hq H; simpl; [now exists q|].
  inversion H as [|? ? Hx Hl]; subst.
  destruct x as [a| | |]; simpl; try discriminate.
  - apply IH; [|exact Hl]. pose proof (Qabs_nonneg a). lra.
  - now apply IH.
Qed.

Lemma finite_no_inf (x : float) : finite x -> no_inf x.
Proof. destruct x; simpl; unfold finite, no_inf; simpl; congruence. Qed.

(** Every turnover is a rational that is not negative. *)
Lemma turnover_nonneg (sp : DataFrame) :
  all_cells finite sp ->
  Forall (fun c : nat * float => exists q, snd c = Fin q /\ (0 <= q)%Q)
         (turnover sp).
Proof.
  intros H. unfold turnover, df_sum_rows, df_abs, map_cells; cbn [rows].
  rewrite map_map. apply Forall_map. cbn [fst snd].
  assert (Hd : all_cells no_inf (df_diff sp)).
  { unfold all_cells, df_diff; cbn [rows].
    apply (map2_rows_all fsub finite no_inf no_inf).
    - intros [a| | |] [b| | |]; unfold finite, no_inf; simpl; congruence.
    - exact H.
    - apply shift1_all; [reflexivity|].
      unfold all_cells in *. eapply Forall_impl; [|exact H].
      intros r Hr. eapply Forall_impl; [|exact Hr]. apply finite_no_inf. }
  unfold all_cells in Hd. eapply Forall_impl; [|exact Hd].
  intros r Hr. unfold nansum. fold nan_step.
  apply (nansum_abs_nonneg (snd r) 0); [lra | exact Hr].
Qed.

Lemma nansum_finite (cells : list float) :
  Forall finite cells -> finite (nansum cells).
Proof.
  intros H. unfold nansum. fold nan_step.
  destruct (nansum_no_inf cells 0) as [q' Hq'].
  - eapply Forall_impl; [|exact H]. apply finite_no_inf.
  - unfold fzero. rewrite Hq'. reflexivity.
Qed.

(** ** Rows with an infinite weight *)

Lemma normalize_row_inf (cells : list float) :
  abs_sum cells = PInf -> normalize_row cells = map (fun _ => fzero) cells.
Proof.
  intros H. unfold normalize_row. rewrite H. apply map_ext.
  intros [a| | |]; reflexivity.
Qed.

Lemma lagged_row_no_nan (comp : DataFrame) (t : nat) :
  t < length (rows comp) ->
  Forall (fun x => is_nan x = false) (nth t (values (lagged_positions comp)) []).
Proof.
  intros Ht. rewrite lagged_nth by exact Ht. destruct t as [|t'].
  - apply repeat_all. reflexivity.
  - apply Forall_map. apply Forall_forall. intros [a| | |] _; reflexivity.
Qed.

Lemma lagged_row_cases (comp : DataFrame) (t : nat) :
  t < length (rows comp) ->
  let pre := nth t (values (lagged_positions comp)) [] in
  abs_sum pre = PInf \/
  exists (qs : list Q) (s : Q),
    pre = map Fin qs /\ abs_sum pre = Fin s /\ (s == qsum (map Qabs qs))%Q.
Proof.
  intros Ht pre.
  pose proof (lagged_row_no_nan comp t Ht) as Hnan. fold pre in Hnan.
  destruct (abs_fold_cases pre 0) as [Hinf|(q' & Hq' & _ & Hall)];
    [left; exact Hinf|].
  right.
  assert (Hfin : Forall (fun x => is_finite x = true) pre).
  { rewrite Forall_forall in *. intros x Hx.
    specialize (Hall x Hx). specialize (Hnan x Hx).
    destruct x; simpl in *; try contradiction; congruence. }
  destruct (finite_cells pre Hfin) as [qs Hqs].
  destruct (abs_sum_fin qs) as [s [Hs Hq]].
  exists qs, s. rewrite Hqs. repeat split; assumption.
Qed.

Lemma Qabs_div_le (a s : Q) :
  (0 < s)%Q -> (Qabs a <= s)%Q -> (Qabs (a / s) <= 1)%Q.
Proof.
  intros Hs Ha.
  assert (E : (Qabs (a / s) == Qabs a / s)%Q).
  { unfold Qdiv. rewrite Qabs_Qmult.
    assert (Hi : (0 <= / s)%Q) by (apply Qinv_le_0_compat; lra).
    now rewrite (Qabs_pos (/ s)) by exact Hi. }
  rewrite E. apply Qle_shift_div_r; [exact Hs | lra].
Qed.

(** Every normalised cell is a number between -1 and 1. *)
Lemma normalize_row_bounded (cells : list float) :
  Forall (fun x => exists q : Q, x = Fin q /\ (Qabs q <= 1)%Q)
         (normalize_row cells).
Proof.
  assert (Z : exists q : Q, fzero = Fin q /\ (Qabs q <= 1)%Q).
  { exists 0%Q. split; [reflexivity|]. rewrite Qabs_pos; lra. }
  unfold normalize_row, abs_sum, nansum.
  destruct (abs_fold_cases cells 0) as [H|(q' & H & Hle & Hall)];
    unfold fzero at 1; rewrite H; apply Forall_map.
  - apply Forall_forall. intros [a| | |] _; exact Z.
  - eapply Forall_impl; [|exact Hall].
    intros [a| | |] Ha; try contradiction; [|exact Z].
    cbn [fdiv]. destruct (Qeq_bool q' 0) eqn:E.
    + apply Qeq_bool_iff in E.
      assert (Hz : (a == 0)%Q)
        by (apply Qabs_zero; pose proof (Qabs_nonneg a); lra).
      apply Qeq_alt in Hz. rewrite Hz. exact Z.
    + exists (a / q')%Q. split; [reflexivity|].
      assert (Hn : ~ (q' == 0)%Q)
        by (intros C; apply Qeq_bool_iff in C; congruence).
      apply Qabs_div_le; lra.
Qed.

Lemma all_zero_map {A : Type} (l : list A) :
  Forall (fun x => is_zero x = true) (map (fun _ => fzero) l).
Proof. apply Forall_map, Forall_forall. intros; reflexivity. Qed.

(** C2 (as the code behaves).  After the row normalisation of
    [calculate_returns] (line 161), every cell of the normalised matrix is a
    number between -1 and 1, never [NaN].  The absolute sum of a row before
    the normalisation is [+inf] or a number that is not negative; it is zero
    exactly when the row is entirely zero.  A row whose absolute sum is zero
    or infinite is mapped to the all-zero row.  Every other row is divided,
    cell by cell, by its absolute sum, and is not the all-zero row. *)
Theorem C2_normalised_rows :
  forall (comp : DataFrame) (t : nat),
    t < length (rows comp) ->
    let pre := nth t (values (lagged_positions comp)) [] in
    let row := nth t (values (shifted_positions comp)) [] in
    Forall (fun x => exists q : Q, x = Fin q /\ (Qabs q <= 1)%Q) row /\
    (abs_sum pre = PInf \/ exists s : Q, abs_sum pre = Fin s /\ (0 <= s)%Q) /\
    (is_zero (abs_sum pre) = true <-> Forall (fun x => is_zero x = true) pre) /\
    (is_zero (abs_sum pre) = true \/ abs_sum pre = PInf ->
     Forall (fun x => is_zero x = true) row) /\
    (forall s : Q,
        abs_sum pre = Fin s -> ~ (s == 0)%Q ->
        row = map (fun x => fdiv x (Fin s)) pre /\
        ~ Forall (fun x => is_zero x = true) row).
Proof.
  intros comp t Ht pre row. subst row.
  rewrite shifted_nth by exact Ht. fold pre.
  split; [apply normalize_row_bounded|].
  destruct (lagged_row_cases comp t Ht) as [Hinf|(qs & s & Hqs & Hs & Hq)].
  - (* an infinite weight *)
    fold pre in Hinf.
    split; [left; exact Hinf|]. split; [|split].
    + rewrite Hinf. split; [discriminate|].
      intros Hz. exfalso.
      assert (Hfin : Forall (fun x => is_finite x = true) pre).
      { eapply Forall_impl; [|exact Hz].
        intros [a| | |]; simpl; congruence. }
      destruct (finite_cells pre Hfin) as [qs Hqs].
      destruct (abs_sum_fin qs) as [s [Hs _]].
      rewrite <- Hqs, Hinf in Hs. discriminate.
    + intros _. rewrite (normalize_row_inf pre Hinf). apply all_zero_map.
    + intros s Hs. rewrite Hinf in Hs. discriminate.
  - (* finite weights *)
    fold pre in Hqs, Hs.
    pose proof (qsum_abs_nonneg qs) as Hpos.
    assert (Hiff : (s == 0)%Q <-> Forall (fun x => is_zero x = true) pre).
    { rewrite Hqs, all_zero_cells. split; intros H.
      - apply qsum_abs_zero. now rewrite <- Hq.
      - rewrite Hq. now apply qsum_zero. }
    split; [right; exists s; split; [exact Hs | lra]|].
    split; [|split].
    + rewrite Hs. unfold is_zero at 1; cbn [feqb fzero].
      rewrite Qeq_bool_iff. exact Hiff.
    + intros [Hz|Hi]; [|rewrite Hs in Hi; discriminate].
      rewrite Hs in Hz. unfold is_zero in Hz; cbn [feqb fzero] in Hz.
      apply Qeq_bool_iff in Hz.
      rewrite Hqs in Hs |- *.
      rewrite (normalize_row_zero qs s Hs Hz). apply all_zero_map.
    + intros s' Hs' Hnz. rewrite Hs in Hs'. injection Hs' as <-.
      rewrite Hqs in Hs |- *.
      rewrite (normalize_row_pos qs s Hs Hnz).
      assert (Hb : Qeq_bool s 0 = false).
      { destruct (Qeq_bool s 0) eqn:E; [|reflexivity].
        apply Qeq_bool_iff in E. contradiction. }
      split.
      * rewrite !map_map. apply map_ext. intros a. cbn [fdiv].
        now rewrite Hb.
      * intros Hall. apply Hnz. rewrite Hq. apply qsum_zero.
        apply all_zero_cells in Hall.
        rewrite Forall_map in Hall.
        eapply Forall_impl; [|exact Hall].
        intros a Ha. cbv beta in Ha.
        assert (E : (a == a / s * s)%Q) by (field; exact Hnz).
        rewrite E, Ha. ring.
Qed.

(** C2, refuted as stated.  An infinite weight makes the absolute sum of its
    row infinite and the whole row 0, although the row is not entirely zero.
    On binary64 numbers six equal weights are normalised to six times the
    double nearest to 1/6, whose sum is 0.9999999999999999, neither 1 nor 0;
    and two weights of 2^1023, whose sum overflows, are both mapped to 0. *)
Lemma C2_counterexample :
  (nth 1 (values (lagged_positions infinite_weight)) [] = [PInf; Fin 1] /\
   nth 1 (values (shifted_positions infinite_weight)) [] = [fzero; fzero]) /\
  (let s := b64_abs_sum (b64_normalize_row b64_equal_weights) in
   PrimFloat.eqb s 1 = false /\ PrimFloat.eqb s 0 = false /\
   s = 0x1.fffffffffffffp-1%float) /\
  (b64_abs_sum b64_large_weights = PrimFloat.infinity /\
   b64_normalize_row b64_large_weights = [0; 0]%float).
Proof.
  repeat split; vm_compute; reflexivity.
Qed.


(** ** Costs and returns, date by date *)

Lemma map2_nth_error {A B C : Type} (f : A -> B -> C) (l : list A) (m : list B) :
  forall i,
    nth_error (map2 f l m) i =
    match nth_error l i, nth_error m i with
    | Some a, Some b => Some (f a b)
    | _, _ => None
    end.
Proof.
  revert m. induction l as [|a l IH]; intros [|b m] [|i]; simpl; auto.
  - now destruct (nth_error l i).
Qed.

Lemma portfolio_returns_nth (fm : fill_method) (bt : Backtester)
    (comp : DataFrame) (t : nat) :
  nth_error (portfolio_returns fm bt comp) t =
  match nth_error (gross_returns fm bt comp) t,
        nth_error (turnover (shifted_positions comp)) t with
  | Some g, Some tau =>
      Some (fst g, net (snd g) (snd tau) (transaction_cost bt) (slippage bt))
  | _, _ => None
  end.
Proof.
  unfold portfolio_returns, s_sub, calculate_transaction_costs,
    calculate_slippage_costs, s_scale, gross_returns.
  rewrite !map2_nth_error, !nth_error_map.
  destruct (nth_error (df_sum_rows (asset_contributions fm bt comp)) t);
    destruct (nth_error (turnover (shifted_positions comp)) t);
    reflexivity.
Qed.

Lemma trim_s_nth (bt : Backtester) (s : list (nat * float)) (i : nat) :
  nth_error (trim_s bt s) i = nth_error s (dropped bt + i).
Proof.
  unfold trim_s, dropped. destruct (special_start bt =? 1); [reflexivity|].
  apply nth_error_skipn.
Qed.

Lemma net_zero_turnover (g : float) (q c1 c2 slip : Q) :
  (q == 0)%Q -> same (net g (Fin q) c2 slip) (net g (Fin q) c1 slip).
Proof.
  intros Hq. unfold net, fsub.
  destruct g as [a| | |]; cbn [fmul fneg fadd same]; auto.
  rewrite Hq. ring.
Qed.

Lemma net_never_rises (g : float) (q c1 c2 slip : Q) :
  (0 <= q)%Q -> (c1 < c2)%Q ->
  fltb (net g (Fin q) c1 slip) (net g (Fin q) c2 slip) = false.
Proof.
  intros Hq Hc. unfold net, fsub.
  destruct g as [a| | |]; cbn [fmul fneg fadd fltb]; try reflexivity.
  destruct (a + - (q * c1) + - (q * slip) ?= a + - (q * c2) + - (q * slip))%Q
    eqn:E; try reflexivity.
  apply Qlt_alt in E. exfalso. nra.
Qed.

Lemma df_sum_rows_nth (df : DataFrame) (t d : nat) (x : float) :
  nth_error (df_sum_rows df) t = Some (d, x) ->
  exists cells, nth_error (rows df) t = Some (d, cells) /\ x = nansum cells.
Proof.
  unfold df_sum_rows. rewrite nth_error_map.
  destruct (nth_error (rows df) t) as [[d' cells]|]; [|discriminate].
  cbn [option_map fst snd]. intros H. injection H as -> <-.
  now exists cells.
Qed.

Lemma map2_rows_label (h : list float -> list float -> list float)
    (l m : list (nat * list float)) (t d : nat) (cells : list float) :
  nth_error (map2 (fun r r' : nat * list float => (fst r, h (snd r) (snd r')))
                  l m) t = Some (d, cells) ->
  exists r, nth_error l t = Some r /\ fst r = d.
Proof.
  rewrite map2_nth_error.
  destruct (nth_error l t) as [r|]; [|discriminate].
  destruct (nth_error m t) as [r'|]; [|discriminate].
  intros H. injection H as <- _. now exists r.
Qed.

(** The gross return and the turnover of a date carry the label of that row
    of the normalised positions. *)
Lemma gross_label (fm : fill_method) (bt : Backtester) (comp : DataFrame)
    (t d : nat) (g : float) :
  nth_error (gross_returns fm bt comp) t = Some (d, g) ->
  exists r, nth_error (rows (shifted_positions comp)) t = Some r /\ fst r = d.
Proof.
  intros H. apply df_sum_rows_nth in H. destruct H as (cells & H & _).
  unfold asset_contributions, df_multiply in H; cbn [rows] in H.
  now apply map2_rows_label in H.
Qed.

Lemma turnover_label (sp : DataFrame) (t d : nat) (x : float) :
  nth_error (turnover sp) t = Some (d, x) ->
  exists r, nth_error (rows sp) t = Some r /\ fst r = d.
Proof.
  intros H. unfold turnover in H. apply df_sum_rows_nth in H.
  destruct H as (cells & H & _).
  unfold df_abs, map_cells in H; cbn [rows] in H.
  rewrite nth_error_map in H.
  destruct (nth_error (rows (df_diff sp)) t) as [[d' c']|] eqn:E;
    [|discriminate].
  cbn [option_map fst snd] in H. injection H as -> _.
  unfold df_diff in E; cbn [rows] in E.
  now apply map2_rows_label in E.
Qed.

(** C7 (as the code behaves).  Take a composition matrix over the dates and
    the assets of the price table, and hold everything but the transaction
    cost rate fixed.  At every date of the reported portfolio returns the
    turnover is a number that is not negative; the return under the higher
    rate is never above the return under the lower rate; and when the
    turnover is zero the return is the same under both rates.  Nothing is
    said of a strict decrease. *)
Theorem C7_higher_cost_never_raises_return :
  forall (fm : fill_method) (bt : Backtester) (comp : DataFrame) (c1 c2 : Q)
         (i : nat) (r1 r2 : nat * float),
    index comp = index (data bt) ->
    columns comp = columns (data bt) ->
    (c1 < c2)%Q ->
    nth_error (trim_s (with_cost bt c1)
                      (portfolio_returns fm (with_cost bt c1) comp)) i = Some r1 ->
    nth_error (trim_s (with_cost bt c2)
                      (portfolio_returns fm (with_cost bt c2) comp)) i = Some r2 ->
    exists q : Q,
      nth_error (trim_s bt (turnover (shifted_positions comp))) i
        = Some (fst r1, Fin q) /\
      fst r2 = fst r1 /\
      (0 <= q)%Q /\
      ((q == 0)%Q -> same (snd r2) (snd r1)) /\
      fltb (snd r1) (snd r2) = false.
Proof.
  intros fm bt comp c1 c2 i r1 r2 _ _ Hc H1 H2.
  rewrite trim_s_nth, portfolio_returns_nth in H1, H2.
  change (dropped (with_cost bt c1)) with (dropped bt) in H1.
  change (dropped (with_cost bt c2)) with (dropped bt) in H2.
  change (gross_returns fm (with_cost bt c1) comp)
    with (gross_returns fm bt comp) in H1.
  change (gross_returns fm (with_cost bt c2) comp)
    with (gross_returns fm bt comp) in H2.
  rewrite trim_s_nth.
  destruct (nth_error (gross_returns fm bt comp) (dropped bt + i))
    as [[dg g]|] eqn:Eg; [|discriminate].
  destruct (nth_error (turnover (shifted_positions comp)) (dropped bt + i))
    as [[d tau]|] eqn:Et; [|discriminate].
  injection H1 as <-. injection H2 as <-.
  destruct (gross_label _ _ _ _ _ _ Eg) as (r & Hr & Hd).
  destruct (turnover_label _ _ _ _ Et) as (r' & Hr' & Hd').
  rewrite Hr in Hr'. injection Hr' as <-.
  pose proof (turnover_nonneg _ (shifted_finite comp)) as Hn.
  rewrite Forall_forall in Hn.
  destruct (Hn _ (nth_error_In _ _ Et)) as (q & Hq & Hpos).
  simpl in Hq. subst tau.
  exists q. cbn [fst snd transaction_cost slippage with_cost].
  split; [now rewrite <- Hd', Hd|]. split; [reflexivity|].
  split; [exact Hpos|]. split.
  - intros Hz. now apply net_zero_turnover.
  - now apply net_never_rises.
Qed.

(** C7, refuted as stated.  The price of the single asset goes from 0 to 1
    at date 1 while the position held goes from 0 to 1, so the turnover of
    date 1 is 1 and its return is [+inf] under the cost rate 0 and under the
    cost rate 1/100 alike: raising the rate does not lower it.  On binary64
    numbers a finite return does not fall either when the cost is small: an
    asset entered at 12 that goes to 13 returns 0.08333333333333326 at a
    turnover of 1, under the cost rate 0 and under the cost rate 10^-20. *)
Lemma C7_counterexample :
  (calculate_composition_matrix (zero_price_backtester 0) always_one
     = Ok held_position /\
   nth_error (trim_s (zero_price_backtester 0)
                     (turnover (shifted_positions held_position))) 0
     = Some (1, Fin 1) /\
   nth_error (trim_s (zero_price_backtester 0)
                     (portfolio_returns NoFill (zero_price_backtester 0)
                                        held_position)) 0
     = Some (1, PInf) /\
   nth_error (trim_s (zero_price_backtester (1 # 100))
                     (portfolio_returns NoFill (zero_price_backtester (1 # 100))
                                        held_position)) 0
     = Some (1, PInf) /\
   fltb PInf PInf = false) /\
  (b64_entry_turnover = 1%float /\
   PrimFloat.ltb 0 b64_small_rate = true /\
   b64_net b64_entry_return b64_entry_turnover 0 0
     = 0x1.5555555555550p-4%float /\
   b64_net b64_entry_return b64_entry_turnover b64_small_rate 0
     = 0x1.5555555555550p-4%float /\
   PrimFloat.ltb (b64_net b64_entry_return b64_entry_turnover b64_small_rate 0)
                 (b64_net b64_entry_return b64_entry_turnover 0 0) = false).
Proof.
  repeat split; vm_compute; reflexivity.
Qed.

(** ** Returns of a table of positive prices *)

Lemma price_ok_tl (l : list float) : Forall price_ok l -> Forall price_ok (tl l).
Proof. intros H. destruct l; simpl; [constructor | now inversion H]. Qed.

Lemma price_ok_hd (l : list float) : Forall price_ok l -> price_ok (hd NaN l).
Proof. intros H. destruct l; simpl; [exact I | now inversion H]. Qed.

Lemma ffill_row_ok (cur : list float) :
  forall prev,
    Forall price_ok prev -> Forall price_ok cur ->
    Forall price_ok (ffill_row prev cur).
Proof.
  induction cur as [|c cur IH]; intros prev Hp Hc; simpl; constructor.
  - inversion Hc; subst. destruct (is_nan c); [now apply price_ok_hd | assumption].
  - inversion Hc; subst. apply IH; [now apply price_ok_tl | assumption].
Qed.

Lemma ffill_from_ok (rs : list (nat * list float)) :
  forall prev,
    Forall price_ok prev ->
    Forall (fun r => Forall price_ok (snd r)) rs ->
    Forall (fun r => Forall price_ok (snd r)) (ffill_from prev rs).
Proof.
  induction rs as [|[d c] rs IH]; intros prev Hp Hrs; simpl; constructor;
    inversion Hrs; subst; simpl in *.
  - now apply ffill_row_ok.
  - apply IH; [now apply ffill_row_ok | assumption].
Qed.

Lemma pct_cell_no_inf (x p : float) :
  price_ok x -> price_ok p -> no_inf (fsub (fdiv x p) fone).
Proof.
  destruct x as [a| | |], p as [b| | |]; simpl; try contradiction;
    try reflexivity.
  intros _ Hb. destruct (Qeq_bool b 0) eqn:E; [|reflexivity].
  apply Qeq_bool_iff in E. lra.
Qed.

Lemma fillna0_no_inf (x : float) : no_inf x -> finite (fillna0 x).
Proof. destruct x; unfold no_inf, finite; simpl; congruence. Qed.

Lemma asset_returns_finite (fm : fill_method) (bt : Backtester) :
  all_cells price_ok (data bt) -> all_cells finite (asset_returns fm bt).
Proof.
  intros H. unfold asset_returns, df_fillna0.
  apply (map_cells_all fillna0 no_inf finite); [apply fillna0_no_inf|].
  assert (Hd : all_cells price_ok
                 (match fm with Pad => df_ffill (data bt) | NoFill => data bt end)).
  { destruct fm; [|exact H]. unfold all_cells, df_ffill; cbn [rows].
    apply ffill_from_ok; [apply repeat_all; exact I | exact H]. }
  unfold pct_change, all_cells; cbn [rows].
  apply (map2_rows_all _ price_ok price_ok no_inf).
  - apply pct_cell_no_inf.
  - exact Hd.
  - apply shift1_all; [exact I | exact Hd].
Qed.

Lemma fmul_finite (x y : float) : finite x -> finite y -> finite (fmul x y).
Proof. destruct x, y; unfold finite; simpl; congruence. Qed.

Lemma fadd_finite (x y : float) : finite x -> finite y -> finite (fadd x y).
Proof. destruct x, y; unfold finite; simpl; congruence. Qed.

Lemma fsub_finite (x y : float) : finite x -> finite y -> finite (fsub x y).
Proof. destruct x, y; unfold finite; simpl; congruence. Qed.

Lemma contributions_finite (fm : fill_method) (bt : Backtester) (comp : DataFrame) :
  all_cells price_ok (data bt) ->
  all_cells finite (asset_contributions fm bt comp).
Proof.
  intros H. unfold asset_contributions, df_multiply, all_cells; cbn [rows].
  apply (map2_rows_all fmul finite finite finite).
  - apply fmul_finite.
  - apply shifted_finite.
  - now apply asset_returns_finite.
Qed.

Lemma sum_rows_finite (df : DataFrame) :
  all_cells finite df -> all_values finite (df_sum_rows df).
Proof.
  intros H. unfold all_values, df_sum_rows. apply Forall_map.
  eapply Forall_impl; [|exact H]. intros r Hr; simpl. now apply nansum_finite.
Qed.

Lemma scale_finite (s : list (nat * float)) (k : Q) :
  all_values finite s -> all_values finite (s_scale s k).
Proof.
  intros H. unfold all_values, s_scale. apply Forall_map.
  eapply Forall_impl; [|exact H]. intros c Hc; simpl.
  now apply fmul_finite.
Qed.

Lemma s_sub_finite (a b : list (nat * float)) :
  all_values finite a -> all_values finite b -> all_values finite (s_sub a b).
Proof.
  intros Ha Hb. unfold all_values, s_sub.
  apply (map2_Forall _ (fun c : nat * float => finite (snd c))
                       (fun c : nat * float => finite (snd c))); auto.
  intros c c' Hc Hc'; simpl. now apply fsub_finite.
Qed.

Lemma turnover_finite (sp : DataFrame) :
  all_cells finite sp -> all_values finite (turnover sp).
Proof.
  intros H. unfold all_values.
  eapply Forall_impl; [|apply (turnover_nonneg sp H)].
  intros c (q & Hq & _). unfold finite. now rewrite Hq.
Qed.

Lemma portfolio_returns_finite (fm : fill_method) (bt : Backtester)
    (comp : DataFrame) :
  all_cells price_ok (data bt) ->
  all_values finite (portfolio_returns fm bt comp).
Proof.
  intros H. unfold portfolio_returns.
  repeat apply s_sub_finite.
  - apply sum_rows_finite. now apply contributions_finite.
  - apply scale_finite, turnover_finite, shifted_finite.
  - apply scale_finite, turnover_finite, shifted_finite.
Qed.

Lemma cum_step_finite (acc x : float) :
  finite acc -> finite x -> finite (cum_step acc x).
Proof.
  intros Ha Hx. unfold cum_step. destruct (is_nan x); [exact Ha|].
  now apply fmul_finite.
Qed.

Lemma cum_out_finite (acc x : float) :
  finite acc -> finite x -> finite (cum_out acc x).
Proof.
  intros Ha Hx. unfold cum_out. destruct x; try discriminate; exact Ha.
Qed.

Lemma s_cumprod_from_finite (s : list (nat * float)) :
  forall acc,
    finite acc -> all_values finite s -> all_values finite (s_cumprod_from acc s).
Proof.
  unfold all_values.
  induction s as [|[d x] s IH]; intros acc Ha Hs; simpl; constructor;
    inversion Hs; subst; simpl in *.
  - apply cum_out_finite; auto. now apply cum_step_finite.
  - apply IH; auto. now apply cum_step_finite.
Qed.

Lemma s_map_finite (f : float -> float) (s : list (nat * float)) :
  (forall x, finite x -> finite (f x)) ->
  all_values finite s -> all_values finite (s_map f s).
Proof.
  intros Hf H. unfold all_values, s_map. apply Forall_map.
  eapply Forall_impl; [|exact H]. intros c Hc; simpl. now apply Hf.
Qed.

Lemma skipn_Forall {A : Type} (P : A -> Prop) (k : nat) :
  forall l : list A, Forall P l -> Forall P (skipn k l).
Proof.
  induction k as [|k IH]; intros [|x l] H; simpl; auto.
  inversion H; subst. now apply IH.
Qed.

Lemma trim_df_all (P : float -> Prop) (bt : Backtester) (df : DataFrame) :
  all_cells P df -> all_cells P (trim_df bt df).
Proof.
  intros H. unfold trim_df. destruct (special_start bt =? 1); [exact H|].
  unfold all_cells, df_iloc_from; cbn [rows]. now apply skipn_Forall.
Qed.

Lemma trim_s_all (P : float -> Prop) (bt : Backtester) (s : list (nat * float)) :
  all_values P s -> all_values P (trim_s bt s).
Proof.
  intros H. unfold trim_s. destruct (special_start bt =? 1); [exact H|].
  unfold all_values, s_iloc_from. now apply skipn_Forall.
Qed.

(** ** One index for all series *)

Lemma s_sub_index (a b : list (nat * float)) :
  length a <= length b -> s_index (s_sub a b) = s_index a.
Proof.
  unfold s_index, s_sub. revert b.
  induction a as [|c a IH]; intros [|c' b] H; simpl in *; try reflexivity;
    try lia.
  f_equal. apply IH. lia.
Qed.

Lemma turnover_length (sp : DataFrame) :
  length (turnover sp) = length (rows sp).
Proof.
  unfold turnover, df_sum_rows, df_abs, map_cells, df_diff; cbn [rows].
  rewrite !length_map, map2_length.
  unfold df_shift1; cbn [rows]. rewrite shift_from_length. lia.
Qed.

Lemma gross_length (fm : fill_method) (bt : Backtester) (comp : DataFrame) :
  length (df_sum_rows (asset_contributions fm bt comp)) <=
  length (rows (shifted_positions comp)).
Proof.
  unfold df_sum_rows, asset_contributions, df_multiply; cbn [rows].
  rewrite length_map, map2_length. lia.
Qed.

Lemma portfolio_returns_index (fm : fill_method) (bt : Backtester)
    (comp : DataFrame) :
  s_index (portfolio_returns fm bt comp) =
  index (asset_contributions fm bt comp).
Proof.
  unfold portfolio_returns.
  pose proof (gross_length fm bt comp) as Hg.
  rewrite !s_sub_index.
  - unfold s_index, index, df_sum_rows. now rewrite map_map.
  - unfold calculate_transaction_costs, s_scale.
    rewrite length_map, turnover_length. exact Hg.
  - unfold s_sub. rewrite map2_length.
    unfold calculate_slippage_costs, calculate_transaction_costs, s_scale.
    rewrite !length_map, turnover_length. lia.
Qed.

Lemma cumprod_from_index (rs : list (nat * list float)) :
  forall acc, map fst (cumprod_from acc rs) = map fst rs.
Proof.
  induction rs as [|[d c] rs IH]; intros acc; simpl; [reflexivity|].
  now rewrite IH.
Qed.

Lemma s_cumprod_from_index (s : list (nat * float)) :
  forall acc, map fst (s_cumprod_from acc s) = map fst s.
Proof.
  induction s as [|[d x] s IH]; intros acc; simpl; [reflexivity|].
  now rewrite IH.
Qed.

Lemma cumulative_asset_returns_index (fm : fill_method) (bt : Backtester)
    (comp : DataFrame) :
  index (cumulative_asset_returns fm bt comp) =
  index (asset_contributions fm bt comp).
Proof.
  unfold cumulative_asset_returns. rewrite map_cells_index.
  unfold index at 1, df_cumprod; cbn [rows]. rewrite cumprod_from_index.
  apply map_cells_index.
Qed.

Lemma cumulative_returns_index (fm : fill_method) (bt : Backtester)
    (comp : DataFrame) :
  s_index (cumulative_returns fm bt comp) =
  s_index (portfolio_returns fm bt comp).
Proof.
  unfold cumulative_returns, s_index, s_map, s_cumprod.
  rewrite map_map; cbn [fst]. rewrite s_cumprod_from_index.
  now rewrite map_map.
Qed.

Lemma trim_df_index (bt : Backtester) (df : DataFrame) :
  index (trim_df bt df) = skipn (dropped bt) (index df).
Proof.
  unfold trim_df, dropped. destruct (special_start bt =? 1); [reflexivity|].
  apply iloc_index.
Qed.

Lemma trim_s_index (bt : Backtester) (s : list (nat * float)) :
  s_index (trim_s bt s) = skipn (dropped bt) (s_index s).
Proof.
  unfold trim_s, dropped, s_index, s_iloc_from.
  destruct (special_start bt =? 1); [reflexivity|].
  symmetry. apply skipn_map.
Qed.

Lemma calculate_returns_fields (fm : fill_method) (bt : Backtester)
    (comp : DataFrame) (r : Returns) :
  calculate_returns fm bt comp = Ok r ->
  r_asset_contributions r = trim_df bt (asset_contributions fm bt comp) /\
  r_portfolio_returns r = trim_s bt (portfolio_returns fm bt comp) /\
  r_cumulative_asset_returns r =
    trim_df bt (cumulative_asset_returns fm bt comp) /\
  r_cumulative_returns r = trim_s bt (cumulative_returns fm bt comp) /\
  evaluate_trade bt (trim_df bt (shifted_positions comp)) =
    Ok (r_result_trade r).
Proof.
  unfold calculate_returns.
  destruct (evaluate_trade bt (trim_df bt (shifted_positions comp)));
    simpl; [|discriminate].
  intros H. injection H as <-. simpl. repeat split; reflexivity.
Qed.


(** ** The window handed to [evaluate_trade] *)

Lemma shifted_widths (comp : DataFrame) :
  Forall (fun r : nat * list float => length (snd r) = columns comp) (rows comp) ->
  Forall (fun r : nat * list float => length (snd r) = columns comp)
         (rows (shifted_positions comp)).
Proof.
  intros H.
  assert (Hv : Forall (fun cells => length cells = columns comp)
                      (values (shifted_positions comp))).
  { unfold shifted_positions. rewrite normalize_values. apply Forall_map.
    unfold lagged_positions, df_fillna0. rewrite map_cells_values.
    apply Forall_map. unfold values. apply Forall_map.
    unfold df_shift1; cbn [rows].
    eapply Forall_impl;
      [| apply (shift_from_rows (fun cells => length cells = columns comp));
         [apply repeat_length | exact H]].
    intros r Hr. unfold normalize_row. now rewrite !length_map. }
  unfold values in Hv. now rewrite Forall_map in Hv.
Qed.

(** A composition matrix over the dates and the assets of the price table
    gives a window that the scan of every asset can read. *)
Lemma pipeline_ready (bt : Backtester) (comp : DataFrame) (a : nat) :
  wf_data (data bt) ->
  index comp = index (data bt) ->
  columns comp = columns (data bt) ->
  Forall (fun r : nat * list float => length (snd r) = columns comp) (rows comp) ->
  a < columns comp ->
  scan_ready bt (trim_df bt (shifted_positions comp)) a.
Proof.
  intros Hwf Hidx Hcols Hw Ha.
  pose proof Hwf as [Hseq _].
  unfold scan_ready. split; [exact Hwf|]. split; [lia|]. split.
  - rewrite trim_df_index, shifted_index, Hidx, Hseq, skipn_seq.
    apply seq_NoDup.
  - assert (Hall : Forall (fun r : nat * list float =>
                             fst r < length (rows (data bt)) /\
                             a < length (snd r))
                          (rows (shifted_positions comp))).
    { pose proof (shifted_widths comp Hw) as Hsw.
      rewrite Forall_forall in Hsw |- *. intros r Hr. split.
      - assert (Hin : In (fst r) (index (shifted_positions comp)))
          by (unfold index; now apply in_map).
        rewrite shifted_index, Hidx, Hseq in Hin. apply in_seq in Hin. lia.
      - rewrite (Hsw r Hr). exact Ha. }
    unfold trim_df. destruct (special_start bt =? 1); [exact Hall|].
    unfold df_iloc_from; cbn [rows]. now apply skipn_Forall.
Qed.

(** ** The statements on sample inputs *)

Lemma sample_wf (start : nat) (cost : Q) :
  wf_data (data (sample_backtester start cost)).
Proof. split; [reflexivity | repeat constructor]. Qed.

Lemma sample_ready_0 :
  scan_ready (sample_backtester 1 0) (shifted_positions sample_composition) 0.
Proof.
  apply (pipeline_ready (sample_backtester 1 0) sample_composition 0);
    [apply sample_wf | reflexivity | reflexivity | repeat constructor
    | simpl; lia].
Qed.

(** C1 on the sample composition: row 2 of the lagged matrix is row 1 of
    the composition matrix. *)
Lemma C1_witness :
  2 < length (rows sample_composition) /\
  nth 2 (values (lagged_positions sample_composition)) [] = [Fin 1; Fin (-1)].
Proof.
  assert (H : 2 < length (rows sample_composition)) by (vm_compute; lia).
  split; [exact H|].
  exact (proj1 (proj2 (C1_positions_are_lagged sample_composition 2 H))).
Defined.

(** C2 on the sample composition, row 2. *)
Lemma C2_witness :
  2 < length (rows sample_composition) /\
  Forall (fun x => exists q : Q, x = Fin q /\ (Qabs q <= 1)%Q)
         (nth 2 (values (shifted_positions sample_composition)) []).
Proof.
  assert (H : 2 < length (rows sample_composition)) by (vm_compute; lia).
  split; [exact H|].
  exact (proj1 (C2_normalised_rows sample_composition 2 H)).
Defined.

(** C3 on two dates with [special_start = 3]: the run ends in the
    [IndexError] of the trade scan. *)
Lemma C3_witness :
  (rows short_prices = [] \/ length (rows short_prices) < 3) /\
  run NoFill late_start always_one = Raise IndexError.
Proof.
  assert (H : rows short_prices = [] \/ length (rows short_prices) < 3)
    by (right; vm_compute; lia).
  split; [exact H|].
  exact (proj2 (proj2 (C3_late_start NoFill short_prices false 3 0 0
                                     (fun _ => true) always_one H))).
Defined.

(** C5 on the first asset of the sample: three position changes, three
    trades. *)
Lemma C5_witness :
  scan_ready (sample_backtester 1 0) (shifted_positions sample_composition) 0 /\
  rows (shifted_positions sample_composition) <> [] /\
  exists wins : nat,
    wins <= 3 /\
    trade_asset (sample_backtester 1 0) (shifted_positions sample_composition)
                (0, 0) 0 = Ok (3, wins).
Proof.
  assert (Hne : rows (shifted_positions sample_composition) <> [])
    by (vm_compute; discriminate).
  split; [exact sample_ready_0|]. split; [exact Hne|].
  destruct (C5_trade_counting (sample_backtester 1 0)
              (shifted_positions sample_composition) 0 (0, 0)
              sample_ready_0 Hne) as (_ & (wins & Hle & Hw) & _).
  exists wins. split; [exact Hle | exact Hw].
Defined.

Lemma sample_prices_ok : all_cells price_ok (data (sample_backtester 1 0)).
Proof. repeat constructor. Qed.

(** C7 on the sample, date 2: the turnover is 1 and the return under the
    cost rate 0 is not below the return under the cost rate 1/100. *)
Lemma C7_witness :
  index sample_composition = index (data (sample_backtester 1 0)) /\
  columns sample_composition = columns (data (sample_backtester 1 0)) /\
  (0 < 1 # 100)%Q /\
  exists r1 r2 : nat * float,
    nth_error (trim_s (with_cost (sample_backtester 1 0) 0)
                 (portfolio_returns NoFill (with_cost (sample_backtester 1 0) 0)
                                    sample_composition)) 2 = Some r1 /\
    nth_error (trim_s (with_cost (sample_backtester 1 0) (1 # 100))
                 (portfolio_returns NoFill
                                    (with_cost (sample_backtester 1 0) (1 # 100))
                                    sample_composition)) 2 = Some r2 /\
    fltb (snd r1) (snd r2) = false.
Proof.
  assert (Hc : (0 < 1 # 100)%Q) by reflexivity.
  split; [reflexivity|]. split; [reflexivity|]. split; [exact Hc|].
  eexists. eexists.
  split; [vm_compute; reflexivity|].
  split; [vm_compute; reflexivity|].
  destruct (C7_higher_cost_never_raises_return NoFill (sample_backtester 1 0)
              sample_composition 0 (1 # 100) 2 _ _ eq_refl eq_refl Hc
              eq_refl eq_refl)
    as (q & _ & _ & _ & _ & Hle).
  exact Hle.
Defined.

Lemma sample_run :
  calculate_returns NoFill (sample_backtester 1 0) sample_composition
  = Ok sample_returns.
Proof.
  unfold calculate_returns.
  replace (evaluate_trade (sample_backtester 1 0)
             (trim_df (sample_backtester 1 0)
                      (shifted_positions sample_composition)))
    with (@Ok (nat * nat) (5, 2)) by (vm_compute; reflexivity).
  reflexivity.
Qed.

Lemma entry_ready (a : nat) :
  a < columns (shifted_positions entry_composition) ->
  scan_ready (sample_backtester 1 0) (shifted_positions entry_composition) a.
Proof.
  intros Ha.
  apply (pipeline_ready (sample_backtester 1 0) entry_composition a);
    [apply sample_wf | reflexivity | reflexivity | repeat constructor
    | exact Ha].
Qed.

Lemma entry_shape (a : nat) :
  a < columns (shifted_positions entry_composition) ->
  exists (zs cs : list float) (c : float),
    column (shifted_positions entry_composition) a = zs ++ cs /\
    zs <> [] /\
    Forall (fun x => is_zero x = true) zs /\
    Forall (fun x => feqb x c = true) cs.
Proof.
  intros Ha. change (a < 2) in Ha.
  destruct a as [|[|a]]; [| |lia].
  - exists (firstn 2 (column (shifted_positions entry_composition) 0)),
           (skipn 2 (column (shifted_positions entry_composition) 0)), fone.
    split; [symmetry; apply firstn_skipn|].
    split; [vm_compute; discriminate|].
    split; vm_compute; repeat constructor.
  - exists (firstn 2 (column (shifted_positions entry_composition) 1)),
           (skipn 2 (column (shifted_positions entry_composition) 1)), fzero.
    split; [symmetry; apply firstn_skipn|].
    split; [vm_compute; discriminate|].
    split; vm_compute; repeat constructor.
Qed.

(** C9 on a composition where both assets start from zero and the first one
    is entered once: no win is reported. *)
Lemma C9_witness :
  (forall a, a < columns (shifted_positions entry_composition) ->
     scan_ready (sample_backtester 1 0) (shifted_positions entry_composition) a) /\
  rows (shifted_positions entry_composition) <> [] /\
  exists n : nat,
    evaluate_trade (sample_backtester 1 0) (shifted_positions entry_composition)
    = Ok (n, 0).
Proof.
  assert (Hne : rows (shifted_positions entry_composition) <> [])
    by (vm_compute; discriminate).
  split; [exact entry_ready|]. split; [exact Hne|].
  exact (proj2 (C9_entry_from_zero_is_never_a_win (sample_backtester 1 0)
                  (shifted_positions entry_composition) entry_ready Hne)
               entry_shape).
Defined.

Lemma trimmed_ready_0 :
  scan_ready (sample_backtester 0 0)
             (trim_df (sample_backtester 0 0) (shifted_positions sample_composition))
             0.
Proof.
  apply (pipeline_ready (sample_backtester 0 0) sample_composition 0);
    [apply sample_wf | reflexivity | reflexivity | repeat constructor
    | simpl; lia].
Qed.

(** C10 on the sample with [special_start = 0]: the window starts at date 1,
    where the first asset costs 90, but its first trade, at the price 95 of
    date 2, is judged against the price 100 of date 0 and is no win; only the
    second trade is one. *)
Lemma C10_witness :
  special_start (sample_backtester 0 0) <> 1 /\
  index sample_composition = index (data (sample_backtester 0 0)) /\
  scan_ready (sample_backtester 0 0)
             (trim_df (sample_backtester 0 0) (shifted_positions sample_composition))
             0 /\
  rows (trim_df (sample_backtester 0 0) (shifted_positions sample_composition))
    <> [] /\
  price_at (sample_backtester 0 0) 0 0 = Fin 100 /\
  trade_asset (sample_backtester 0 0)
              (trim_df (sample_backtester 0 0)
                       (shifted_positions sample_composition))
              (0, 0) 0 = Ok (2, 1).
Proof.
  assert (Hs : special_start (sample_backtester 0 0) <> 1) by discriminate.
  assert (Hi : index sample_composition = index (data (sample_backtester 0 0)))
    by reflexivity.
  assert (Hne : rows (trim_df (sample_backtester 0 0)
                              (shifted_positions sample_composition)) <> [])
    by (vm_compute; discriminate).
  split; [exact Hs|]. split; [exact Hi|]. split; [exact trimmed_ready_0|].
  split; [exact Hne|]. split; [reflexivity|].
  destruct (C10_first_trade_value_is_first_table_price (sample_backtester 0 0)
              sample_composition 0 (0, 0) Hs Hi trimmed_ready_0 Hne)
    as (_ & H & _).
  rewrite H. vm_compute. reflexivity.
Defined.

(** * The composition matrix *)

Lemma foldM_app {A S : Type} (body : S -> A -> result S) (l l' : list A) :
  forall s : S,
    foldM body (l ++ l') s = bind (foldM body l s) (foldM body l').
Proof.
  induction l as [|a l IH]; intros s; simpl; [reflexivity|].
  destruct (body s a) as [s'|e]; simpl; [apply IH | reflexivity].
Qed.

Lemma trading_date_label (bt : Backtester) (i : nat) :
  labelled (data bt) -> i < length (rows (data bt)) -> trading_date bt i = i.
Proof.
  intros H Hi. unfold trading_date. rewrite H. now rewrite seq_nth.
Qed.

(** ** Aggregate mode *)

Lemma multi_rows_start (bt : Backtester) (strategy : Strategy) :
  labelled (data bt) ->
  rows (empty_frame (columns (data bt)) (index (data bt)))
  = multi_rows bt strategy 0.
Proof.
  intros H. unfold empty_frame, multi_rows; cbn [rows]. rewrite H.
  apply map_ext. intros i.
  replace (i <? special_start bt + 0) with (i <? special_start bt)
    by (now rewrite Nat.add_0_r).
  destruct (special_start bt <=? i) eqn:E1, (i <? special_start bt) eqn:E2;
    try reflexivity.
  apply Nat.leb_le in E1. apply Nat.ltb_lt in E2. lia.
Qed.

Lemma multi_rows_write (bt : Backtester) (strategy : Strategy) (j : nat) :
  special_start bt + j < length (rows (data bt)) ->
  map (fun r : nat * list float =>
         if fst r =? special_start bt + j
         then (fst r, expand (columns (data bt))
                             (multi_position bt strategy (S j)))
         else r)
      (multi_rows bt strategy j)
  = multi_rows bt strategy (S j).
Proof.
  intros Hj. unfold multi_rows. rewrite map_map. apply map_ext_in.
  intros i Hi. cbn [fst].
  destruct (i =? special_start bt + j) eqn:E.
  - apply Nat.eqb_eq in E. subst i.
    replace (special_start bt <=? special_start bt + j) with true
      by (symmetry; apply Nat.leb_le; lia).
    replace (special_start bt + j <? special_start bt + S j) with true
      by (symmetry; apply Nat.ltb_lt; lia).
    replace (special_start bt + j - special_start bt) with j by lia.
    reflexivity.
  - apply Nat.eqb_neq in E.
    replace (i <? special_start bt + S j) with (i <? special_start bt + j);
      [reflexivity|].
    destruct (i <? special_start bt + j) eqn:E1; symmetry.
    + apply Nat.ltb_lt in E1. apply Nat.ltb_lt. lia.
    + apply Nat.ltb_ge in E1. apply Nat.ltb_ge. lia.
Qed.

Lemma set_loc_closed (bt : Backtester) (strategy : Strategy) (j : nat) :
  special_start bt + j < length (rows (data bt)) ->
  set_loc (mkDF (columns (data bt)) (multi_rows bt strategy j))
          (special_start bt + j) (multi_position bt strategy (S j))
  = if valid_row (columns (data bt)) (multi_position bt strategy (S j))
    then Ok (mkDF (columns (data bt)) (multi_rows bt strategy (S j)))
    else Raise ValueError.
Proof.
  intros Hj. pose proof (multi_rows_write bt strategy j Hj) as Hw.
  unfold set_loc. cbn [columns rows].
  destruct (multi_position bt strategy (S j)) as [x|xs]; cbn [valid_row expand] in *.
  - now rewrite Hw.
  - destruct (length xs =? columns (data bt)); [now rewrite Hw | reflexivity].
Qed.

Lemma multi_loop_closed (bt : Backtester) (strategy : Strategy) :
  labelled (data bt) ->
  forall j,
    j <= range_length bt ->
    foldM (multi_step bt strategy) (seq (special_start bt) j)
          (Scalar fzero, mkDF (columns (data bt)) (multi_rows bt strategy 0))
    = if forallb (fun j' => valid_row (columns (data bt))
                                      (multi_position bt strategy (S j')))
                 (seq 0 j)
      then Ok (multi_position bt strategy j,
               mkDF (columns (data bt)) (multi_rows bt strategy j))
      else Raise ValueError.
Proof.
  intros Hl. unfold range_length.
  induction j as [|j IH]; intros Hj; [reflexivity|].
  rewrite !seq_S, foldM_app, forallb_app, IH by lia.
  cbn [forallb]. rewrite Nat.add_0_l, andb_true_r.
  destruct (forallb _ (seq 0 j)); [|reflexivity].
  cbn [bind foldM andb]. unfold multi_step.
  rewrite (trading_date_label bt (special_start bt + j) Hl) by lia.
  change (if rebalancing_dates bt (special_start bt + j)
          then get_position strategy
                 (TableHistory (firstn (S (special_start bt + j)) (rows (data bt))))
                 (multi_position bt strategy j)
          else multi_position bt strategy j)
    with (if rebalancing_dates bt (special_start bt + j)
          then get_position strategy (table_history bt (special_start bt + j))
                            (multi_position bt strategy j)
          else multi_position bt strategy j).
  assert (E : (if rebalancing_dates bt (special_start bt + j)
               then get_position strategy (table_history bt (special_start bt + j))
                                 (multi_position bt strategy j)
               else multi_position bt strategy j)
              = multi_position bt strategy (S j)).
  { cbn [multi_position].
    now rewrite (trading_date_label bt (special_start bt + j) Hl) by lia. }
  rewrite E. rewrite set_loc_closed by lia.
  destruct (valid_row _ _); reflexivity.
Qed.

(** ** Per-asset mode *)

Lemma map_const_repeat {A : Type} (x : A) (n : nat) :
  forall k, map (fun _ : nat => x) (seq k n) = repeat x n.
Proof.
  induction n as [|n IH]; intros k; simpl; [reflexivity|]. now rewrite IH.
Qed.

Lemma set_nth_map_seq (f : nat -> float) (x : float) (c : nat) :
  forall k a,
    a < c ->
    set_nth (map f (seq k c)) a x
    = map (fun a' => if a' =? k + a then x else f a') (seq k c).
Proof.
  induction c as [|c IH]; intros k a Ha; [lia|].
  destruct a as [|a]; cbn [seq map set_nth].
  - rewrite Nat.add_0_r, Nat.eqb_refl. f_equal.
    apply map_ext_in. intros a' Ha'. apply in_seq in Ha'.
    destruct (a' =? k) eqn:E; [apply Nat.eqb_eq in E; lia | reflexivity].
  - replace (k =? k + S a) with false by (symmetry; apply Nat.eqb_neq; lia).
    f_equal. rewrite IH by lia.
    apply map_ext. intros a'. now replace (S k + a) with (k + S a) by lia.
Qed.

Lemma asset_rows_start (bt : Backtester) (strategy : Strategy) :
  labelled (data bt) ->
  rows (empty_frame (columns (data bt)) (index (data bt)))
  = asset_rows bt strategy 0 0.
Proof.
  intros H. unfold empty_frame, asset_rows; cbn [rows]. rewrite H.
  apply map_ext. intros i. f_equal.
  rewrite <- (map_const_repeat NaN (columns (data bt)) 0).
  apply map_ext. intros a.
  destruct (special_start bt <=? i) eqn:E1; [|reflexivity].
  apply Nat.leb_le in E1.
  replace (i <? special_start bt + 0) with false
    by (symmetry; apply Nat.ltb_ge; lia).
  now rewrite andb_false_r.
Qed.

Lemma asset_rows_write (bt : Backtester) (strategy : Strategy) (a j : nat) :
  a < columns (data bt) ->
  map (fun r : nat * list float =>
         if fst r =? special_start bt + j
         then (fst r, set_nth (snd r) a
                        (scalar_of (asset_position bt strategy a (S j))))
         else r)
      (asset_rows bt strategy a j)
  = asset_rows bt strategy a (S j).
Proof.
  intros Ha. unfold asset_rows. rewrite map_map. apply map_ext.
  intros i. cbn [fst snd].
  destruct (i =? special_start bt + j) eqn:E.
  - apply Nat.eqb_eq in E. subst i. f_equal.
    rewrite set_nth_map_seq by exact Ha. apply map_ext. intros a'.
    rewrite Nat.add_0_l.
    replace (special_start bt <=? special_start bt + j) with true
      by (symmetry; apply Nat.leb_le; lia).
    replace (special_start bt + j <? special_start bt + S j) with true
      by (symmetry; apply Nat.ltb_lt; lia).
    replace (special_start bt + j <? special_start bt + j) with false
      by (symmetry; apply Nat.ltb_ge; lia).
    replace (special_start bt + j - special_start bt) with j by lia.
    destruct (a' =? a) eqn:Ea.
    + apply Nat.eqb_eq in Ea. subst a'. now rewrite andb_true_r, orb_true_r.
    + reflexivity.
  - apply Nat.eqb_neq in E. f_equal. apply map_ext. intros a'.
    replace (i <? special_start bt + S j) with (i <? special_start bt + j);
      [reflexivity|].
    destruct (i <? special_start bt + j) eqn:E1; symmetry.
    + apply Nat.ltb_lt in E1. apply Nat.ltb_lt. lia.
    + apply Nat.ltb_ge in E1. apply Nat.ltb_ge. lia.
Qed.

Lemma asset_rows_next (bt : Backtester) (strategy : Strategy) (a : nat) :
  asset_rows bt strategy a (range_length bt) = asset_rows bt strategy (S a) 0.
Proof.
  unfold asset_rows, range_length. apply map_ext_in. intros i Hi.
  apply in_seq in Hi. f_equal. apply map_ext. intros a'.
  destruct (special_start bt <=? i) eqn:E1; [|reflexivity].
  apply Nat.leb_le in E1. cbn [andb].
  replace (i <? special_start bt +
                (length (rows (data bt)) - special_start bt)) with true
    by (symmetry; apply Nat.ltb_lt; lia).
  replace (i <? special_start bt + 0) with false
    by (symmetry; apply Nat.ltb_ge; lia).
  rewrite andb_true_r, andb_false_r, orb_false_r.
  destruct (Nat.ltb_spec a' a), (Nat.eqb_spec a' a), (Nat.ltb_spec a' (S a));
    try reflexivity; exfalso; lia.
Qed.

Lemma set_at_closed (bt : Backtester) (strategy : Strategy) (a j : nat) :
  a < columns (data bt) ->
  set_at (mkDF (columns (data bt)) (asset_rows bt strategy a j))
         (special_start bt + j) a (asset_position bt strategy a (S j))
  = if valid_cell (asset_position bt strategy a (S j))
    then Ok (mkDF (columns (data bt)) (asset_rows bt strategy a (S j)))
    else Raise ValueError.
Proof.
  intros Ha. pose proof (asset_rows_write bt strategy a j Ha) as Hw.
  unfold set_at. cbn [columns rows].
  destruct (asset_position bt strategy a (S j)) as [x|xs];
    cbn [valid_cell scalar_of] in *; [now rewrite Hw | reflexivity].
Qed.

Lemma asset_loop_closed (bt : Backtester) (strategy : Strategy) (a : nat) :
  labelled (data bt) ->
  a < columns (data bt) ->
  forall j,
    j <= range_length bt ->
    foldM (asset_step bt strategy a) (seq (special_start bt) j)
          (Scalar fzero, mkDF (columns (data bt)) (asset_rows bt strategy a 0))
    = if forallb (fun j' => valid_cell (asset_position bt strategy a (S j')))
                 (seq 0 j)
      then Ok (asset_position bt strategy a j,
               mkDF (columns (data bt)) (asset_rows bt strategy a j))
      else Raise ValueError.
Proof.
  intros Hl Ha. unfold range_length.
  induction j as [|j IH]; intros Hj; [reflexivity|].
  rewrite !seq_S, foldM_app, forallb_app, IH by lia.
  cbn [forallb]. rewrite Nat.add_0_l, andb_true_r.
  destruct (forallb _ (seq 0 j)); [|reflexivity].
  cbn [bind foldM andb]. unfold asset_step.
  rewrite (trading_date_label bt (special_start bt + j) Hl) by lia.
  assert (E : (if rebalancing_dates bt (special_start bt + j)
               then get_position strategy
                      (AssetHistory
                         (column (mkDF (columns (data bt))
                                       (firstn (S (special_start bt + j))
                                               (rows (data bt)))) a))
                      (asset_position bt strategy a j)
               else asset_position bt strategy a j)
              = asset_position bt strategy a (S j)).
  { cbn [asset_position]. unfold asset_history.
    now rewrite (trading_date_label bt (special_start bt + j) Hl) by lia. }
  rewrite E. rewrite set_at_closed by exact Ha.
  destruct (valid_cell _); reflexivity.
Qed.

Lemma assets_loop_closed (bt : Backtester) (strategy : Strategy) :
  labelled (data bt) ->
  forall a,
    a <= columns (data bt) ->
    foldM (fun m asset =>
             st <- foldM (asset_step bt strategy asset) (date_range bt)
                         (Scalar fzero, m) ;;
             Ok (snd st))
          (seq 0 a)
          (mkDF (columns (data bt)) (asset_rows bt strategy 0 0))
    = if forallb (asset_valid bt strategy) (seq 0 a)
      then Ok (mkDF (columns (data bt)) (asset_rows bt strategy a 0))
      else Raise ValueError.
Proof.
  intros Hl. induction a as [|a IH]; intros Ha; [reflexivity|].
  rewrite !seq_S, foldM_app, forallb_app, IH by lia.
  cbn [forallb]. rewrite Nat.add_0_l, andb_true_r.
  destruct (forallb _ (seq 0 a)); [|reflexivity].
  cbn [bind foldM andb].
  change (date_range bt) with (seq (special_start bt) (range_length bt)).
  rewrite (asset_loop_closed bt strategy a Hl) by (try apply Nat.le_refl; lia).
  fold (asset_valid bt strategy a).
  destruct (asset_valid bt strategy a); [|reflexivity].
  cbn [bind snd]. now rewrite asset_rows_next.
Qed.

(** The two loops of [calculate_composition_matrix] in closed form. *)
Lemma composition_matrix_closed (bt : Backtester) (strategy : Strategy) :
  labelled (data bt) ->
  calculate_composition_matrix bt strategy = composition_closed bt strategy.
Proof.
  intros Hl. unfold calculate_composition_matrix, composition_closed.
  destruct (multi_assets bt).
  - assert (E : empty_frame (columns (data bt)) (index (data bt))
                = mkDF (columns (data bt)) (multi_rows bt strategy 0)).
    { unfold empty_frame at 1. f_equal.
      apply (multi_rows_start bt strategy Hl). }
    rewrite E.
    change (date_range bt) with (seq (special_start bt) (range_length bt)).
    rewrite (multi_loop_closed bt strategy Hl) by apply Nat.le_refl.
    fold (multi_valid bt strategy).
    destruct (multi_valid bt strategy); reflexivity.
  - assert (E : empty_frame (columns (data bt)) (index (data bt))
                = mkDF (columns (data bt)) (asset_rows bt strategy 0 0)).
    { unfold empty_frame at 1. f_equal.
      apply (asset_rows_start bt strategy Hl). }
    rewrite E.
    rewrite (assets_loop_closed bt strategy Hl) by apply Nat.le_refl.
    fold (assets_valid bt strategy).
    destruct (assets_valid bt strategy); reflexivity.
Qed.

(** ** The finished matrix *)

Lemma multi_rows_final (bt : Backtester) (strategy : Strategy) :
  multi_assets bt = true ->
  multi_rows bt strategy (range_length bt) = composition_rows bt strategy.
Proof.
  intros Hm. unfold multi_rows, composition_rows, composition_row, range_length.
  rewrite Hm. apply map_ext_in. intros i Hi. apply in_seq in Hi. f_equal.
  destruct (Nat.leb_spec (special_start bt) i); [|reflexivity].
  replace (i <? special_start bt + (length (rows (data bt)) - special_start bt))
    with true by (symmetry; apply Nat.ltb_lt; lia).
  reflexivity.
Qed.

Lemma asset_rows_final (bt : Backtester) (strategy : Strategy) :
  multi_assets bt = false ->
  asset_rows bt strategy (columns (data bt)) 0 = composition_rows bt strategy.
Proof.
  intros Hm. unfold asset_rows, composition_rows, composition_row.
  rewrite Hm. apply map_ext. intros i. f_equal.
  destruct (special_start bt <=? i).
  - apply map_ext_in. intros a Ha. apply in_seq in Ha.
    replace (a <? columns (data bt)) with true
      by (symmetry; apply Nat.ltb_lt; lia).
    reflexivity.
  - cbn [andb]. apply map_const_repeat.
Qed.

Lemma composition_closed_rows (bt : Backtester) (strategy : Strategy) :
  composition_closed bt strategy =
  if composition_valid bt strategy
  then Ok (mkDF (columns (data bt)) (composition_rows bt strategy))
  else Raise ValueError.
Proof.
  unfold composition_closed, composition_valid.
  destruct (multi_assets bt) eqn:Hm.
  - now rewrite (multi_rows_final bt strategy Hm).
  - now rewrite (asset_rows_final bt strategy Hm).
Qed.

Lemma composition_matrix_rows (bt : Backtester) (strategy : Strategy) :
  labelled (data bt) ->
  calculate_composition_matrix bt strategy =
  if composition_valid bt strategy
  then Ok (mkDF (columns (data bt)) (composition_rows bt strategy))
  else Raise ValueError.
Proof.
  intros Hl. rewrite (composition_matrix_closed bt strategy Hl).
  apply composition_closed_rows.
Qed.

Lemma composition_ok (bt : Backtester) (strategy : Strategy) (m : DataFrame) :
  labelled (data bt) ->
  calculate_composition_matrix bt strategy = Ok m ->
  composition_valid bt strategy = true /\
  m = mkDF (columns (data bt)) (composition_rows bt strategy).
Proof.
  intros Hl H. rewrite (composition_matrix_rows bt strategy Hl) in H.
  destruct (composition_valid bt strategy); [|discriminate].
  injection H as <-. split; reflexivity.
Qed.

Lemma composition_rows_nth (bt : Backtester) (strategy : Strategy) (i : nat) :
  i < length (rows (data bt)) ->
  nth i (map snd (composition_rows bt strategy)) [] = composition_row bt strategy i.
Proof.
  intros Hi. unfold composition_rows. rewrite map_map. cbn [snd].
  rewrite (nth_indep _ [] (composition_row bt strategy 0))
    by (rewrite length_map, length_seq; exact Hi).
  rewrite (map_nth (composition_row bt strategy)). now rewrite seq_nth.
Qed.

(** X1.  [calculate_composition_matrix] returns a matrix whenever every
    position that the strategy hands back can be written as it is: a scalar
    in the per-asset mode, a scalar or one weight per column in the aggregate
    mode. *)
Theorem X1_composition_succeeds :
  forall (bt : Backtester) (strategy : Strategy),
    labelled (data bt) ->
    composition_valid bt strategy = true ->
    exists m, calculate_composition_matrix bt strategy = Ok m.
Proof.
  intros bt strategy Hl Hv. rewrite (composition_matrix_rows bt strategy Hl).
  rewrite Hv. eexists. reflexivity.
Qed.

Lemma multi_valid_at (bt : Backtester) (strategy : Strategy) (j : nat) :
  multi_valid bt strategy = true ->
  j < range_length bt ->
  valid_row (columns (data bt)) (multi_position bt strategy (S j)) = true.
Proof.
  intros H Hj. unfold multi_valid in H. rewrite forallb_forall in H.
  apply H. apply in_seq. lia.
Qed.

Lemma assets_valid_at (bt : Backtester) (strategy : Strategy) (a j : nat) :
  assets_valid bt strategy = true ->
  a < columns (data bt) ->
  j < range_length bt ->
  exists x, asset_position bt strategy a (S j) = Scalar x.
Proof.
  intros H Ha Hj. unfold assets_valid in H. rewrite forallb_forall in H.
  assert (Hv : asset_valid bt strategy a = true) by (apply H, in_seq; lia).
  unfold asset_valid in Hv. rewrite forallb_forall in Hv.
  assert (Hc : valid_cell (asset_position bt strategy a (S j)) = true)
    by (apply Hv, in_seq; lia).
  destruct (asset_position bt strategy a (S j)) as [x|xs]; [|discriminate].
  now exists x.
Qed.

Lemma expand_length (cols : nat) (p : position) :
  valid_row cols p = true -> length (expand cols p) = cols.
Proof.
  destruct p as [x|xs]; simpl; intros H.
  - apply repeat_length.
  - now apply Nat.eqb_eq.
Qed.

Lemma composition_row_length (bt : Backtester) (strategy : Strategy) (i : nat) :
  composition_valid bt strategy = true ->
  i < length (rows (data bt)) ->
  length (composition_row bt strategy i) = columns (data bt).
Proof.
  intros Hv Hi. unfold composition_row, composition_valid in *.
  destruct (Nat.leb_spec (special_start bt) i); [|apply repeat_length].
  destruct (multi_assets bt).
  - apply expand_length, multi_valid_at; [exact Hv|].
    unfold range_length. lia.
  - now rewrite length_map, length_seq.
Qed.

Lemma composition_wf (bt : Backtester) (strategy : Strategy) (m : DataFrame) :
  labelled (data bt) ->
  calculate_composition_matrix bt strategy = Ok m ->
  index m = index (data bt) /\
  columns m = columns (data bt) /\
  Forall (fun r : nat * list float => length (snd r) = columns (data bt))
         (rows m).
Proof.
  intros Hl H.
  destruct (composition_ok bt strategy m Hl H) as [Hv ->].
  split; [|split; [reflexivity|]].
  - unfold index at 1, composition_rows; cbn [rows].
    rewrite map_map; cbn [fst]. rewrite map_id. symmetry. exact Hl.
  - cbn [rows]. unfold composition_rows. apply Forall_map.
    apply Forall_forall. intros i Hi. apply in_seq in Hi. cbn [snd].
    apply composition_row_length; [exact Hv | lia].
Qed.

(** X2.  The composition matrix has the asset columns of the price table,
    one cell per asset in every row, and every row before [special_start] is
    left entirely missing. *)
Theorem X2_composition_shape :
  forall (bt : Backtester) (strategy : Strategy) (m : DataFrame),
    labelled (data bt) ->
    calculate_composition_matrix bt strategy = Ok m ->
    columns m = columns (data bt) /\
    Forall (fun r : nat * list float => length (snd r) = columns (data bt))
           (rows m) /\
    (forall i, i < special_start bt -> i < length (rows m) ->
               nth i (values m) [] = repeat NaN (columns (data bt))).
Proof.
  intros bt strategy m Hl H.
  destruct (composition_wf bt strategy m Hl H) as (Hi & Hc & Hw).
  split; [exact Hc|]. split; [exact Hw|].
  destruct (composition_ok bt strategy m Hl H) as [Hv ->].
  intros i Hs Hlt. unfold values; cbn [rows].
  cbn [rows] in Hlt. unfold composition_rows in Hlt.
  rewrite length_map, length_seq in Hlt.
  rewrite composition_rows_nth by exact Hlt. unfold composition_row.
  destruct (Nat.leb_spec (special_start bt) i); [lia | reflexivity].
Qed.

Lemma multi_position_hold (bt : Backtester) (strategy : Strategy) (j : nat) :
  labelled (data bt) ->
  special_start bt + j < length (rows (data bt)) ->
  rebalancing_dates bt (special_start bt + j) = false ->
  multi_position bt strategy (S j) = multi_position bt strategy j.
Proof.
  intros Hl Hj Hr. cbn [multi_position].
  rewrite (trading_date_label bt _ Hl Hj). now rewrite Hr.
Qed.

Lemma asset_position_hold (bt : Backtester) (strategy : Strategy) (a j : nat) :
  labelled (data bt) ->
  special_start bt + j < length (rows (data bt)) ->
  rebalancing_dates bt (special_start bt + j) = false ->
  asset_position bt strategy a (S j) = asset_position bt strategy a j.
Proof.
  intros Hl Hj Hr. cbn [asset_position].
  rewrite (trading_date_label bt _ Hl Hj). now rewrite Hr.
Qed.

Lemma composition_row_hold (bt : Backtester) (strategy : Strategy) (d : nat) :
  labelled (data bt) ->
  special_start bt < d -> d < length (rows (data bt)) ->
  rebalancing_dates bt d = false ->
  composition_row bt strategy d = composition_row bt strategy (d - 1).
Proof.
  intros Hl Hs Hd Hr. unfold composition_row.
  replace (special_start bt <=? d) with true by (symmetry; apply Nat.leb_le; lia).
  replace (special_start bt <=? d - 1) with true
    by (symmetry; apply Nat.leb_le; lia).
  replace (S (d - 1 - special_start bt)) with (d - special_start bt) by lia.
  assert (E : special_start bt + (d - special_start bt) = d) by lia.
  destruct (multi_assets bt).
  - rewrite multi_position_hold; [reflexivity | exact Hl | lia | now rewrite E].
  - apply map_ext. intros a.
    rewrite asset_position_hold; [reflexivity | exact Hl | lia | now rewrite E].
Qed.

Lemma composition_row_start (bt : Backtester) (strategy : Strategy) :
  labelled (data bt) ->
  special_start bt < length (rows (data bt)) ->
  rebalancing_dates bt (special_start bt) = false ->
  composition_row bt strategy (special_start bt) = repeat fzero (columns (data bt)).
Proof.
  intros Hl Hs Hr. unfold composition_row.
  rewrite Nat.leb_refl, Nat.sub_diag.
  assert (E : special_start bt + 0 = special_start bt) by lia.
  destruct (multi_assets bt).
  - rewrite multi_position_hold; [reflexivity | exact Hl | lia | now rewrite E].
  - rewrite <- (map_const_repeat fzero (columns (data bt)) 0).
    apply map_ext. intros a.
    rewrite asset_position_hold; [reflexivity | exact Hl | lia | now rewrite E].
Qed.

(** X3.  Positions are carried forward: on a date of the range that is not a
    rebalancing date, the row of the composition matrix repeats the row of
    the date before, and when the first date of the range is not a
    rebalancing date its row is the initial position 0 for every asset. *)
Theorem X3_positions_are_carried_forward :
  forall (bt : Backtester) (strategy : Strategy) (m : DataFrame),
    labelled (data bt) ->
    calculate_composition_matrix bt strategy = Ok m ->
    (forall d, special_start bt < d -> d < length (rows (data bt)) ->
               rebalancing_dates bt d = false ->
               nth d (values m) [] = nth (d - 1) (values m) []) /\
    (special_start bt < length (rows (data bt)) ->
     rebalancing_dates bt (special_start bt) = false ->
     nth (special_start bt) (values m) [] = repeat fzero (columns (data bt))).
Proof.
  intros bt strategy m Hl H.
  destruct (composition_ok bt strategy m Hl H) as [Hv ->].
  unfold values; cbn [rows]. split.
  - intros d Hs Hd Hr. rewrite !composition_rows_nth by lia.
    now apply composition_row_hold.
  - intros Hs Hr. rewrite composition_rows_nth by lia.
    now apply composition_row_start.
Qed.

Lemma nth_map_seq (f : nat -> float) (n a : nat) :
  a < n -> nth a (map f (seq 0 n)) NaN = f a.
Proof.
  intros Ha. rewrite (nth_indep _ NaN (f 0)) by (now rewrite length_map, length_seq).
  rewrite (map_nth f). now rewrite seq_nth.
Qed.

(** X4.  On a rebalancing date of the range the strategy is asked once per
    asset in the per-asset mode: it is shown that asset's prices up to and
    including the date, and the position the asset held on the date before (0
    at the first date of the range), and its answer is the cell written.  In
    the aggregate mode it is shown the rows of the table up to and including
    the date and the running position, whose cells are the row of the date
    before, and its answer fills the row. *)
Theorem X4_rebalancing_rule :
  forall (bt : Backtester) (strategy : Strategy) (m : DataFrame) (d : nat),
    labelled (data bt) ->
    calculate_composition_matrix bt strategy = Ok m ->
    special_start bt <= d -> d < length (rows (data bt)) ->
    rebalancing_dates bt d = true ->
    (multi_assets bt = false ->
     forall a, a < columns (data bt) ->
       Scalar (nth a (nth d (values m) []) NaN) =
       get_position strategy (asset_history bt a d)
         (Scalar (if d =? special_start bt then fzero
                  else nth a (nth (d - 1) (values m) []) NaN))) /\
    (multi_assets bt = true ->
     exists prev : position,
       expand (columns (data bt)) prev =
         (if d =? special_start bt then repeat fzero (columns (data bt))
          else nth (d - 1) (values m) []) /\
       nth d (values m) [] =
         expand (columns (data bt))
                (get_position strategy (table_history bt d) prev)).
Proof.
  intros bt strategy m d Hl H Hs Hd Hr.
  destruct (composition_ok bt strategy m Hl H) as [Hv ->].
  unfold values; cbn [rows]. unfold composition_valid in Hv.
  assert (E : special_start bt + (d - special_start bt) = d) by lia.
  split; intros Hm; rewrite Hm in Hv.
  - intros a Ha. rewrite composition_rows_nth by exact Hd.
    unfold composition_row at 1. rewrite Hm.
    replace (special_start bt <=? d) with true by (symmetry; apply Nat.leb_le; lia).
    rewrite nth_map_seq by exact Ha.
    destruct (assets_valid_at bt strategy a (d - special_start bt) Hv Ha)
      as [x Hx]; [unfold range_length; lia|].
    rewrite Hx. cbn [scalar_of]. rewrite <- Hx. cbn [asset_position].
    rewrite E, (trading_date_label bt d Hl Hd), Hr. f_equal.
    destruct (Nat.eqb_spec d (special_start bt)) as [->|Hne].
    + now rewrite Nat.sub_diag.
    + rewrite composition_rows_nth by lia. unfold composition_row. rewrite Hm.
      replace (special_start bt <=? d - 1) with true
        by (symmetry; apply Nat.leb_le; lia).
      rewrite nth_map_seq by exact Ha.
      replace (S (d - 1 - special_start bt)) with (d - special_start bt) by lia.
      destruct (assets_valid_at bt strategy a (d - 1 - special_start bt) Hv Ha)
        as [y Hy]; [unfold range_length; lia|].
      replace (S (d - 1 - special_start bt)) with (d - special_start bt) in Hy
        by lia.
      now rewrite Hy.
  - exists (multi_position bt strategy (d - special_start bt)). split.
    + destruct (Nat.eqb_spec d (special_start bt)) as [->|Hne].
      * now rewrite Nat.sub_diag.
      * rewrite composition_rows_nth by lia. unfold composition_row. rewrite Hm.
        replace (special_start bt <=? d - 1) with true
          by (symmetry; apply Nat.leb_le; lia).
        now replace (S (d - 1 - special_start bt)) with (d - special_start bt)
          by lia.
    + rewrite composition_rows_nth by exact Hd.
      unfold composition_row. rewrite Hm.
      replace (special_start bt <=? d) with true
        by (symmetry; apply Nat.leb_le; lia).
      cbn [multi_position].
      now rewrite E, (trading_date_label bt d Hl Hd), Hr.
Qed.

(** ** No look-ahead in the composition matrix *)

Lemma firstn_shorter {A : Type} (i k : nat) (l l' : list A) :
  i <= k -> firstn k l = firstn k l' -> firstn i l = firstn i l'.
Proof.
  intros Hi H.
  rewrite <- (Nat.min_l i k Hi), <- !firstn_firstn. now rewrite H.
Qed.

Lemma nth_in_firstn {A : Type} (x : A) (i : nat) :
  forall (l : list A), nth i l x = nth i (firstn (S i) l) x.
Proof.
  induction i as [|i IH]; intros [|y l]; simpl; auto.
Qed.

Lemma trading_date_prefix (bt : Backtester) (prices : DataFrame) (d k : nat) :
  d < k ->
  firstn k (rows prices) = firstn k (rows (data bt)) ->
  trading_date (with_data bt prices) d = trading_date bt d.
Proof.
  intros Hd H. unfold trading_date, index; cbn [data with_data].
  rewrite (nth_in_firstn 0 d (map fst (rows prices))),
          (nth_in_firstn 0 d (map fst (rows (data bt)))).
  rewrite !firstn_map.
  now rewrite (firstn_shorter (S d) k _ _ ltac:(lia) H).
Qed.

Lemma multi_position_prefix (bt : Backtester) (strategy : Strategy)
    (prices : DataFrame) (k : nat) :
  firstn k (rows prices) = firstn k (rows (data bt)) ->
  forall j, special_start bt + j <= k ->
    multi_position (with_data bt prices) strategy j = multi_position bt strategy j.
Proof.
  intros H. induction j as [|j IH]; intros Hj; [reflexivity|].
  cbn [multi_position]. rewrite IH by lia.
  change (special_start (with_data bt prices)) with (special_start bt).
  change (rebalancing_dates (with_data bt prices)) with (rebalancing_dates bt).
  rewrite (trading_date_prefix bt prices (special_start bt + j) k) by (lia || exact H).
  unfold table_history. cbn [data with_data].
  now rewrite (firstn_shorter (S (special_start bt + j)) k _ _ ltac:(lia) H).
Qed.

Lemma asset_position_prefix (bt : Backtester) (strategy : Strategy)
    (prices : DataFrame) (a k : nat) :
  columns prices = columns (data bt) ->
  firstn k (rows prices) = firstn k (rows (data bt)) ->
  forall j, special_start bt + j <= k ->
    asset_position (with_data bt prices) strategy a j
    = asset_position bt strategy a j.
Proof.
  intros Hc H. induction j as [|j IH]; intros Hj; [reflexivity|].
  cbn [asset_position]. rewrite IH by lia.
  change (special_start (with_data bt prices)) with (special_start bt).
  change (rebalancing_dates (with_data bt prices)) with (rebalancing_dates bt).
  rewrite (trading_date_prefix bt prices (special_start bt + j) k) by (lia || exact H).
  unfold asset_history. cbn [data with_data]. rewrite Hc.
  now rewrite (firstn_shorter (S (special_start bt + j)) k _ _ ltac:(lia) H).
Qed.

Lemma composition_row_prefix (bt : Backtester) (strategy : Strategy)
    (prices : DataFrame) (i k : nat) :
  columns prices = columns (data bt) ->
  firstn k (rows prices) = firstn k (rows (data bt)) ->
  i < k ->
  composition_row (with_data bt prices) strategy i = composition_row bt strategy i.
Proof.
  intros Hc H Hi. unfold composition_row. cbn [data with_data special_start multi_assets].
  rewrite Hc.
  destruct (Nat.leb_spec (special_start bt) i); [|reflexivity].
  destruct (multi_assets bt).
  - rewrite (multi_position_prefix bt strategy prices k H) by lia. reflexivity.
  - apply map_ext. intros a.
    rewrite (asset_position_prefix bt strategy prices a k Hc H) by lia.
    reflexivity.
Qed.

Lemma firstn_seq_min (k : nat) :
  forall start n, firstn k (seq start n) = seq start (Nat.min k n).
Proof.
  induction k as [|k IH]; intros start [|n]; simpl; try reflexivity.
  now rewrite IH.
Qed.

Lemma composition_rows_prefix (bt : Backtester) (strategy : Strategy)
    (prices : DataFrame) (k : nat) :
  columns prices = columns (data bt) ->
  firstn k (rows prices) = firstn k (rows (data bt)) ->
  firstn k (composition_rows (with_data bt prices) strategy)
  = firstn k (composition_rows bt strategy).
Proof.
  intros Hc H. unfold composition_rows. cbn [data with_data].
  rewrite !firstn_map, !firstn_seq_min.
  assert (Hlen : Nat.min k (length (rows prices))
                 = Nat.min k (length (rows (data bt)))).
  { rewrite <- !length_firstn. now rewrite H. }
  rewrite Hlen. apply map_ext_in. intros i Hi. apply in_seq in Hi. f_equal.
  apply (composition_row_prefix bt strategy prices i k Hc H). lia.
Qed.

(** X5.  The composition matrix never looks ahead: when two price tables with
    the same assets agree on their first [k] rows, the composition matrices
    built on them by the same strategy, calendar and start agree on their
    first [k] rows. *)
Theorem X5_composition_has_no_lookahead :
  forall (bt : Backtester) (strategy : Strategy) (prices : DataFrame)
         (k : nat) (m m' : DataFrame),
    labelled (data bt) ->
    labelled prices ->
    columns prices = columns (data bt) ->
    firstn k (rows prices) = firstn k (rows (data bt)) ->
    calculate_composition_matrix bt strategy = Ok m ->
    calculate_composition_matrix (with_data bt prices) strategy = Ok m' ->
    firstn k (rows m') = firstn k (rows m).
Proof.
  intros bt strategy prices k m m' Hl Hl' Hc H Hm Hm'.
  destruct (composition_ok bt strategy m Hl Hm) as [_ ->].
  destruct (composition_ok (with_data bt prices) strategy m' Hl' Hm') as [_ ->].
  cbn [rows]. now apply composition_rows_prefix.
Qed.

(** * The series of a run *)

Lemma ffill_from_length (rs : list (nat * list float)) :
  forall prev, length (ffill_from prev rs) = length rs.
Proof.
  induction rs as [|[d c] rs IH]; intros prev; simpl; auto.
Qed.

Lemma pct_change_length (fm : fill_method) (df : DataFrame) :
  length (rows (pct_change fm df)) = length (rows df).
Proof.
  unfold pct_change; cbn [rows]. rewrite map2_length.
  unfold df_shift1; cbn [rows]. rewrite shift_from_length.
  destruct fm; unfold df_ffill; cbn [rows];
    rewrite ?ffill_from_length; lia.
Qed.

Lemma asset_returns_length (fm : fill_method) (bt : Backtester) :
  length (rows (asset_returns fm bt)) = length (rows (data bt)).
Proof.
  unfold asset_returns, df_fillna0. rewrite map_cells_length.
  apply pct_change_length.
Qed.

Lemma map2_rows_index (f : list float -> list float -> list float)
    (a b : list (nat * list float)) :
  length a <= length b ->
  map fst (map2 (fun r r' : nat * list float => (fst r, f (snd r) (snd r'))) a b)
  = map fst a.
Proof.
  revert b. induction a as [|r a IH]; intros [|r' b] H; simpl in *;
    try reflexivity; try lia.
  f_equal. apply IH. lia.
Qed.

Lemma contributions_index (fm : fill_method) (bt : Backtester) (comp : DataFrame) :
  length (rows comp) <= length (rows (data bt)) ->
  index (asset_contributions fm bt comp) = index comp.
Proof.
  intros H. unfold asset_contributions, df_multiply, index at 1; cbn [rows].
  rewrite map2_rows_index by (rewrite shifted_length, asset_returns_length; exact H).
  apply shifted_index.
Qed.

Lemma run_parts (fm : fill_method) (bt : Backtester) (strategy : Strategy)
    (r : Result) :
  run fm bt strategy = Ok r ->
  exists m ret,
    calculate_composition_matrix bt strategy = Ok m /\
    calculate_returns fm bt m = Ok ret /\
    r = mkResult (r_portfolio_returns ret) (r_cumulative_returns ret) 0
                 (r_result_trade ret).
Proof.
  unfold run. intros H.
  destruct (calculate_composition_matrix bt strategy) as [m|e] eqn:Em;
    [|discriminate].
  cbn [bind] in H.
  destruct (calculate_returns fm bt m) as [ret|e] eqn:Er; [|discriminate].
  cbn [bind] in H. injection H as <-.
  exists m, ret. repeat split; assumption.
Qed.

(** X6.  The series that [run] returns are dated by the price table without
    its warm-up prefix: both keep the dates from [special_start + 1] on when
    [special_start] is not 1, and every date otherwise, so each has as many
    rows as the table has dates less the rows dropped. *)
Theorem X6_run_series_dates :
  forall (fm : fill_method) (bt : Backtester) (strategy : Strategy) (r : Result),
    labelled (data bt) ->
    run fm bt strategy = Ok r ->
    s_index (res_portfolio_returns r) = skipn (dropped bt) (index (data bt)) /\
    s_index (res_cumulative_returns r) = skipn (dropped bt) (index (data bt)) /\
    length (res_portfolio_returns r) = length (rows (data bt)) - dropped bt /\
    length (res_cumulative_returns r) = length (rows (data bt)) - dropped bt.
Proof.
  intros fm bt strategy r Hl Hrun.
  destruct (run_parts fm bt strategy r Hrun) as (m & ret & Hm & Hret & ->).
  destruct (composition_ok bt strategy m Hl Hm) as [_ Hshape].
  assert (Hidx : index m = index (data bt)).
  { rewrite Hshape. unfold index at 1, composition_rows; cbn [rows].
    rewrite map_map; cbn [fst]. rewrite map_id. symmetry. exact Hl. }
  assert (Hlen : length (rows m) <= length (rows (data bt))).
  { apply (f_equal (@length nat)) in Hidx. unfold index in Hidx.
    rewrite !length_map in Hidx. lia. }
  destruct (calculate_returns_fields fm bt m ret Hret)
    as (_ & Hpr & _ & Hcr & _).
  cbn [res_portfolio_returns res_cumulative_returns]. rewrite Hpr, Hcr.
  assert (E1 : s_index (trim_s bt (portfolio_returns fm bt m))
               = skipn (dropped bt) (index (data bt))).
  { rewrite trim_s_index, portfolio_returns_index, contributions_index by exact Hlen.
    now rewrite Hidx. }
  assert (E2 : s_index (trim_s bt (cumulative_returns fm bt m))
               = skipn (dropped bt) (index (data bt))).
  { rewrite trim_s_index, cumulative_returns_index, portfolio_returns_index,
      contributions_index by exact Hlen.
    now rewrite Hidx. }
  split; [exact E1|]. split; [exact E2|].
  apply (f_equal (@length nat)) in E1. apply (f_equal (@length nat)) in E2.
  unfold s_index, index in E1, E2.
  rewrite length_map, length_skipn, length_map in E1, E2.
  split; assumption.
Qed.

(** ** Compounding *)

Lemma finite_not_nan (x : float) : finite x -> is_nan x = false.
Proof. destruct x; unfold finite; simpl; congruence. Qed.

Lemma s_cumprod_from_first (s : list (nat * float)) (acc : float) (d : nat)
    (x : float) :
  finite x ->
  nth_error s 0 = Some (d, x) ->
  nth_error (s_cumprod_from acc s) 0 = Some (d, fmul acc x).
Proof.
  intros Hx H. destruct s as [|[d0 x0] s]; [discriminate|].
  injection H as -> ->. cbn [s_cumprod_from nth_error].
  unfold cum_out, cum_step. now rewrite (finite_not_nan x Hx).
Qed.

Lemma s_cumprod_from_next (t : nat) :
  forall (s : list (nat * float)) (acc : float) (d d' : nat) (x y : float),
    all_values finite s ->
    nth_error (s_cumprod_from acc s) t = Some (d, x) ->
    nth_error s (S t) = Some (d', y) ->
    nth_error (s_cumprod_from acc s) (S t) = Some (d', fmul x y).
Proof.
  induction t as [|t IH]; intros s acc d d' x y Hfin Hx Hy.
  - destruct s as [|[d0 x0] [|[d1 x1] s]]; try discriminate.
    injection Hy as -> ->.
    inversion Hfin as [|? ? H0 Hrest]; subst.
    inversion Hrest as [|? ? H1 _]; subst. cbn [snd] in H0, H1.
    cbn [s_cumprod_from nth_error] in *.
    unfold cum_out, cum_step in *.
    rewrite (finite_not_nan _ H0) in *. rewrite (finite_not_nan _ H1).
    injection Hx as _ <-. reflexivity.
  - destruct s as [|[d0 x0] s]; [discriminate|].
    inversion Hfin as [|? ? H0 Hrest]; subst.
    cbn [s_cumprod_from nth_error] in *.
    apply (IH s (cum_step acc x0) d d' x y Hrest Hx Hy).
Qed.

Lemma s_map_nth_error (f : float -> float) (s : list (nat * float)) (t : nat) :
  nth_error (s_map f s) t =
  match nth_error s t with
  | Some c => Some (fst c, f (snd c))
  | None => None
  end.
Proof.
  unfold s_map. rewrite nth_error_map. now destruct (nth_error s t).
Qed.

Lemma fadd_one_finite (x : float) : finite x -> finite (fadd fone x).
Proof. intros H. now apply fadd_finite. Qed.

(** X7.  The cumulative returns compound the portfolio returns: when the
    portfolio returns are finite numbers, the first cumulative return is the
    first portfolio return, and each later one is
    [(1 + previous cumulative return) * (1 + portfolio return) - 1]. *)
Theorem X7_cumulative_returns_compound :
  forall (fm : fill_method) (bt : Backtester) (comp : DataFrame),
    all_values finite (portfolio_returns fm bt comp) ->
    (forall d p,
        nth_error (portfolio_returns fm bt comp) 0 = Some (d, p) ->
        exists c,
          nth_error (cumulative_returns fm bt comp) 0 = Some (d, c) /\
          same c p) /\
    (forall t d c d' p,
        nth_error (cumulative_returns fm bt comp) t = Some (d, c) ->
        nth_error (portfolio_returns fm bt comp) (S t) = Some (d', p) ->
        exists c',
          nth_error (cumulative_returns fm bt comp) (S t) = Some (d', c') /\
          same c' (fsub (fmul (fadd fone c) (fadd fone p)) fone)).
Proof.
  intros fm bt comp Hfin.
  set (pr := portfolio_returns fm bt comp) in *.
  assert (Hfin1 : all_values finite (s_map (fadd fone) pr))
    by (apply s_map_finite; [apply fadd_one_finite | exact Hfin]).
  unfold cumulative_returns. fold pr. split.
  - intros d p Hp.
    assert (Hpf : finite p).
    { unfold all_values in Hfin. rewrite Forall_forall in Hfin.
      apply (Hfin (d, p)). eapply nth_error_In; exact Hp. }
    rewrite s_map_nth_error. unfold s_cumprod.
    rewrite (s_cumprod_from_first _ fone d (fadd fone p)).
    + eexists. split; [reflexivity|]. cbn [fst snd].
      destruct p as [b| | |]; try discriminate.
      unfold fsub, fone. cbn [fadd fmul fneg same]. ring.
    + now apply fadd_one_finite.
    + rewrite s_map_nth_error, Hp. reflexivity.
  - intros t d c d' p Hc Hp.
    rewrite s_map_nth_error in Hc. unfold s_cumprod in *.
    destruct (nth_error (s_cumprod_from fone (s_map (fadd fone) pr)) t)
      as [[d0 x]|] eqn:Ex; [|discriminate].
    cbn [fst snd] in Hc. injection Hc as -> <-.
    assert (Hxf : finite x).
    { pose proof (s_cumprod_from_finite _ fone eq_refl Hfin1) as Hall.
      unfold all_values in Hall. rewrite Forall_forall in Hall.
      apply (Hall (d, x)). eapply nth_error_In; exact Ex. }
    assert (Hpf : finite p).
    { unfold all_values in Hfin. rewrite Forall_forall in Hfin.
      apply (Hfin (d', p)). eapply nth_error_In; exact Hp. }
    rewrite s_map_nth_error.
    rewrite (s_cumprod_from_next t _ fone d d' x (fadd fone p) Hfin1 Ex)
      by (rewrite s_map_nth_error, Hp; reflexivity).
    eexists. split; [reflexivity|]. cbn [fst snd].
    destruct x as [a| | |]; try discriminate.
    destruct p as [b| | |]; try discriminate.
    unfold fsub, fone. cbn [fadd fmul fneg same]. ring.
Qed.

(** ** Costs *)

Lemma fsub_nan_row (cells : list float) (n : nat) :
  Forall (fun x => is_nan x = true) (map2 fsub cells (repeat NaN n)).
Proof.
  revert n. induction cells as [|x cells IH]; intros [|n]; simpl;
    constructor; auto.
  destruct x; reflexivity.
Qed.

Lemma nansum_all_nan (cells : list float) :
  Forall (fun x => is_nan x = true) cells ->
  forall acc, fold_left nan_step (map fabs cells) acc = acc.
Proof.
  induction 1 as [|x l Hx _ IH]; intros acc; simpl; [reflexivity|].
  destruct x; try discriminate. simpl. apply IH.
Qed.

Lemma turnover_first (sp : DataFrame) (d : nat) (x : float) :
  nth_error (turnover sp) 0 = Some (d, x) -> x = fzero.
Proof.
  unfold turnover, df_sum_rows, df_abs, map_cells, df_diff, df_shift1.
  cbn [rows columns]. rewrite !map_map. cbn [fst snd].
  destruct (rows sp) as [|[d0 c0] rs]; [discriminate|].
  cbn [shift_from map2 map nth_error fst snd].
  intros H. injection H as _ <-.
  unfold nansum. apply nansum_all_nan. apply fsub_nan_row.
Qed.

Lemma net_below_gross (g : float) (q c s : Q) :
  (0 <= q)%Q -> (0 <= c)%Q -> (0 <= s)%Q ->
  fltb g (net g (Fin q) c s) = false.
Proof.
  intros Hq Hc Hs. unfold net, fsub.
  destruct g as [a| | |]; cbn [fmul fneg fadd fltb]; try reflexivity.
  destruct (a ?= a + - (q * c) + - (q * s))%Q eqn:E; try reflexivity.
  apply Qlt_alt in E. exfalso. nra.
Qed.

Lemma net_free (g : float) (q c s : Q) :
  (q == 0)%Q -> same (net g (Fin q) c s) g.
Proof.
  intros Hq. unfold net, fsub.
  destruct g as [a| | |]; cbn [fmul fneg fadd same]; auto.
  rewrite Hq. ring.
Qed.

(** X8.  Costs never raise a return.  At every date the portfolio return is
    the gross return (the sum of the asset contributions) less the turnover
    times the transaction cost rate and less the turnover times the slippage
    rate; the turnover is a number that is not negative, so with rates that
    are not negative the portfolio return does not exceed the gross return;
    and the first date of the table bears no cost at all. *)
Theorem X8_costs_never_raise_returns :
  forall (fm : fill_method) (bt : Backtester) (comp : DataFrame)
         (t d : nat) (r : float),
    (0 <= transaction_cost bt)%Q ->
    (0 <= slippage bt)%Q ->
    nth_error (portfolio_returns fm bt comp) t = Some (d, r) ->
    exists (g : float) (d' : nat) (q : Q),
      nth_error (gross_returns fm bt comp) t = Some (d, g) /\
      nth_error (turnover (shifted_positions comp)) t = Some (d', Fin q) /\
      (0 <= q)%Q /\
      r = net g (Fin q) (transaction_cost bt) (slippage bt) /\
      fltb g r = false /\
      (t = 0 -> same r g).
Proof.
  intros fm bt comp t d r Hc Hs H.
  rewrite portfolio_returns_nth in H.
  destruct (nth_error (gross_returns fm bt comp) t) as [[dg g]|];
    [|discriminate].
  destruct (nth_error (turnover (shifted_positions comp)) t)
    as [[d' tau]|] eqn:Et; [|discriminate].
  cbn [fst snd] in H. injection H as -> <-.
  pose proof (turnover_nonneg _ (shifted_finite comp)) as Hn.
  rewrite Forall_forall in Hn.
  destruct (Hn _ (nth_error_In _ _ Et)) as (q & Hq & Hpos).
  cbn [snd] in Hq. subst tau.
  exists g, d', q. repeat split; try assumption.
  - now apply net_below_gross.
  - intros ->. apply net_free.
    apply turnover_first in Et. injection Et as ->. reflexivity.
Qed.

(** * Trade statistics and failures of a run *)

Lemma trade_step_bounds (bt : Backtester) (sp : DataFrame) (a : nat)
    (st st' : trade_state) (d : nat) :
  trade_step bt sp a st d = Ok st' ->
  exists dt dw,
    dt <= 1 /\ dw <= dt /\
    trade_count st' = trade_count st + dt /\
    win_trade_count st' = win_trade_count st + dw.
Proof.
  unfold trade_step. intros H.
  destruct (at_ sp d a) as [cur|e]; [|discriminate]. cbn [bind] in H.
  destruct (fneb (last_position st) cur).
  - destruct (at_ (data bt) d a) as [v|e]; [|discriminate]. cbn [bind] in H.
    injection H as <-. cbn [trade_count win_trade_count].
    destruct (is_win (last_position st) v (last_trade_value st)).
    + exists 1, 1. lia.
    + exists 1, 0. lia.
  - injection H as <-. exists 0, 0. lia.
Qed.

Lemma trade_loop_bounds (bt : Backtester) (sp : DataFrame) (a : nat)
    (l : list nat) :
  forall st st',
    foldM (trade_step bt sp a) l st = Ok st' ->
    exists dt dw,
      dt <= length l /\ dw <= dt /\
      trade_count st' = trade_count st + dt /\
      win_trade_count st' = win_trade_count st + dw.
Proof.
  induction l as [|d l IH]; intros st st' H; simpl in H.
  - injection H as <-. exists 0, 0. simpl. lia.
  - destruct (trade_step bt sp a st d) as [st1|e] eqn:E; [|discriminate].
    cbn [bind] in H.
    destruct (trade_step_bounds bt sp a st st1 d E) as (dt1 & dw1 & ? & ? & ? & ?).
    destruct (IH st1 st' H) as (dt & dw & ? & ? & ? & ?).
    exists (dt1 + dt), (dw1 + dw). simpl. lia.
Qed.

Lemma trade_asset_bounds (bt : Backtester) (sp : DataFrame) (a : nat)
    (counts counts' : nat * nat) :
  trade_asset bt sp counts a = Ok counts' ->
  exists dt dw,
    dt <= length (rows sp) /\ dw <= dt /\
    fst counts' = fst counts + dt /\ snd counts' = snd counts + dw.
Proof.
  unfold trade_asset. intros H.
  destruct (iloc0 sp) as [r0|e]; [|discriminate]. cbn [bind] in H.
  destruct (cell r0 a) as [p0|e]; [|discriminate]. cbn [bind] in H.
  destruct (iloc0 (data bt)) as [d0|e]; [|discriminate]. cbn [bind] in H.
  destruct (cell d0 a) as [v0|e]; [|discriminate]. cbn [bind] in H.
  destruct (foldM (trade_step bt sp a) (index sp)
                  (mkTS (fst counts) (snd counts) p0 v0)) as [st|e] eqn:E;
    [|discriminate].
  cbn [bind] in H. injection H as <-.
  destruct (trade_loop_bounds bt sp a _ _ _ E) as (dt & dw & Hdt & ? & ? & ?).
  unfold index in Hdt. rewrite length_map in Hdt.
  exists dt, dw. cbn [fst snd trade_count win_trade_count] in *. lia.
Qed.

Lemma assets_loop_bounds (bt : Backtester) (sp : DataFrame) (l : list nat) :
  forall counts counts',
    foldM (trade_asset bt sp) l counts = Ok counts' ->
    exists dt dw,
      dt <= length l * length (rows sp) /\ dw <= dt /\
      fst counts' = fst counts + dt /\ snd counts' = snd counts + dw.
Proof.
  induction l as [|a l IH]; intros counts counts' H; simpl in H.
  - injection H as <-. exists 0, 0. simpl. lia.
  - destruct (trade_asset bt sp counts a) as [c1|e] eqn:E; [|discriminate].
    cbn [bind] in H.
    destruct (trade_asset_bounds bt sp a counts c1 E) as (dt1 & dw1 & ? & ? & ? & ?).
    destruct (IH c1 counts' H) as (dt & dw & ? & ? & ? & ?).
    exists (dt1 + dt), (dw1 + dw). simpl. lia.
Qed.

(** X10.  Whatever window and prices [evaluate_trade] is given, when it
    returns, the wins it reports are at most the trades, and the trades are
    at most one per asset and row of the window. *)
Theorem X10_wins_at_most_trades :
  forall (bt : Backtester) (sp : DataFrame) (trades wins : nat),
    evaluate_trade bt sp = Ok (trades, wins) ->
    wins <= trades /\ trades <= columns sp * length (rows sp).
Proof.
  intros bt sp trades wins H. unfold evaluate_trade in H.
  destruct (assets_loop_bounds bt sp _ _ _ H) as (dt & dw & Hdt & ? & ? & ?).
  rewrite length_seq in Hdt. cbn [fst snd] in *. lia.
Qed.

Lemma assets_loop_ok (bt : Backtester) (sp : DataFrame) (l : list nat) :
  rows sp <> [] ->
  (forall a, In a l -> scan_ready bt sp a) ->
  forall counts, exists counts',
    foldM (trade_asset bt sp) l counts = Ok counts'.
Proof.
  intros Hne. induction l as [|a l IH]; intros Hr counts; simpl.
  - now exists counts.
  - rewrite (trade_asset_scan bt sp a counts (Hr a (or_introl eq_refl)) Hne).
    cbv zeta. cbn [bind].
    apply IH. intros a' Ha'. apply Hr. now right.
Qed.

Lemma evaluate_trade_ok (bt : Backtester) (sp : DataFrame) :
  rows sp <> [] ->
  (forall a, a < columns sp -> scan_ready bt sp a) ->
  exists counts, evaluate_trade bt sp = Ok counts.
Proof.
  intros Hne Hr. unfold evaluate_trade.
  apply assets_loop_ok; [exact Hne|].
  intros a Ha. apply in_seq in Ha. apply Hr. lia.
Qed.

Lemma trim_df_rows_dropped (bt : Backtester) (df : DataFrame) :
  trim_df bt df = mkDF (columns df) (skipn (dropped bt) (rows df)).
Proof.
  unfold trim_df, dropped, df_iloc_from.
  destruct (special_start bt =? 1); [|reflexivity].
  now destruct df.
Qed.

Lemma calculate_returns_ok (fm : fill_method) (bt : Backtester)
    (comp : DataFrame) (counts : nat * nat) :
  evaluate_trade bt (trim_df bt (shifted_positions comp)) = Ok counts ->
  exists ret, calculate_returns fm bt comp = Ok ret.
Proof.
  intros H. unfold calculate_returns. rewrite H. cbn [bind].
  eexists. reflexivity.
Qed.

(** X11.  The outcomes of [run] on a well-formed price table, for a
    strategy whose positions can all be written as they are.  When the
    warm-up trim leaves no row (the table has at most [special_start + 1]
    dates and [special_start] is not 1) and there is at least one asset, the
    run fails with the [IndexError] of the trade scan.  In every other case
    it returns a result. *)
Theorem X11_run_outcomes :
  forall (fm : fill_method) (bt : Backtester) (strategy : Strategy),
    wf_data (data bt) ->
    composition_valid bt strategy = true ->
    (length (rows (data bt)) <= dropped bt ->
     0 < columns (data bt) ->
     run fm bt strategy = Raise IndexError) /\
    (dropped bt < length (rows (data bt)) \/ columns (data bt) = 0 ->
     exists r, run fm bt strategy = Ok r).
Proof.
  intros fm bt strategy Hwf Hv. pose proof Hwf as [Hl _].
  unfold run. rewrite (composition_matrix_rows bt strategy Hl).
  split.
  - intros Hn Hc. rewrite Hv. cbn [bind].
    set (m := mkDF (columns (data bt)) (composition_rows bt strategy)).
    unfold calculate_returns.
    rewrite (trim_df_rows_dropped bt (shifted_positions m)).
    rewrite skipn_all2.
    + change (columns (shifted_positions m)) with (columns (data bt)).
      rewrite evaluate_trade_empty.
      destruct (Nat.eqb_spec (columns (data bt)) 0); [lia | reflexivity].
    + rewrite shifted_length. unfold m, composition_rows; cbn [rows].
      rewrite length_map, length_seq. exact Hn.
  - intros Hcase. rewrite Hv. cbn [bind].
    set (m := mkDF (columns (data bt)) (composition_rows bt strategy)).
    assert (Hm : calculate_composition_matrix bt strategy = Ok m)
      by (rewrite (composition_matrix_rows bt strategy Hl), Hv; reflexivity).
    destruct (composition_wf bt strategy m Hl Hm) as (Hi & Hcols & Hw).
    assert (Hlen : length (rows (shifted_positions m)) = length (rows (data bt))).
    { rewrite shifted_length. unfold m, composition_rows; cbn [rows].
      now rewrite length_map, length_seq. }
    assert (Hev : exists counts,
               evaluate_trade bt (trim_df bt (shifted_positions m)) = Ok counts).
    { destruct (Nat.ltb_spec (dropped bt) (length (rows (data bt)))) as [Hlt|Hge].
      - apply evaluate_trade_ok.
        + rewrite trim_df_rows_dropped; cbn [rows]. intros E.
          apply (f_equal (@length _)) in E.
          rewrite length_skipn, Hlen in E. simpl in E. lia.
        + intros a Ha.
          rewrite trim_df_rows_dropped in Ha.
          apply (pipeline_ready bt m a Hwf Hi Hcols);
            [now rewrite Hcols | exact Ha].
      - destruct Hcase as [Hlt|Hz]; [lia|].
        rewrite trim_df_rows_dropped, skipn_all2 by (rewrite Hlen; exact Hge).
        change (columns (shifted_positions m)) with (columns (data bt)).
        rewrite evaluate_trade_empty, Hz. eexists. reflexivity. }
    destruct Hev as [counts Hev].
    destruct (calculate_returns_ok fm bt m counts Hev) as [ret Hret].
    rewrite Hret. cbn [bind]. eexists. reflexivity.
Qed.

(** * Asset returns *)

Lemma ffill_row_id (cur : list float) :
  Forall (fun x => is_nan x = false) cur ->
  forall prev, ffill_row prev cur = cur.
Proof.
  induction 1 as [|x l Hx _ IH]; intros prev; simpl; [reflexivity|].
  now rewrite Hx, IH.
Qed.

Lemma ffill_from_id (rs : list (nat * list float)) :
  Forall (fun r : nat * list float =>
            Forall (fun x => is_nan x = false) (snd r)) rs ->
  forall prev, ffill_from prev rs = rs.
Proof.
  induction 1 as [|[d c] rs Hr _ IH]; intros prev; simpl; [reflexivity|].
  cbn [snd] in Hr. now rewrite (ffill_row_id c Hr), IH.
Qed.

Lemma map2_shift_values (g : float -> float -> float)
    (rs : list (nat * list float)) :
  forall prev,
    map snd (map2 (fun r r' : nat * list float =>
                     (fst r, map2 g (snd r) (snd r')))
                  rs (shift_from prev rs))
    = map2 (map2 g) (map snd rs) (prev :: map snd rs).
Proof.
  induction rs as [|[d c] rs IH]; intros prev; [reflexivity|].
  cbn [shift_from map2 map fst snd]. now rewrite IH.
Qed.

Lemma map2_shift_index (g : float -> float -> float)
    (rs : list (nat * list float)) :
  forall prev,
    map fst (map2 (fun r r' : nat * list float =>
                     (fst r, map2 g (snd r) (snd r')))
                  rs (shift_from prev rs))
    = map fst rs.
Proof.
  induction rs as [|[d c] rs IH]; intros prev; [reflexivity|].
  cbn [shift_from map2 map fst snd]. now rewrite IH.
Qed.

Lemma map2_rows_nth (h : list float -> list float -> list float)
    (l m : list (list float)) (t : nat) :
  t < length l -> t < length m ->
  nth t (map2 h l m) [] = h (nth t l []) (nth t m []).
Proof.
  revert l m. induction t as [|t IH]; intros [|a l] [|b m] Hl Hm;
    simpl in *; try lia; [reflexivity|].
  apply IH; lia.
Qed.

Lemma map_map2 {A B C D : Type} (f : C -> D) (g : A -> B -> C)
    (l : list A) (m : list B) :
  map f (map2 g l m) = map2 (fun a b => f (g a b)) l m.
Proof.
  revert m. induction l as [|a l IH]; intros [|b m]; simpl; auto.
  now rewrite IH.
Qed.

Lemma map2_ext {A B C : Type} (f g : A -> B -> C) :
  (forall a b, f a b = g a b) ->
  forall l m, map2 f l m = map2 g l m.
Proof.
  intros H l. induction l as [|a l IH]; intros [|b m]; simpl; auto.
  now rewrite H, IH.
Qed.

Lemma pct_first_row (cells : list float) (n : nat) :
  length cells = n ->
  map2 pct_cell cells (repeat NaN n) = repeat fzero n.
Proof.
  revert n. induction cells as [|x l IH]; intros [|n] H; simpl in *;
    try discriminate; [reflexivity|].
  f_equal.
  - unfold pct_cell. now destruct x.
  - apply IH. lia.
Qed.

Lemma asset_returns_values (fm : fill_method) (bt : Backtester) :
  fm = NoFill \/ no_missing (data bt) ->
  values (asset_returns fm bt)
  = map2 (map2 pct_cell) (values (data bt))
         (repeat NaN (columns (data bt)) :: values (data bt)).
Proof.
  intros H. unfold asset_returns, df_fillna0. rewrite map_cells_values.
  assert (E : rows (match fm with
                    | Pad => df_ffill (data bt)
                    | NoFill => data bt
                    end) = rows (data bt)).
  { destruct H as [->|Hn]; [reflexivity|].
    destruct fm; [|reflexivity].
    unfold df_ffill; cbn [rows]. now apply ffill_from_id. }
  unfold values at 1, pct_change; cbn [rows]. unfold df_shift1; cbn [rows].
  rewrite E.
  assert (Ec : columns (match fm with
                        | Pad => df_ffill (data bt)
                        | NoFill => data bt
                        end) = columns (data bt)) by (now destruct fm).
  rewrite Ec, map2_shift_values. unfold values.
  rewrite map_map2. apply map2_ext. intros a b. apply map_map2.
Qed.

(** X12.  The asset returns of line 155.  On a table without missing prices
    (or, with a pandas that does not forward-fill, on any table) the index
    is the one of the price table, the first row is 0 for every asset, and
    every later cell is [price / previous price - 1], a [NaN] result being
    replaced by 0 and an infinite one (a previous price of zero) kept. *)
Theorem X12_asset_returns_are_price_ratios :
  forall (fm : fill_method) (bt : Backtester),
    fm = NoFill \/ no_missing (data bt) ->
    Forall (fun r : nat * list float => length (snd r) = columns (data bt))
           (rows (data bt)) ->
    index (asset_returns fm bt) = index (data bt) /\
    (0 < length (rows (data bt)) ->
     nth 0 (values (asset_returns fm bt)) [] = repeat fzero (columns (data bt))) /\
    (forall t, S t < length (rows (data bt)) ->
       nth (S t) (values (asset_returns fm bt)) []
       = map2 pct_cell (nth (S t) (values (data bt)) [])
                       (nth t (values (data bt)) [])).
Proof.
  intros fm bt H Hw.
  assert (Hlen : length (values (data bt)) = length (rows (data bt)))
    by (unfold values; apply length_map).
  split; [|split].
  - unfold asset_returns, df_fillna0. rewrite map_cells_index.
    unfold index at 1, pct_change; cbn [rows]. unfold df_shift1; cbn [rows].
    rewrite map2_shift_index.
    destruct H as [->|Hn]; [reflexivity|].
    destruct fm; [|reflexivity].
    unfold df_ffill; cbn [rows]. now rewrite ffill_from_id.
  - intros Hn. rewrite (asset_returns_values fm bt H).
    rewrite map2_rows_nth by (simpl; lia). cbn [nth].
    apply pct_first_row.
    rewrite Forall_forall in Hw. unfold values.
    change (@nil float) with (snd (0, @nil float)). rewrite map_nth.
    apply Hw. apply nth_In. exact Hn.
  - intros t Ht. rewrite (asset_returns_values fm bt H).
    rewrite map2_rows_nth by (simpl; lia). reflexivity.
Qed.

(** * No look-ahead in the returns *)

Lemma firstn_map2 {A B C : Type} (f : A -> B -> C) (k : nat) :
  forall l m, firstn k (map2 f l m) = map2 f (firstn k l) (firstn k m).
Proof.
  induction k as [|k IH]; intros [|a l] [|b m]; simpl; try reflexivity.
  now rewrite IH.
Qed.

Lemma firstn_shift_from (k : nat) :
  forall rs prev, firstn k (shift_from prev rs) = shift_from prev (firstn k rs).
Proof.
  induction k as [|k IH]; intros [|[d c] rs] prev; simpl; try reflexivity.
  now rewrite IH.
Qed.

Lemma firstn_ffill_from (k : nat) :
  forall rs prev, firstn k (ffill_from prev rs) = ffill_from prev (firstn k rs).
Proof.
  induction k as [|k IH]; intros [|[d c] rs] prev; simpl; try reflexivity.
  now rewrite IH.
Qed.

Lemma firstn_cumprod_from (k : nat) :
  forall rs acc, firstn k (cumprod_from acc rs) = cumprod_from acc (firstn k rs).
Proof.
  induction k as [|k IH]; intros [|[d c] rs] acc; simpl; try reflexivity.
  now rewrite IH.
Qed.

Lemma firstn_s_cumprod_from (k : nat) :
  forall s acc,
    firstn k (s_cumprod_from acc s) = s_cumprod_from acc (firstn k s).
Proof.
  induction k as [|k IH]; intros [|[d x] s] acc; simpl; try reflexivity.
  now rewrite IH.
Qed.

Lemma head_shift1 (k : nat) (df : DataFrame) :
  df_shift1 (df_head k df) = df_head k (df_shift1 df).
Proof.
  unfold df_shift1, df_head; cbn [rows columns]. now rewrite firstn_shift_from.
Qed.

Lemma head_map_cells (f : float -> float) (k : nat) (df : DataFrame) :
  map_cells f (df_head k df) = df_head k (map_cells f df).
Proof.
  unfold map_cells, df_head; cbn [rows columns]. now rewrite firstn_map.
Qed.

Lemma head_sum_rows (k : nat) (df : DataFrame) :
  df_sum_rows (df_head k df) = firstn k (df_sum_rows df).
Proof.
  unfold df_sum_rows, df_head; cbn [rows]. now rewrite firstn_map.
Qed.

Lemma head_normalize (k : nat) (df : DataFrame) :
  normalize (df_head k df) = df_head k (normalize df).
Proof.
  unfold normalize, df_fillna0, df_abs.
  rewrite head_map_cells, head_sum_rows, <- head_map_cells. f_equal.
  unfold df_div_rows, df_head; cbn [rows columns]. now rewrite firstn_map2.
Qed.

Lemma head_shifted_positions (k : nat) (comp : DataFrame) :
  shifted_positions (df_head k comp) = df_head k (shifted_positions comp).
Proof.
  unfold shifted_positions, lagged_positions, df_fillna0.
  now rewrite head_shift1, head_map_cells, head_normalize.
Qed.

Lemma head_ffill (k : nat) (df : DataFrame) :
  df_ffill (df_head k df) = df_head k (df_ffill df).
Proof.
  unfold df_ffill, df_head; cbn [rows columns]. now rewrite firstn_ffill_from.
Qed.

Lemma head_pct_change (fm : fill_method) (k : nat) (df : DataFrame) :
  pct_change fm (df_head k df) = df_head k (pct_change fm df).
Proof.
  unfold pct_change. destruct fm.
  - rewrite head_ffill, head_shift1. unfold df_head; cbn [rows columns].
    now rewrite firstn_map2.
  - rewrite head_shift1. unfold df_head; cbn [rows columns].
    now rewrite firstn_map2.
Qed.

Lemma head_asset_returns (fm : fill_method) (bt : Backtester) (k : nat) :
  asset_returns fm (with_data bt (df_head k (data bt)))
  = df_head k (asset_returns fm bt).
Proof.
  unfold asset_returns, df_fillna0. cbn [data with_data].
  now rewrite head_pct_change, head_map_cells.
Qed.

Lemma head_multiply (k : nat) (a b : DataFrame) :
  df_multiply (df_head k a) (df_head k b) = df_head k (df_multiply a b).
Proof.
  unfold df_multiply, df_head; cbn [rows columns]. now rewrite firstn_map2.
Qed.

Lemma head_turnover (k : nat) (sp : DataFrame) :
  turnover (df_head k sp) = firstn k (turnover sp).
Proof.
  unfold turnover, df_abs. rewrite <- head_sum_rows, <- head_map_cells.
  do 2 f_equal. unfold df_diff. rewrite head_shift1.
  unfold df_head; cbn [rows columns]. now rewrite firstn_map2.
Qed.

Lemma head_contributions (fm : fill_method) (bt : Backtester)
    (comp : DataFrame) (k : nat) :
  asset_contributions fm (with_data bt (df_head k (data bt))) (df_head k comp)
  = df_head k (asset_contributions fm bt comp).
Proof.
  unfold asset_contributions.
  now rewrite head_shifted_positions, head_asset_returns, head_multiply.
Qed.

Lemma head_portfolio_returns (fm : fill_method) (bt : Backtester)
    (comp : DataFrame) (k : nat) :
  portfolio_returns fm (with_data bt (df_head k (data bt))) (df_head k comp)
  = firstn k (portfolio_returns fm bt comp).
Proof.
  unfold portfolio_returns, calculate_transaction_costs,
    calculate_slippage_costs, s_sub, s_scale.
  cbn [transaction_cost slippage with_data].
  rewrite head_contributions, head_shifted_positions, head_turnover,
    head_sum_rows.
  now rewrite !firstn_map2, !firstn_map.
Qed.

Lemma head_cumulative_returns (fm : fill_method) (bt : Backtester)
    (comp : DataFrame) (k : nat) :
  cumulative_returns fm (with_data bt (df_head k (data bt))) (df_head k comp)
  = firstn k (cumulative_returns fm bt comp).
Proof.
  unfold cumulative_returns, s_map, s_cumprod.
  rewrite head_portfolio_returns.
  now rewrite firstn_map, firstn_s_cumprod_from, firstn_map.
Qed.

Lemma head_cumprod (k : nat) (df : DataFrame) :
  df_cumprod (df_head k df) = df_head k (df_cumprod df).
Proof.
  unfold df_cumprod, df_head; cbn [rows columns].
  now rewrite firstn_cumprod_from.
Qed.

Lemma head_cumulative_asset_returns (fm : fill_method) (bt : Backtester)
    (comp : DataFrame) (k : nat) :
  cumulative_asset_returns fm (with_data bt (df_head k (data bt)))
                           (df_head k comp)
  = df_head k (cumulative_asset_returns fm bt comp).
Proof.
  unfold cumulative_asset_returns.
  now rewrite head_contributions, head_map_cells, head_cumprod, head_map_cells.
Qed.

Lemma head_eq (k : nat) (df df' : DataFrame) :
  columns df' = columns df ->
  firstn k (rows df') = firstn k (rows df) ->
  df_head k df' = df_head k df.
Proof. intros Hc H. unfold df_head. now rewrite Hc, H. Qed.

Lemma with_data_head (bt : Backtester) (prices : DataFrame) (k : nat) :
  with_data (with_data bt prices) (df_head k prices)
  = with_data bt (df_head k prices).
Proof. reflexivity. Qed.

Lemma returns_prefix (fm : fill_method) (bt : Backtester)
    (comp prices' comp' : DataFrame) (k : nat) :
  columns prices' = columns (data bt) ->
  firstn k (rows prices') = firstn k (rows (data bt)) ->
  columns comp' = columns comp ->
  firstn k (rows comp') = firstn k (rows comp) ->
  firstn k (portfolio_returns fm (with_data bt prices') comp')
  = firstn k (portfolio_returns fm bt comp) /\
  firstn k (cumulative_returns fm (with_data bt prices') comp')
  = firstn k (cumulative_returns fm bt comp).
Proof.
  intros Hc H Hc' H'.
  rewrite <- (head_portfolio_returns fm (with_data bt prices') comp' k).
  rewrite <- (head_cumulative_returns fm (with_data bt prices') comp' k).
  rewrite <- (head_portfolio_returns fm bt comp k).
  rewrite <- (head_cumulative_returns fm bt comp k).
  cbn [data with_data]. rewrite !with_data_head.
  rewrite (head_eq k (data bt) prices' Hc H).
  rewrite (head_eq k comp comp' Hc' H').
  split; reflexivity.
Qed.

(** X13.  The returns never look ahead.  The first [k] rows of the asset
    contributions, the portfolio returns and the two cumulative series are
    those computed from the first [k] rows of the price table and of the
    composition matrix alone; so they are the same on any other price table
    and composition matrix with the same assets and the same first [k]
    rows. *)
Theorem X13_returns_have_no_lookahead :
  forall (fm : fill_method) (bt : Backtester) (comp : DataFrame) (k : nat),
    (firstn k (portfolio_returns fm bt comp)
     = portfolio_returns fm (with_data bt (df_head k (data bt))) (df_head k comp) /\
     firstn k (cumulative_returns fm bt comp)
     = cumulative_returns fm (with_data bt (df_head k (data bt))) (df_head k comp) /\
     df_head k (asset_contributions fm bt comp)
     = asset_contributions fm (with_data bt (df_head k (data bt)))
                           (df_head k comp) /\
     df_head k (cumulative_asset_returns fm bt comp)
     = cumulative_asset_returns fm (with_data bt (df_head k (data bt)))
                                (df_head k comp)) /\
    (forall prices' comp' : DataFrame,
        columns prices' = columns (data bt) ->
        firstn k (rows prices') = firstn k (rows (data bt)) ->
        columns comp' = columns comp ->
        firstn k (rows comp') = firstn k (rows comp) ->
        firstn k (portfolio_returns fm (with_data bt prices') comp')
        = firstn k (portfolio_returns fm bt comp) /\
        firstn k (cumulative_returns fm (with_data bt prices') comp')
        = firstn k (cumulative_returns fm bt comp)).
Proof.
  intros fm bt comp k. split.
  - now rewrite head_portfolio_returns, head_cumulative_returns,
      head_contributions, head_cumulative_asset_returns.
  - intros prices' comp' Hc H Hc' H'. now apply returns_prefix.
Qed.

Lemma trim_s_skipn (bt : Backtester) (s : list (nat * float)) :
  trim_s bt s = skipn (dropped bt) s.
Proof.
  unfold trim_s, dropped, s_iloc_from.
  now destruct (special_start bt =? 1).
Qed.

Lemma firstn_after_skipn {A : Type} (k d : nat) (l l' : list A) :
  firstn k l' = firstn k l ->
  firstn (k - d) (skipn d l') = firstn (k - d) (skipn d l).
Proof.
  intros H. destruct (Nat.le_gt_cases d k) as [Hle|Hgt].
  - rewrite !firstn_skipn_comm.
    replace (d + (k - d)) with k by lia. now rewrite H.
  - replace (k - d) with 0 by lia. reflexivity.
Qed.

(** X14.  A run never looks ahead.  When two price tables with the same
    assets agree on their first [k] rows, the runs of the same strategy,
    calendar, start and rates on them report the same portfolio returns and
    the same cumulative returns for every date before [k] that survives the
    warm-up trim. *)
Theorem X14_run_has_no_lookahead :
  forall (fm : fill_method) (bt : Backtester) (strategy : Strategy)
         (prices : DataFrame) (k : nat) (r r' : Result),
    labelled (data bt) ->
    labelled prices ->
    columns prices = columns (data bt) ->
    firstn k (rows prices) = firstn k (rows (data bt)) ->
    run fm bt strategy = Ok r ->
    run fm (with_data bt prices) strategy = Ok r' ->
    firstn (k - dropped bt) (res_portfolio_returns r')
    = firstn (k - dropped bt) (res_portfolio_returns r) /\
    firstn (k - dropped bt) (res_cumulative_returns r')
    = firstn (k - dropped bt) (res_cumulative_returns r).
Proof.
  intros fm bt strategy prices k r r' Hl Hl' Hc H Hr Hr'.
  destruct (run_parts fm bt strategy r Hr) as (m & ret & Hm & Hret & ->).
  destruct (run_parts fm (with_data bt prices) strategy r' Hr')
    as (m' & ret' & Hm' & Hret' & ->).
  destruct (composition_ok bt strategy m Hl Hm) as [_ Em].
  destruct (composition_ok (with_data bt prices) strategy m' Hl' Hm')
    as [_ Em'].
  assert (Hcm : columns m' = columns m)
    by (rewrite Em, Em'; cbn [columns data with_data]; exact Hc).
  assert (Hrm : firstn k (rows m') = firstn k (rows m)).
  { rewrite Em, Em'. cbn [rows].
    now apply composition_rows_prefix. }
  destruct (returns_prefix fm bt m prices m' k Hc H Hcm Hrm) as [Hp Hcu].
  destruct (calculate_returns_fields fm bt m ret Hret)
    as (_ & -> & _ & -> & _).
  destruct (calculate_returns_fields fm (with_data bt prices) m' ret' Hret')
    as (_ & -> & _ & -> & _).
  cbn [res_portfolio_returns res_cumulative_returns].
  rewrite !trim_s_skipn.
  change (dropped (with_data bt prices)) with (dropped bt).
  split; now apply firstn_after_skipn.
Qed.

(** * What the returned tables hold *)

Lemma ffill_from_index (rs : list (nat * list float)) :
  forall prev, map fst (ffill_from prev rs) = map fst rs.
Proof.
  induction rs as [|[d c] rs IH]; intros prev; simpl; [reflexivity|].
  now rewrite IH.
Qed.

Lemma asset_returns_index (fm : fill_method) (bt : Backtester) :
  index (asset_returns fm bt) = index (data bt).
Proof.
  unfold asset_returns, df_fillna0. rewrite map_cells_index.
  unfold index at 1, pct_change, df_shift1; cbn [rows].
  assert (Ec : columns (match fm with
                        | Pad => df_ffill (data bt)
                        | NoFill => data bt
                        end) = columns (data bt)) by (now destruct fm).
  rewrite Ec, map2_shift_index.
  destruct fm; [|reflexivity].
  unfold df_ffill; cbn [rows]. apply ffill_from_index.
Qed.

Lemma asset_returns_no_nan (fm : fill_method) (bt : Backtester) :
  all_cells (fun x => is_nan x = false) (asset_returns fm bt).
Proof.
  unfold asset_returns, df_fillna0, all_cells, map_cells; cbn [rows].
  apply Forall_map, Forall_forall. intros r _. cbn [snd].
  apply Forall_map, Forall_forall. intros [a| | |] _; reflexivity.
Qed.

(** The product of a weight and a return is [NaN] exactly when the weight is
    zero and the return infinite. *)
Lemma fmul_nan_iff (w rr : float) :
  finite w -> is_nan rr = false ->
  (is_nan (fmul w rr) = true <-> is_zero w = true /\ is_inf rr = true).
Proof.
  unfold finite, is_zero.
  destruct w as [a| | |]; try discriminate. intros _.
  destruct rr as [b| | |]; try discriminate; intros _;
    cbn [fmul feqb fzero is_inf is_nan].
  - split; [discriminate | intros [_ H]; discriminate].
  - destruct (Qeq_bool a 0) eqn:E.
    + apply Qeq_bool_iff in E. apply Qeq_alt in E. rewrite E. cbn. tauto.
    + destruct (a ?= 0)%Q eqn:C; cbn; try (split; [discriminate | intros [H _]; discriminate]).
      apply Qeq_alt in C. apply Qeq_bool_iff in C. congruence.
  - destruct (Qeq_bool a 0) eqn:E.
    + apply Qeq_bool_iff in E. symmetry in E. apply Qeq_alt in E. rewrite E.
      cbn. tauto.
    + destruct (0 ?= a)%Q eqn:C; cbn; try (split; [discriminate | intros [H _]; discriminate]).
      apply Qeq_alt in C. symmetry in C. apply Qeq_bool_iff in C. congruence.
Qed.

Lemma nth_error_label (l : list (nat * list float)) (t : nat)
    (r : nat * list float) :
  nth_error l t = Some r -> nth_error (map fst l) t = Some (fst r).
Proof. intros H. now rewrite nth_error_map, H. Qed.

(** One cell of the asset contributions: the weight and the asset return of
    the same date and the same asset. *)
Lemma contribution_cell (fm : fill_method) (bt : Backtester) (comp : DataFrame)
    (t j d : nat) (cs : list float) (c : float) :
  index comp = index (data bt) ->
  nth_error (rows (asset_contributions fm bt comp)) t = Some (d, cs) ->
  nth_error cs j = Some c ->
  exists (ws rs : list float) (w rr : float),
    nth_error (rows (shifted_positions comp)) t = Some (d, ws) /\
    nth_error ws j = Some w /\
    nth_error (rows (asset_returns fm bt)) t = Some (d, rs) /\
    nth_error rs j = Some rr /\
    c = fmul w rr /\
    finite w /\
    is_nan rr = false.
Proof.
  intros Hidx Hrow Hc.
  unfold asset_contributions, df_multiply in Hrow; cbn [rows] in Hrow.
  rewrite map2_nth_error in Hrow.
  destruct (nth_error (rows (shifted_positions comp)) t) as [[d1 ws]|] eqn:E1;
    [|discriminate].
  destruct (nth_error (rows (asset_returns fm bt)) t) as [[d2 rs]|] eqn:E2;
    [|discriminate].
  cbn [fst snd] in Hrow. injection Hrow as -> <-.
  rewrite map2_nth_error in Hc.
  destruct (nth_error ws j) as [w|] eqn:Ew; [|discriminate].
  destruct (nth_error rs j) as [rr|] eqn:Er; [|discriminate].
  injection Hc as <-.
  assert (Hd : d2 = d).
  { pose proof (nth_error_label _ _ _ E1) as L1.
    pose proof (nth_error_label _ _ _ E2) as L2.
    fold (index (shifted_positions comp)) in L1.
    fold (index (asset_returns fm bt)) in L2.
    rewrite shifted_index, Hidx in L1. rewrite asset_returns_index in L2.
    rewrite L1 in L2. now injection L2. }
  subst d2. exists ws, rs, w, rr.
  split; [reflexivity|]. split; [exact Ew|]. split; [reflexivity|].
  split; [exact Er|]. split; [reflexivity|]. split.
  - pose proof (shifted_finite comp) as Hf. unfold all_cells in Hf.
    rewrite Forall_forall in Hf. specialize (Hf _ (nth_error_In _ _ E1)).
    cbn [snd] in Hf. rewrite Forall_forall in Hf.
    exact (Hf _ (nth_error_In _ _ Ew)).
  - pose proof (asset_returns_no_nan fm bt) as Hf. unfold all_cells in Hf.
    rewrite Forall_forall in Hf. specialize (Hf _ (nth_error_In _ _ E2)).
    cbn [snd] in Hf. rewrite Forall_forall in Hf.
    exact (Hf _ (nth_error_In _ _ Er)).
Qed.

(** C8 (as the code behaves).  Take a composition matrix over the dates and
    the assets of the price table.  The four tables returned by
    [calculate_returns] carry the same dates, those of the price table
    without the trimmed prefix.  The asset returns hold no [NaN] and the
    normalised positions are finite numbers.  An asset contribution is the
    product of the weight and the asset return of its date and asset; it is
    [NaN] exactly when the weight is zero and the return infinite, and it is
    a finite number whenever the return is one.  Nothing is said of the
    portfolio returns and of the cumulative tables beyond their dates. *)
Theorem C8_outputs_aligned :
  forall (fm : fill_method) (bt : Backtester) (comp : DataFrame) (r : Returns),
    index comp = index (data bt) ->
    columns comp = columns (data bt) ->
    calculate_returns fm bt comp = Ok r ->
    index (r_asset_contributions r) = skipn (dropped bt) (index (data bt)) /\
    s_index (r_portfolio_returns r) = index (r_asset_contributions r) /\
    index (r_cumulative_asset_returns r) = index (r_asset_contributions r) /\
    s_index (r_cumulative_returns r) = index (r_asset_contributions r) /\
    all_cells (fun x => is_nan x = false) (asset_returns fm bt) /\
    all_cells finite (shifted_positions comp) /\
    (forall (i j d : nat) (cs : list float) (c : float),
        nth_error (rows (r_asset_contributions r)) i = Some (d, cs) ->
        nth_error cs j = Some c ->
        exists (ws rs : list float) (w rr : float),
          nth_error (rows (shifted_positions comp)) (dropped bt + i)
            = Some (d, ws) /\
          nth_error ws j = Some w /\
          nth_error (rows (asset_returns fm bt)) (dropped bt + i)
            = Some (d, rs) /\
          nth_error rs j = Some rr /\
          c = fmul w rr /\
          (is_nan c = true <-> is_zero w = true /\ is_inf rr = true) /\
          (finite rr -> finite c)).
Proof.
  intros fm bt comp r Hidx _ Hr.
  destruct (calculate_returns_fields fm bt comp r Hr)
    as (-> & -> & -> & -> & _).
  assert (Hlen : length (rows comp) <= length (rows (data bt))).
  { apply (f_equal (@length nat)) in Hidx. unfold index in Hidx.
    rewrite !length_map in Hidx. lia. }
  rewrite !trim_s_index, !trim_df_index.
  rewrite cumulative_returns_index, portfolio_returns_index,
    cumulative_asset_returns_index.
  rewrite (contributions_index fm bt comp Hlen), Hidx.
  split; [reflexivity|]. split; [reflexivity|]. split; [reflexivity|].
  split; [reflexivity|]. split; [apply asset_returns_no_nan|].
  split; [apply shifted_finite|].
  intros i j d cs c Hrow Hc.
  rewrite trim_df_rows_dropped in Hrow; cbn [rows] in Hrow.
  rewrite nth_error_skipn in Hrow.
  destruct (contribution_cell fm bt comp _ j d cs c Hidx Hrow Hc)
    as (ws & rs & w & rr & H1 & H2 & H3 & H4 & -> & Hw & Hn).
  exists ws, rs, w, rr.
  split; [exact H1|]. split; [exact H2|]. split; [exact H3|].
  split; [exact H4|]. split; [reflexivity|].
  split; [exact (fmul_nan_iff w rr Hw Hn)|].
  intros Hf. now apply fmul_finite.
Qed.

(** C8, refuted as stated.  With a price that goes from 0 to 1 the return of
    date 1 is [+inf]; with no position held its contribution is [0 * inf],
    which is [NaN], in the asset contributions and in the cumulative asset
    returns that [calculate_returns] gives back.  With two such assets, one
    held long and one short, the contributions of date 1 are [+inf] and
    [-inf], and their sum, the portfolio return, is [NaN], as is the
    cumulative return.  On binary64 numbers prices that are positive and
    finite do the same: from 2^-600 to 2^600 the ratio overflows, the return
    is [+inf] and its product with a zero weight is [NaN]. *)
Lemma C8_counterexample :
  (exists r : Returns,
      calculate_returns NoFill (zero_price_backtester 0) no_position = Ok r /\
      values (r_asset_contributions r) = [[NaN]; [Fin 0]] /\
      values (r_cumulative_asset_returns r) = [[NaN]; [Fin 0]]) /\
  (exists r : Returns,
      calculate_returns NoFill zero_price_pair_backtester long_short = Ok r /\
      nth_error (rows (r_asset_contributions r)) 0 = Some (1, [PInf; NInf]) /\
      nth_error (r_portfolio_returns r) 0 = Some (1, NaN) /\
      nth_error (r_cumulative_returns r) 0 = Some (1, NaN)) /\
  (b64_steep_return = PrimFloat.infinity /\
   PrimFloat.is_nan (b64_contribution 0 b64_steep_return) = true).
Proof.
  split; [|split].
  - eexists. split; [vm_compute; reflexivity|].
    split; vm_compute; reflexivity.
  - eexists. split; [vm_compute; reflexivity|].
    repeat split; vm_compute; reflexivity.
  - split; vm_compute; reflexivity.
Qed.

(** C8 on the sample: the portfolio returns carry the dates of the asset
    contributions. *)
Lemma C8_witness :
  index sample_composition = index (data (sample_backtester 1 0)) /\
  columns sample_composition = columns (data (sample_backtester 1 0)) /\
  calculate_returns NoFill (sample_backtester 1 0) sample_composition
    = Ok sample_returns /\
  s_index (r_portfolio_returns sample_returns)
    = index (r_asset_contributions sample_returns).
Proof.
  split; [reflexivity|]. split; [reflexivity|]. split; [exact sample_run|].
  exact (proj1 (proj2 (C8_outputs_aligned NoFill (sample_backtester 1 0)
                         sample_composition sample_returns
                         eq_refl eq_refl sample_run))).
Defined.

(** * The turnover, row by row *)

Lemma turnover_values (sp : DataFrame) :
  s_values (turnover sp)
  = map2 (fun cur prev => abs_sum (map2 fsub cur prev))
         (values sp) (repeat NaN (columns sp) :: values sp).
Proof.
  unfold s_values, turnover, df_sum_rows, df_abs, map_cells, df_diff, df_shift1.
  cbn [rows columns]. rewrite !map_map. cbn [fst snd].
  rewrite <- (map_map snd (fun cells => nansum (map fabs cells))).
  rewrite map2_shift_values. unfold values.
  rewrite map_map2. reflexivity.
Qed.

Lemma s_values_nth (s : list (nat * float)) (t d : nat) (x : float) :
  nth_error s t = Some (d, x) -> nth_error (s_values s) t = Some x.
Proof.
  intros H. unfold s_values. rewrite nth_error_map, H. reflexivity.
Qed.

Lemma map2_nth_error_rows {A : Type} (h : list float -> list float -> A)
    (l m : list (list float)) (t : nat) (y : A) :
  nth_error (map2 h l m) t = Some y ->
  y = h (nth t l []) (nth t m []).
Proof.
  rewrite map2_nth_error.
  destruct (nth_error l t) as [a|] eqn:Ea; [|discriminate].
  destruct (nth_error m t) as [b|] eqn:Eb; [|discriminate].
  intros H. injection H as <-.
  now rewrite (nth_error_nth _ _ [] Ea), (nth_error_nth _ _ [] Eb).
Qed.

(** * The warm-up rows *)

Lemma nansum_zeroish (l : list float) :
  Forall zeroish l ->
  forall acc : Q, exists q : Q,
    fold_left nan_step l (Fin acc) = Fin q /\ (q == acc)%Q.
Proof.
  induction 1 as [|x l Hx _ IH]; intros acc; simpl.
  - exists acc. split; reflexivity.
  - destruct Hx as [->|(a & -> & Ha)]; simpl.
    + apply IH.
    + destruct (IH (acc + a)%Q) as (q & Hq & E). exists q.
      split; [exact Hq|]. rewrite E, Ha. ring.
Qed.

Lemma zero_products (ys : list float) :
  forall c, Forall zeroish (map2 fmul (repeat fzero c) ys).
Proof.
  induction ys as [|y ys IH]; intros [|c]; simpl; constructor; auto.
  destruct y as [b| | |]; simpl.
  - right. exists (0 * b)%Q. split; [reflexivity | ring].
  - now left.
  - now left.
  - now left.
Qed.

Lemma zero_differences (c c' : nat) :
  Forall zeroish (map fabs (map2 fsub (repeat fzero c) (repeat fzero c'))).
Proof.
  revert c'. induction c as [|c IH]; intros [|c']; simpl; constructor; auto.
  right. exists (Qabs (0 + - 0)). split; reflexivity.
Qed.

Lemma normalize_row_zeros (c : nat) :
  normalize_row (repeat fzero c) = repeat fzero c.
Proof.
  rewrite <- (map_const_repeat fzero c 0).
  destruct (abs_sum_zeros (seq 0 c)) as [E0 E1].
  unfold normalize_row. rewrite E0, map_map.
  apply map_ext. intros _. cbn [fdiv fzero].
  apply Qeq_bool_iff in E1. now rewrite E1.
Qed.

Lemma warm_up_positions (bt : Backtester) (strategy : Strategy) (t : nat) :
  t <= special_start bt ->
  t < length (rows (data bt)) ->
  nth t (values (shifted_positions
                   (mkDF (columns (data bt)) (composition_rows bt strategy))))
      []
  = repeat fzero (columns (data bt)).
Proof.
  intros Hs Ht.
  set (m := mkDF (columns (data bt)) (composition_rows bt strategy)).
  assert (Hlen : length (rows m) = length (rows (data bt)))
    by (unfold m, composition_rows; cbn [rows];
        now rewrite length_map, length_seq).
  rewrite shifted_nth by (rewrite Hlen; exact Ht).
  rewrite lagged_nth by (rewrite Hlen; exact Ht).
  destruct t as [|t']; [apply normalize_row_zeros|].
  unfold values, m; cbn [rows].
  rewrite composition_rows_nth by lia.
  unfold composition_row.
  destruct (Nat.leb_spec (special_start bt) t'); [lia|].
  rewrite fillna0_repeat_nan. apply normalize_row_zeros.
Qed.

Lemma values_nth_error (df : DataFrame) (t : nat) (r : nat * list float) :
  nth_error (rows df) t = Some r -> snd r = nth t (values df) [].
Proof.
  intros H. unfold values.
  assert (E : nth_error (map snd (rows df)) t = Some (snd r))
    by (rewrite nth_error_map, H; reflexivity).
  symmetry. now apply nth_error_nth.
Qed.

Lemma warm_up_gross (fm : fill_method) (bt : Backtester) (strategy : Strategy)
    (t d : nat) (g : float) :
  t <= special_start bt ->
  nth_error (gross_returns fm bt
               (mkDF (columns (data bt)) (composition_rows bt strategy))) t
    = Some (d, g) ->
  zero_value g.
Proof.
  intros Hs H.
  set (m := mkDF (columns (data bt)) (composition_rows bt strategy)) in *.
  unfold gross_returns, df_sum_rows, asset_contributions, df_multiply in H.
  cbn [rows] in H. rewrite nth_error_map, map2_nth_error in H.
  destruct (nth_error (rows (shifted_positions m)) t) as [r|] eqn:Er;
    [|discriminate].
  destruct (nth_error (rows (asset_returns fm bt)) t) as [r'|] eqn:Er';
    [|discriminate].
  cbn [option_map fst snd] in H. injection H as _ <-.
  assert (Ht : t < length (rows (data bt))).
  { rewrite <- (asset_returns_length fm bt).
    apply nth_error_Some. rewrite Er'. discriminate. }
  rewrite (values_nth_error _ _ _ Er).
  unfold m. rewrite (warm_up_positions bt strategy t Hs Ht).
  unfold nansum, fzero.
  destruct (nansum_zeroish _ (zero_products (snd r') (columns (data bt))) 0)
    as (q & Hq & E).
  exists q. split; assumption.
Qed.

Lemma warm_up_turnover (bt : Backtester) (strategy : Strategy)
    (t d : nat) (x : float) :
  t <= special_start bt ->
  nth_error (turnover (shifted_positions
               (mkDF (columns (data bt)) (composition_rows bt strategy)))) t
    = Some (d, x) ->
  zero_value x.
Proof.
  intros Hs H.
  set (m := mkDF (columns (data bt)) (composition_rows bt strategy)) in *.
  destruct t as [|t].
  - apply turnover_first in H. subst x. exists 0%Q. split; reflexivity.
  - assert (Hlt : S t < length (rows (data bt))).
    { assert (Hlen : length (rows m) = length (rows (data bt)))
        by (unfold m, composition_rows; cbn [rows];
            now rewrite length_map, length_seq).
      rewrite <- Hlen, <- shifted_length, <- turnover_length.
      apply nth_error_Some. rewrite H. discriminate. }
    pose proof (s_values_nth _ _ _ _ H) as Hv.
    rewrite turnover_values in Hv.
    apply map2_nth_error_rows in Hv. cbn [nth] in Hv.
    unfold m in Hv.
    rewrite (warm_up_positions bt strategy (S t) Hs Hlt) in Hv.
    rewrite (warm_up_positions bt strategy t ltac:(lia) ltac:(lia)) in Hv.
    unfold abs_sum, nansum, fzero in Hv.
    destruct (nansum_zeroish _ (zero_differences (columns (data bt))
                                                 (columns (data bt))) 0)
      as (q & Hq & E).
    unfold fzero in Hq. rewrite Hq in Hv. subst x.
    exists q. split; [reflexivity | exact E].
Qed.

Lemma warm_up_return (fm : fill_method) (bt : Backtester) (strategy : Strategy)
    (t d : nat) (p : float) :
  t <= special_start bt ->
  nth_error (portfolio_returns fm bt
               (mkDF (columns (data bt)) (composition_rows bt strategy))) t
    = Some (d, p) ->
  zero_value p.
Proof.
  intros Hs H. rewrite portfolio_returns_nth in H.
  destruct (nth_error (gross_returns fm bt _) t) as [[dg g]|] eqn:Eg;
    [|discriminate].
  destruct (nth_error (turnover _) t) as [[dt tau]|] eqn:Et; [|discriminate].
  cbn [fst snd] in H. injection H as _ <-.
  destruct (warm_up_gross fm bt strategy t dg g Hs Eg) as (a & -> & Ha).
  destruct (warm_up_turnover bt strategy t dt tau Hs Et) as (b & -> & Hb).
  unfold net, fsub. cbn [fmul fneg fadd].
  eexists. split; [reflexivity|]. rewrite Ha, Hb. ring.
Qed.

Lemma s_cumprod_from_ones (s : list (nat * float)) :
  Forall (fun c : nat * float => exists x, snd c = Fin x /\ (x == 1)%Q) s ->
  forall A : Q,
    Forall (fun c : nat * float => exists a, snd c = Fin a /\ (a == A)%Q)
           (s_cumprod_from (Fin A) s).
Proof.
  induction 1 as [|[d y] s (x & Hx & E) _ IH]; intros A; simpl;
    constructor; cbn [snd] in *; subst y.
  - unfold cum_out, cum_step. cbn [is_nan fmul].
    eexists. split; [reflexivity|]. rewrite E. ring.
  - unfold cum_step. cbn [is_nan fmul].
    eapply Forall_impl; [|apply (IH (A * x)%Q)].
    intros c (a & Ha & Ea). exists a. split; [exact Ha|].
    rewrite Ea, E. ring.
Qed.

Lemma firstn_Forall_nth {A : Type} (P : A -> Prop) (l : list A) (k : nat) :
  (forall t x, t < k -> nth_error l t = Some x -> P x) ->
  Forall P (firstn k l).
Proof.
  revert l. induction k as [|k IH]; intros [|y l] H; simpl; constructor.
  - apply (H 0 y); [lia | reflexivity].
  - apply IH. intros t x Ht Hx. apply (H (S t) x); [lia | exact Hx].
Qed.

Lemma nth_error_firstn_lt {A : Type} (l : list A) (k t : nat) :
  t < k -> nth_error (firstn k l) t = nth_error l t.
Proof.
  revert l t. induction k as [|k IH]; intros [|y l] [|t] H; simpl;
    try reflexivity; try lia.
  apply IH. lia.
Qed.

Lemma warm_up_cumprod (fm : fill_method) (bt : Backtester)
    (strategy : Strategy) (t d : nat) (x : float) :
  t <= special_start bt ->
  nth_error (s_cumprod
               (s_map (fadd fone)
                  (portfolio_returns fm bt
                     (mkDF (columns (data bt)) (composition_rows bt strategy)))))
            t = Some (d, x) ->
  exists a : Q, x = Fin a /\ (a == 1)%Q.
Proof.
  intros Hs H.
  set (pr := portfolio_returns fm bt _) in *.
  rewrite <- (nth_error_firstn_lt _ (S t) t) in H by lia.
  unfold s_cumprod in H. rewrite firstn_s_cumprod_from in H.
  assert (Hones : Forall (fun c : nat * float =>
                            exists y, snd c = Fin y /\ (y == 1)%Q)
                         (firstn (S t) (s_map (fadd fone) pr))).
  { apply firstn_Forall_nth. intros t' [d' y] Ht' Hy.
    rewrite s_map_nth_error in Hy.
    destruct (nth_error pr t') as [[d0 p]|] eqn:Ep; [|discriminate].
    cbn [fst snd] in Hy. injection Hy as _ <-.
    destruct (warm_up_return fm bt strategy t' d0 p ltac:(lia) Ep)
      as (a & -> & Ha).
    cbn [snd fadd fone]. eexists. split; [reflexivity|]. rewrite Ha. ring. }
  pose proof (s_cumprod_from_ones _ Hones 1) as Hall.
  rewrite Forall_forall in Hall.
  apply (Hall (d, x)). eapply nth_error_In. exact H.
Qed.

(** X16.  The warm-up trim only removes rows without exposure.  In the
    matrix built by [calculate_composition_matrix], the normalised positions
    of every date up to and including [special_start] are 0 for every asset,
    and the portfolio return and the cumulative return of these dates are 0,
    whatever the prices and the rates. *)
Theorem X16_warm_up_rows_are_flat :
  forall (fm : fill_method) (bt : Backtester) (strategy : Strategy)
         (m : DataFrame) (t : nat),
    labelled (data bt) ->
    calculate_composition_matrix bt strategy = Ok m ->
    t <= special_start bt ->
    (t < length (rows (data bt)) ->
     nth t (values (shifted_positions m)) [] = repeat fzero (columns (data bt))) /\
    (forall d p, nth_error (portfolio_returns fm bt m) t = Some (d, p) ->
                 zero_value p) /\
    (forall d c, nth_error (cumulative_returns fm bt m) t = Some (d, c) ->
                 zero_value c).
Proof.
  intros fm bt strategy m t Hl Hm Hs.
  destruct (composition_ok bt strategy m Hl Hm) as [_ ->].
  split; [|split].
  - intros Ht. now apply warm_up_positions.
  - intros d p H. now apply (warm_up_return fm bt strategy t d p).
  - intros d c H. unfold cumulative_returns in H.
    rewrite s_map_nth_error in H.
    destruct (nth_error (s_cumprod _) t) as [[d0 x]|] eqn:Ex; [|discriminate].
    cbn [fst snd] in H. injection H as _ <-.
    destruct (warm_up_cumprod fm bt strategy t d0 x Hs Ex) as (a & -> & Ha).
    unfold fsub, fone. cbn [fneg fadd].
    eexists. split; [reflexivity|]. rewrite Ha. ring.
Qed.

(** * The further statements on sample inputs *)

Lemma even_labelled (multi : bool) (start : nat) :
  labelled (data (sample_even multi start)).
Proof. reflexivity. Qed.

Lemma later_labelled : labelled sample_prices_later.
Proof. reflexivity. Qed.

Lemma even_wf (multi : bool) (start : nat) :
  wf_data (data (sample_even multi start)).
Proof. split; [reflexivity | repeat constructor]. Qed.

Lemma even_built :
  calculate_composition_matrix (sample_even false 0) above_97
  = Ok even_composition.
Proof. vm_compute. reflexivity. Qed.

Lemma even_built_from_1 :
  calculate_composition_matrix (sample_even false 1) above_97
  = Ok even_composition_from_1.
Proof. vm_compute. reflexivity. Qed.

Lemma even_built_later :
  calculate_composition_matrix
    (with_data (sample_even false 0) sample_prices_later) above_97
  = Ok even_composition_later.
Proof. vm_compute. reflexivity. Qed.

Lemma even_run : run NoFill (sample_even false 0) above_97 = Ok even_result.
Proof.
  unfold run. rewrite even_built. cbn [bind]. unfold calculate_returns.
  replace (evaluate_trade (sample_even false 0)
             (trim_df (sample_even false 0) (shifted_positions even_composition)))
    with (@Ok (nat * nat) (1, 1)) by (vm_compute; reflexivity).
  reflexivity.
Qed.

Lemma even_run_later :
  run NoFill (with_data (sample_even false 0) sample_prices_later) above_97
  = Ok even_result_later.
Proof.
  unfold run. rewrite even_built_later. cbn [bind]. unfold calculate_returns.
  replace (evaluate_trade (with_data (sample_even false 0) sample_prices_later)
             (trim_df (with_data (sample_even false 0) sample_prices_later)
                      (shifted_positions even_composition_later)))
    with (@Ok (nat * nat) (0, 0)) by (vm_compute; reflexivity).
  reflexivity.
Qed.

Lemma later_prefix :
  firstn 2 (rows sample_prices_later)
  = firstn 2 (rows (data (sample_even false 0))).
Proof. reflexivity. Qed.

(** X1 on the sample: the strategy hands back scalars, the matrix is built. *)
Lemma X1_witness :
  labelled (data (sample_even false 0)) /\
  composition_valid (sample_even false 0) above_97 = true /\
  exists m, calculate_composition_matrix (sample_even false 0) above_97 = Ok m.
Proof.
  split; [apply even_labelled|].
  assert (Hv : composition_valid (sample_even false 0) above_97 = true)
    by (vm_compute; reflexivity).
  split; [exact Hv|].
  exact (X1_composition_succeeds (sample_even false 0) above_97
                                 (even_labelled false 0) Hv).
Defined.

(** X2 on the sample started at date 1: the row of date 0 stays missing. *)
Lemma X2_witness :
  labelled (data (sample_even false 1)) /\
  calculate_composition_matrix (sample_even false 1) above_97
    = Ok even_composition_from_1 /\
  columns even_composition_from_1 = columns (data (sample_even false 1)) /\
  nth 0 (values even_composition_from_1) [] = [NaN; NaN].
Proof.
  split; [apply even_labelled|]. split; [exact even_built_from_1|].
  destruct (X2_composition_shape (sample_even false 1) above_97
              even_composition_from_1 (even_labelled false 1)
              even_built_from_1) as (Hc & _ & Hn).
  split; [exact Hc|].
  apply (Hn 0); simpl; lia.
Defined.

(** X3 on the sample: date 1 is no rebalancing date and repeats date 0. *)
Lemma X3_witness :
  labelled (data (sample_even false 0)) /\
  calculate_composition_matrix (sample_even false 0) above_97
    = Ok even_composition /\
  nth 1 (values even_composition) [] = nth 0 (values even_composition) [].
Proof.
  split; [apply even_labelled|]. split; [exact even_built|].
  destruct (X3_positions_are_carried_forward (sample_even false 0) above_97
              even_composition (even_labelled false 0) even_built)
    as (Hc & _).
  apply (Hc 1); [simpl; lia | simpl; lia | reflexivity].
Defined.

(** X4 on the sample: at the rebalancing date 2 the first asset is shown its
    prices 100, 90, 95 and its position 1 of date 1. *)
Lemma X4_witness :
  labelled (data (sample_even false 0)) /\
  calculate_composition_matrix (sample_even false 0) above_97
    = Ok even_composition /\
  Scalar (nth 0 (nth 2 (values even_composition) []) NaN) =
  get_position above_97 (asset_history (sample_even false 0) 0 2)
               (Scalar (nth 0 (nth 1 (values even_composition) []) NaN)).
Proof.
  split; [apply even_labelled|]. split; [exact even_built|].
  assert (H1 : special_start (sample_even false 0) <= 2) by (simpl; lia).
  assert (H2 : 2 < length (rows (data (sample_even false 0)))) by (simpl; lia).
  destruct (X4_rebalancing_rule (sample_even false 0) above_97
              even_composition 2 (even_labelled false 0) even_built
              H1 H2 eq_refl) as (Ha & _).
  apply (Ha eq_refl 0). simpl; lia.
Defined.

(** X5 on the sample: the later prices differ from date 2 on, and the two
    matrices agree on dates 0 and 1. *)
Lemma X5_witness :
  labelled (data (sample_even false 0)) /\
  labelled sample_prices_later /\
  columns sample_prices_later = columns (data (sample_even false 0)) /\
  firstn 2 (rows sample_prices_later)
    = firstn 2 (rows (data (sample_even false 0))) /\
  firstn 2 (rows even_composition_later) = firstn 2 (rows even_composition) /\
  rows even_composition_later <> rows even_composition.
Proof.
  split; [apply even_labelled|]. split; [exact later_labelled|].
  split; [reflexivity|]. split; [exact later_prefix|].
  split.
  - exact (X5_composition_has_no_lookahead (sample_even false 0) above_97
             sample_prices_later 2 even_composition even_composition_later
             (even_labelled false 0) later_labelled eq_refl later_prefix
             even_built even_built_later).
  - discriminate.
Defined.

(** X6 on the sample: four dates, a start at date 0, three rows reported. *)
Lemma X6_witness :
  labelled (data (sample_even false 0)) /\
  run NoFill (sample_even false 0) above_97 = Ok even_result /\
  s_index (res_portfolio_returns even_result) = [1; 2; 3] /\
  length (res_cumulative_returns even_result) = 3.
Proof.
  split; [apply even_labelled|]. split; [exact even_run|].
  destruct (X6_run_series_dates NoFill (sample_even false 0) above_97
              even_result (even_labelled false 0) even_run)
    as (Hi & _ & _ & Hl).
  split; [exact Hi | exact Hl].
Defined.

Lemma sample_returns_finite :
  all_values finite
    (portfolio_returns NoFill (sample_backtester 1 0) sample_composition).
Proof. apply portfolio_returns_finite. exact sample_prices_ok. Qed.

(** X7 on the sample: the cumulative return of date 0 is the return of
    date 0. *)
Lemma X7_witness :
  all_values finite
    (portfolio_returns NoFill (sample_backtester 1 0) sample_composition) /\
  exists p c,
    nth_error (portfolio_returns NoFill (sample_backtester 1 0)
                                 sample_composition) 0 = Some (0, p) /\
    nth_error (cumulative_returns NoFill (sample_backtester 1 0)
                                  sample_composition) 0 = Some (0, c) /\
    same c p.
Proof.
  split; [exact sample_returns_finite|].
  destruct (nth_error (portfolio_returns NoFill (sample_backtester 1 0)
                                         sample_composition) 0)
    as [[d p]|] eqn:E; [|vm_compute in E; discriminate].
  assert (Hd : d = 0) by (vm_compute in E; now injection E).
  subst d.
  destruct (proj1 (X7_cumulative_returns_compound NoFill
                     (sample_backtester 1 0) sample_composition
                     sample_returns_finite) 0 p E) as (c & Hc & Hs).
  exists p, c. repeat split; assumption.
Defined.

(** X8 on the sample with a cost rate of 1/100, date 2. *)
Lemma X8_witness :
  (0 <= transaction_cost (sample_backtester 1 (1 # 100)))%Q /\
  (0 <= slippage (sample_backtester 1 (1 # 100)))%Q /\
  exists r g,
    nth_error (portfolio_returns NoFill (sample_backtester 1 (1 # 100))
                                 sample_composition) 2 = Some (2, r) /\
    nth_error (gross_returns NoFill (sample_backtester 1 (1 # 100))
                             sample_composition) 2 = Some (2, g) /\
    fltb g r = false.
Proof.
  assert (Hc : (0 <= transaction_cost (sample_backtester 1 (1 # 100)))%Q)
    by discriminate.
  assert (Hs : (0 <= slippage (sample_backtester 1 (1 # 100)))%Q)
    by discriminate.
  split; [exact Hc|]. split; [exact Hs|].
  destruct (nth_error (portfolio_returns NoFill (sample_backtester 1 (1 # 100))
                                         sample_composition) 2)
    as [[d r]|] eqn:E; [|vm_compute in E; discriminate].
  assert (Hd : d = 2) by (vm_compute in E; now injection E).
  subst d.
  destruct (X8_costs_never_raise_returns NoFill (sample_backtester 1 (1 # 100))
              sample_composition 2 2 r Hc Hs E)
    as (g & d' & q & Hg & _ & _ & _ & Hle & _).
  exists r, g. repeat split; assumption.
Defined.

Lemma sample_trades :
  evaluate_trade (sample_backtester 1 0) (shifted_positions sample_composition)
  = Ok (5, 2).
Proof. vm_compute. reflexivity. Qed.

(** X10 on the sample: five trades, two of them wins, in a window of two
    assets and four rows. *)
Lemma X10_witness :
  evaluate_trade (sample_backtester 1 0) (shifted_positions sample_composition)
    = Ok (5, 2) /\
  2 <= 5 /\ 5 <= columns (shifted_positions sample_composition)
                 * length (rows (shifted_positions sample_composition)).
Proof.
  split; [exact sample_trades|].
  exact (X10_wins_at_most_trades (sample_backtester 1 0)
           (shifted_positions sample_composition) 5 2 sample_trades).
Defined.

(** X11 on the sample: the strategy is valid and rows are left after the
    trim, so the run returns. *)
Lemma X11_witness :
  wf_data (data (sample_even false 0)) /\
  composition_valid (sample_even false 0) above_97 = true /\
  exists r, run NoFill (sample_even false 0) above_97 = Ok r.
Proof.
  split; [apply even_wf|].
  assert (Hv : composition_valid (sample_even false 0) above_97 = true)
    by (vm_compute; reflexivity).
  split; [exact Hv|].
  apply (proj2 (X11_run_outcomes NoFill (sample_even false 0) above_97
                  (even_wf false 0) Hv)).
  left. vm_compute. lia.
Defined.

Lemma sample_no_missing : no_missing (data (sample_backtester 1 0)).
Proof. repeat constructor. Qed.

Lemma sample_widths :
  Forall (fun r : nat * list float =>
            length (snd r) = columns (data (sample_backtester 1 0)))
         (rows (data (sample_backtester 1 0))).
Proof. repeat constructor. Qed.

(** X12 on the sample prices: the returns of date 1 are 90/100 - 1 and
    45/50 - 1. *)
Lemma X12_witness :
  (Pad = NoFill \/ no_missing (data (sample_backtester 1 0))) /\
  Forall (fun r : nat * list float =>
            length (snd r) = columns (data (sample_backtester 1 0)))
         (rows (data (sample_backtester 1 0))) /\
  nth 1 (values (asset_returns Pad (sample_backtester 1 0))) []
  = [pct_cell (Fin 90) (Fin 100); pct_cell (Fin 45) (Fin 50)].
Proof.
  assert (H : Pad = NoFill \/ no_missing (data (sample_backtester 1 0)))
    by (right; exact sample_no_missing).
  split; [exact H|]. split; [exact sample_widths|].
  destruct (X12_asset_returns_are_price_ratios Pad (sample_backtester 1 0)
              H sample_widths) as (_ & _ & Hn).
  apply (Hn 0). simpl; lia.
Defined.

(** X14 on the sample: the later prices differ from date 2 on, and the two
    runs report the same return for date 1. *)
Lemma X14_witness :
  labelled (data (sample_even false 0)) /\
  labelled sample_prices_later /\
  columns sample_prices_later = columns (data (sample_even false 0)) /\
  firstn 2 (rows sample_prices_later)
    = firstn 2 (rows (data (sample_even false 0))) /\
  run NoFill (sample_even false 0) above_97 = Ok even_result /\
  run NoFill (with_data (sample_even false 0) sample_prices_later) above_97
    = Ok even_result_later /\
  firstn 1 (res_portfolio_returns even_result_later)
    = firstn 1 (res_portfolio_returns even_result).
Proof.
  split; [apply even_labelled|]. split; [exact later_labelled|].
  split; [reflexivity|]. split; [exact later_prefix|].
  split; [exact even_run|]. split; [exact even_run_later|].
  exact (proj1 (X14_run_has_no_lookahead NoFill (sample_even false 0) above_97
                  sample_prices_later 2 even_result even_result_later
                  (even_labelled false 0) later_labelled eq_refl later_prefix
                  even_run even_run_later)).
Defined.

(** X16 on the sample started at date 0: the normalised positions of date 0
    are zero for both assets. *)
Lemma X16_witness :
  labelled (data (sample_even false 0)) /\
  calculate_composition_matrix (sample_even false 0) above_97
    = Ok even_composition /\
  0 <= special_start (sample_even false 0) /\
  nth 0 (values (shifted_positions even_composition)) [] = [fzero; fzero].
Proof.
  split; [apply even_labelled|]. split; [exact even_built|].
  split; [apply Nat.le_refl|].
  destruct (X16_warm_up_rows_are_flat NoFill (sample_even false 0) above_97
              even_composition 0 (even_labelled false 0) even_built
              (Nat.le_refl 0)) as (Hz & _).
  apply Hz. simpl; lia.
Defined.
